(** * GPA: extraction, graph assembly, path enumeration and pair composition

    A shallow embedding of the parts of the repository that carry
    invariants:

    - [knowledge_graph/knowledge_graph_builder.py]
      ([validate_extraction_result], [retry_extraction_with_guidance],
      [extract_relations], [extract_batch_relations],
      [build_knowledge_graph], [save_knowledge_graph]);
    - [poison_generator/poison_text_generator.py]
      ([build_networkx_graph], [extract_all_paths]);
    - [poison_enhancer/poison_text_enhancer.py]
      ([extract_poison_entities], [generate_synthetic_poison_entities],
      [process_entity_batch], [process_subgraph]).

    Values parsed by [json.loads] are modelled by the type [json]; Python
    dictionaries are insertion-ordered association lists; a Python
    exception is the [Raise] branch of [result]; the text-generation
    service is an oracle threaded through the state [world]. *)

From Stdlib Require Import ZArith Ascii String List Bool Lia.
From Stdlib Require Import Floats.SpecFloat.
From stdpp Require Import base gmap sets list strings.

Set Warnings "-register-all,-clear-no-such-hyp".

Open Scope string_scope.
Open Scope list_scope.

(** ** Exceptions

    [Unmodelled] is not a Python exception: it marks an identifier (a
    node name, an edge end point, a relation label, a core entity) that
    is not a [str].  The data model has strings there, Python would go on
    with its own equality and hashing of numbers and containers, and the
    model stops instead.  [OutOfFuel] is the recursion budget of the
    model of the depth-first search running out; the properties show that
    it never does. *)

Inductive exn : Type :=
| KeyError
| TypeError
| AttributeError
| ValueError
| NetworkXError
| Unmodelled
| OutOfFuel.

Inductive result (A : Type) : Type :=
| Ok (a : A)
| Raise (e : exn).

Arguments Ok {A} a.
Arguments Raise {A} e.

Definition rbind {A B : Type} (r : result A) (k : A -> result B) : result B :=
  match r with
  | Ok a => k a
  | Raise e => Raise e
  end.

Notation "x <- c ;; k" := (rbind c (fun x => k))
  (at level 100, c at next level, right associativity).

(** [for x in xs: acc = body(acc, x)] where the body may raise. *)
Fixpoint for_each {A S : Type} (body : S -> A -> result S) (xs : list A) (acc : S)
  : result S :=
  match xs with
  | [] => Ok acc
  | x :: rest => acc' <- body acc x ;; for_each body rest acc'
  end.

(** ** Dictionaries

    A Python [dict] with string keys: keys are unique, iteration follows
    insertion order, and assigning to an existing key keeps its position. *)

Module Dict.

Definition t (V : Type) : Type := list (string * V).

Fixpoint get {V : Type} (k : string) (d : t V) : option V :=
  match d with
  | [] => None
  | (k', v) :: rest => if String.eqb k' k then Some v else get k rest
  end.

Definition contains {V : Type} (k : string) (d : t V) : bool :=
  match get k d with Some _ => true | None => false end.

(** [d[k] = v] *)
Fixpoint set {V : Type} (k : string) (v : V) (d : t V) : t V :=
  match d with
  | [] => [(k, v)]
  | (k', v') :: rest =>
      if String.eqb k' k then (k', v) :: rest else (k', v') :: set k v rest
  end.

Definition keys {V : Type} (d : t V) : list string := map fst d.

(** [d.update(other)] *)
Definition update {V : Type} (d other : t V) : t V :=
  fold_left (fun acc kv => set (fst kv) (snd kv) acc) other d.

End Dict.

(** ** JSON values as [json.loads] returns them *)

Inductive json : Type :=
| JNull
| JBool (b : bool)
| JInt (z : Z)
| JFloat (f : spec_float)
| JStr (s : string)
| JArr (items : list json)
| JObj (members : list (string * json)).

Abbreviation dict := (Dict.t json).

(** Python truthiness, [bool(v)]. *)
Definition truthy (v : json) : bool :=
  match v with
  | JNull => false
  | JBool b => b
  | JInt z => negb (z =? 0)%Z
  | JFloat (S754_zero _) => false
  | JFloat _ => true
  | JStr s => negb (String.eqb s EmptyString)
  | JArr items => match items with [] => false | _ => true end
  | JObj members => match members with [] => false | _ => true end
  end.

(** Truthiness of the result of [d.get(k)], where [None] is falsy. *)
Definition truthy_opt (v : option json) : bool :=
  match v with
  | Some x => truthy x
  | None => false
  end.

(** [f == 1.0] for a float [m * 2^e]. *)
Definition float_is_one (f : spec_float) : bool :=
  match f with
  | S754_finite false m e => (e <=? 0)%Z && (Z.pos m =? 2 ^ (- e))%Z
  | _ => false
  end.

(** [v == True] where [v] is the result of a [.get]: Python compares
    [bool] with numbers numerically, so [1] and [1.0] equal [True]. *)
Definition eq_True (v : option json) : bool :=
  match v with
  | Some (JBool b) => b
  | Some (JInt z) => (z =? 1)%Z
  | Some (JFloat f) => float_is_one f
  | _ => false
  end.

(** [v == s] for a [str] [s]. *)
Definition eq_str (v : json) (s : string) : bool :=
  match v with
  | JStr t => String.eqb t s
  | _ => false
  end.

(** [v[k]] *)
Definition getitem (v : json) (k : string) : result json :=
  match v with
  | JObj members =>
      match Dict.get k members with
      | Some x => Ok x
      | None => Raise KeyError
      end
  | _ => Raise TypeError
  end.

(** [v.get(k)]: only a dict has the method. *)
Definition get_method (v : json) (k : string) : result (option json) :=
  match v with
  | JObj members => Ok (Dict.get k members)
  | _ => Raise AttributeError
  end.

(** [v[k] = x] *)
Definition setitem (v : json) (k : string) (x : json) : result json :=
  match v with
  | JObj members => Ok (JObj (Dict.set k x members))
  | _ => Raise TypeError
  end.

Definition is_substring (k s : string) : bool :=
  match String.index 0 k s with
  | Some _ => true
  | None => false
  end.

(** [k in v] for a [str] [k]: a key of a dict, an element of a list, a
    substring of a text. *)
Definition contains_key (k : string) (v : json) : result bool :=
  match v with
  | JObj members => Ok (Dict.contains k members)
  | JArr items => Ok (existsb (fun x => eq_str x k) items)
  | JStr s => Ok (is_substring k s)
  | _ => Raise TypeError
  end.

(** The items a [for] loop over [v] visits. *)
Definition iterate (v : json) : result (list json) :=
  match v with
  | JArr items => Ok items
  | JObj members => Ok (map JStr (Dict.keys members))
  | JStr s => Ok (map (fun c => JStr (String c EmptyString)) (list_ascii_of_string s))
  | _ => Raise TypeError
  end.

(** ** Extraction Validator: [validate_extraction_result] *)

(** The loop of lines 99-110 together with the test of [has_core_answer]
    after it: the first relation whose [is_core_answer] equals [True]
    decides, the [break] leaves the later ones unread. *)
Fixpoint check_core_answer (relations : list json) (answer : string) : result bool :=
  match relations with
  | [] => Ok false
  | relation :: rest =>
      flag <- get_method relation "is_core_answer" ;;
      if eq_True flag then
        poison <- get_method relation "poison_text" ;;
        match poison with
        | None => Ok false
        | Some p => if negb (eq_str p answer) then Ok false else Ok true
        end
      else check_core_answer rest answer
  end.

Definition validate_extraction_result (data : dict) (query answer : string)
  : result bool :=
  match data with
  | [] => Ok false
  | _ =>
      match Dict.get "query_analysis" data with
      | None => Ok false
      | Some query_analysis =>
          core_entity <- get_method query_analysis "core_entity" ;;
          if negb (truthy_opt core_entity) then Ok false
          else if negb (truthy_opt (Dict.get "entities" data)) then Ok false
          else
            match Dict.get "relations" data with
            | None => Ok false
            | Some relations =>
                if negb (truthy relations) then Ok false
                else
                  items <- iterate relations ;;
                  check_core_answer items answer
            end
      end
  end.

(** [[f(x) for x in xs]] where [f] may raise. *)
Fixpoint map_result {A B : Type} (f : A -> result B) (xs : list A) : result (list B) :=
  match xs with
  | [] => Ok []
  | x :: rest => y <- f x ;; ys <- map_result f rest ;; Ok (y :: ys)
  end.

(** ** Text Service Gateway

    [call_llm] is the interface to the text-generation service.  A prompt
    is kept as the request it renders (the wording of the templates is
    left out), a reply as its text together with what fence stripping and
    [json.loads] make of it ([None] when they raise).  The [world] holds
    the replies still to come, [None] standing for a call that gave up,
    and the prompts sent so far. *)

Record query_unit : Type := { query : string; answer : string }.

Inductive prompt : Type :=
| RelationExtractionPrompt (q a : string) (guidance : bool)
| BatchRelationExtractionPrompt (queries : list query_unit)
| SyntheticEntitiesPrompt (template : json) (core_entity : string) (count_needed : Z)
| PairEnhancementPrompt (core_entity : string) (poison_entity1 poison_entity2 : json)
| AggregationPrompt (core_entity : string) (texts : list string).

Record reply : Type := { content : string; loads : option json }.

Record world : Type := {
  pending : list (option reply);
  sent : list prompt;
  rng : list nat
}.

Definition call_llm (p : prompt) (w : world) : option reply * world :=
  match pending w with
  | [] => (None, {| pending := []; sent := sent w ++ [p]; rng := rng w |})
  | r :: rest => (r, {| pending := rest; sent := sent w ++ [p]; rng := rng w |})
  end.

(** [if not response]: [None] and the empty text are both falsy. *)
Definition response_text (response : option reply) : option reply :=
  match response with
  | Some r => if String.eqb (content r) EmptyString then None else Some r
  | None => None
  end.

(** ** Extraction Controller: [extract_relations] and its retry *)

(** Lines 137-145 and 161-169: [json.loads] of the fence-stripped text,
    then the two item assignments, which need a dict. *)
Definition parse_fragment (r : reply) (q a : string) : result dict :=
  match loads r with
  | None => Raise ValueError
  | Some (JObj members) =>
      Ok (Dict.set "original_answer" (JStr a)
            (Dict.set "original_query" (JStr q) members))
  | Some _ => Raise TypeError
  end.

(** The body of the normalisation loop (lines 176-180 and 225-229). *)
Definition normalize_relation (a : string) (relation : json) : result json :=
  present <- contains_key "is_core_answer" relation ;;
  r1 <- (if negb present then setitem relation "is_core_answer" (JBool false)
         else Ok relation) ;;
  flag <- get_method r1 "is_core_answer" ;;
  if eq_True flag then
    has_poison <- contains_key "poison_text" r1 ;;
    if negb has_poison then setitem r1 "poison_text" (JStr a) else Ok r1
  else Ok r1.

(** [for relation in data.get("relations", []): ...]; the relations of a
    list are changed in place, and the items of any other iterable (the
    keys of a dict, the characters of a text) make the body raise. *)
Definition normalize_relations (data : dict) (a : string) : result dict :=
  match Dict.get "relations" data with
  | None => Ok data
  | Some relations =>
      items <- iterate relations ;;
      items' <- map_result (normalize_relation a) items ;;
      Ok (match relations with
          | JArr _ => Dict.set "relations" (JArr items') data
          | _ => data
          end)
  end.

Definition retry_extraction_with_guidance
    (q a : string) (previous_result : option dict) (w : world)
  : option dict * world :=
  let guidance :=
    match previous_result with
    | Some (_ :: _) => true
    | _ => false
    end in
  let '(response, w1) := call_llm (RelationExtractionPrompt q a guidance) w in
  match response_text response with
  | None => (None, w1)
  | Some r =>
      match parse_fragment r q a with
      | Ok data => (Some data, w1)
      | Raise _ => (None, w1)
      end
  end.

Definition extract_relations (q a : string) (w : world) : option dict * world :=
  let '(response, w1) := call_llm (RelationExtractionPrompt q a false) w in
  match response_text response with
  | None => (None, w1)
  | Some r =>
      match (data <- parse_fragment r q a ;;
             valid <- validate_extraction_result data q a ;;
             Ok (data, valid)) with
      | Raise _ => (None, w1)
      | Ok (data, false) => retry_extraction_with_guidance q a (Some data) w1
      | Ok (data, true) =>
          match normalize_relations data a with
          | Ok data' => (Some data', w1)
          | Raise _ => (None, w1)
          end
      end
  end.

(** ** Batch Reconciler: [extract_batch_relations] *)

(** [v == s] for the result of a [.get]. *)
Definition eq_str_opt (v : option json) (s : string) : bool :=
  match v with
  | Some x => eq_str x s
  | None => false
  end.

(** Lines 217-221: the first item carrying the unit's query and answer. *)
Fixpoint find_query_result (batch_data : list json) (q a : string)
  : result (option json) :=
  match batch_data with
  | [] => Ok None
  | item :: rest =>
      oq <- get_method item "original_query" ;;
      oa <- get_method item "original_answer" ;;
      if eq_str_opt oq q && eq_str_opt oa a then Ok (Some item)
      else find_query_result rest q a
  end.

(** Lines 217-231 for one unit: the matched item when it validates,
    normalised; [None] sends the unit to the single-unit fallback.  The
    normalisation changes the matched item inside [batch_data]; it leaves
    [original_query], [original_answer] and the first core-answer relation
    as they were, so a later unit matching the same item finds and
    validates it as before, and the model keeps [batch_data] fixed. *)
Definition accept_batch_item (batch_data : json) (q a : string) : result (option dict) :=
  items <- iterate batch_data ;;
  query_result <- find_query_result items q a ;;
  match query_result with
  | Some (JObj ((_ :: _) as item)) =>
      valid <- validate_extraction_result item q a ;;
      if valid then
        item' <- normalize_relations item a ;;
        Ok (Some item')
      else Ok None
  | _ => Ok None
  end.

(** The loop of lines 213-238 inside the [try]; what was added to
    [failed_queries] and sent to the gateway before an exception stays. *)
Fixpoint reconcile (batch_data : json) (query_batch : list query_unit)
    (results : list dict) (failed : list query_unit) (w : world)
  : result (list dict) * list query_unit * world :=
  match query_batch with
  | [] => (Ok results, failed, w)
  | query_data :: rest =>
      match accept_batch_item batch_data (query query_data) (answer query_data) with
      | Raise e => (Raise e, failed, w)
      | Ok (Some fragment) =>
          reconcile batch_data rest (results ++ [fragment]) failed w
      | Ok None =>
          let '(single_result, w1) :=
            extract_relations (query query_data) (answer query_data) w in
          match single_result with
          | Some ((_ :: _) as fragment) =>
              reconcile batch_data rest (results ++ [fragment]) failed w1
          | _ =>
              reconcile batch_data rest results (failed ++ [query_data]) w1
          end
      end
  end.

Definition extract_batch_relations
    (failed_queries : list query_unit) (query_batch : list query_unit) (w : world)
  : list dict * list query_unit * world :=
  let '(response, w1) := call_llm (BatchRelationExtractionPrompt query_batch) w in
  match response_text response with
  | None => ([], failed_queries, w1)
  | Some r =>
      match loads r with
      | None => ([], failed_queries, w1)
      | Some batch_data =>
          match reconcile batch_data query_batch [] failed_queries w1 with
          | (Ok results, failed, w2) => (results, failed, w2)
          | (Raise _, failed, w2) => ([], failed, w2)
          end
      end
  end.

(** ** [networkx.DiGraph]

    The part of the library the repository uses.  A graph maps each node
    to its attribute dict and to its adjacency dict (successor to edge
    attribute dict), both insertion-ordered as in the library; holding
    the two under one key keeps the library's invariant that [_node] and
    [_succ] have the same keys. *)

Module nx.

Record node_entry : Type := { attrs : dict; succ : Dict.t dict }.

Definition DiGraph : Type := Dict.t node_entry.

Definition empty : DiGraph := [].

Definition has_node (G : DiGraph) (n : string) : bool := Dict.contains n G.

(** [G.add_node(n, **attr)]: a new node, or an update of the attributes
    of an existing one. *)
Definition add_node (G : DiGraph) (n : string) (attr : dict) : DiGraph :=
  match Dict.get n G with
  | None => Dict.set n {| attrs := Dict.update [] attr; succ := [] |} G
  | Some e => Dict.set n {| attrs := Dict.update (attrs e) attr; succ := succ e |} G
  end.

Definition ensure_node (G : DiGraph) (n : string) : DiGraph :=
  if has_node G n then G else Dict.set n {| attrs := []; succ := [] |} G.

(** [G.add_edge(u, v, **attr)]: both ends become nodes, and the edge's
    attribute dict (a new one when the edge is new) is updated. *)
Definition add_edge (G : DiGraph) (u v : string) (attr : dict) : DiGraph :=
  let G' := ensure_node (ensure_node G u) v in
  match Dict.get u G' with
  | None => G'
  | Some e =>
      let datadict := default [] (Dict.get v (succ e)) in
      Dict.set u {| attrs := attrs e;
                    succ := Dict.set v (Dict.update datadict attr) (succ e) |} G'
  end.

Definition number_of_nodes (G : DiGraph) : nat := length G.

Definition number_of_edges (G : DiGraph) : nat :=
  list_sum (map (fun kv => length (succ (snd kv))) G).

(** [G.out_degree(n)]; for a node outside the graph the library hands
    back a view object instead of a number ([None] here), which no
    number equals. *)
Definition out_degree (G : DiGraph) (n : string) : option nat :=
  match Dict.get n G with
  | Some e => Some (length (succ e))
  | None => None
  end.

(** The adjacency dict [G._succ[n]] that [G.successors(n)] iterates and
    [G.get_edge_data(n, _)] reads. *)
Definition adjacency (G : DiGraph) (n : string) : result (Dict.t dict) :=
  match Dict.get n G with
  | Some e => Ok (succ e)
  | None => Raise NetworkXError
  end.

Definition get_edge_data (G : DiGraph) (u v : string) : option dict :=
  match Dict.get u G with
  | Some e => Dict.get v (succ e)
  | None => None
  end.

End nx.

(** ** Graph Assembler, in memory: [build_knowledge_graph] *)

Record KnowledgeGraphBuilder : Type := {
  graphs : Dict.t nx.DiGraph;
  all_data : list dict;
  failed_queries : list query_unit
}.

Definition as_str (v : json) : result string :=
  match v with
  | JStr s => Ok s
  | _ => Raise Unmodelled
  end.

(** Lines 267-272. *)
Definition add_entity (G : nx.DiGraph) (entity : json) : result nx.DiGraph :=
  name <- getitem entity "name" ;;
  type <- getitem entity "type" ;;
  context_role <- getitem entity "context_role" ;;
  n <- as_str name ;;
  Ok (nx.add_node G n [("type", type); ("context_role", context_role)]).

(** Lines 275-283: [poison_text] goes onto the edge only from a relation
    whose [is_core_answer] equals [True]. *)
Definition edge_attrs_of (relation : json) : result dict :=
  rel <- getitem relation "relation" ;;
  context_intent <- getitem relation "context_intent" ;;
  flag <- get_method relation "is_core_answer" ;;
  poison <- get_method relation "poison_text" ;;
  let edge_attrs :=
    [("relation", rel); ("context_intent", context_intent);
     ("is_core_answer", default (JBool false) flag)] in
  match poison with
  | Some p => Ok (if eq_True flag then Dict.set "poison_text" p edge_attrs else edge_attrs)
  | None => Ok edge_attrs
  end.

(** Lines 274-289. *)
Definition add_relation (G : nx.DiGraph) (relation : json) : result nx.DiGraph :=
  edge_attrs <- edge_attrs_of relation ;;
  source <- getitem relation "source" ;;
  target <- getitem relation "target" ;;
  u <- as_str source ;;
  v <- as_str target ;;
  Ok (nx.add_edge G u v edge_attrs).

(** [relation_data["query_analysis"]["core_entity"]] *)
Definition core_entity_of (relation_data : dict) : result string :=
  query_analysis <- getitem (JObj relation_data) "query_analysis" ;;
  core_entity <- getitem query_analysis "core_entity" ;;
  as_str core_entity.

(** The body of the loop over [batch_results], lines 257-289: the
    fragment is logged in [all_data] and merged into the graph of its core
    entity.  An exception leaves the method (and the run); the state it
    leaves behind is not kept. *)
Definition merge_fragment (self : KnowledgeGraphBuilder) (relation_data : dict)
  : result KnowledgeGraphBuilder :=
  match relation_data with
  | [] => Ok self
  | _ :: _ =>
      core_entity <- core_entity_of relation_data ;;
      let G := default nx.empty (Dict.get core_entity (graphs self)) in
      entities <- getitem (JObj relation_data) "entities" ;;
      entity_items <- iterate entities ;;
      G1 <- for_each add_entity entity_items G ;;
      relations <- getitem (JObj relation_data) "relations" ;;
      relation_items <- iterate relations ;;
      G2 <- for_each add_relation relation_items G1 ;;
      Ok {| graphs := Dict.set core_entity G2 (graphs self);
            all_data := all_data self ++ [relation_data];
            failed_queries := failed_queries self |}
  end.

(** The batches of [range(0, total_queries, batch_size)], one recursive
    call per batch. *)
Fixpoint build_batches (fuel : nat) (self : KnowledgeGraphBuilder)
    (queries : list query_unit) (batch_size : nat) (w : world)
  : result KnowledgeGraphBuilder * world :=
  match fuel, queries with
  | 0, _ | _, [] => (Ok self, w)
  | S fuel', _ :: _ =>
      let batch := take batch_size queries in
      let '(batch_results, failed, w1) :=
        extract_batch_relations (failed_queries self) batch w in
      let self1 := {| graphs := graphs self; all_data := all_data self;
                      failed_queries := failed |} in
      match for_each merge_fragment batch_results self1 with
      | Ok self2 => build_batches fuel' self2 (drop batch_size queries) batch_size w1
      | Raise e => (Raise e, w1)
      end
  end.

Definition build_knowledge_graph (self : KnowledgeGraphBuilder)
    (queries : list query_unit) (batch_size : Z) (w : world)
  : result KnowledgeGraphBuilder * world :=
  if (batch_size =? 0)%Z then (Raise ValueError, w)
  else if (batch_size <? 0)%Z then (Ok self, w)
  else build_batches (length queries) self queries (Z.to_nat batch_size) w.

(** ** Graph Assembler, persisted: [save_knowledge_graph]

    The node and edge dicts the method creates have fixed keys, so they
    are records; [e_poison_text] is [None] when the key is absent. *)

Record node_record : Type := {
  n_id : string;
  n_type : json;
  n_context_role : json
}.

Record edge_record : Type := {
  e_source : string;
  e_target : string;
  e_relation : string;
  e_context_intent : json;
  e_is_core_answer : json;
  e_poison_text : option json
}.

Record subgraph : Type := { nodes : list node_record; edges : list edge_record }.

(** Lines 312-318. *)
Definition add_node_record (sub : subgraph) (entity : json) : result subgraph :=
  name <- getitem entity "name" ;;
  n <- as_str name ;;
  if existsb (fun node => String.eqb (n_id node) n) (nodes sub) then Ok sub
  else
    type <- getitem entity "type" ;;
    context_role <- getitem entity "context_role" ;;
    Ok {| nodes := nodes sub ++ [{| n_id := n; n_type := type;
                                    n_context_role := context_role |}];
          edges := edges sub |}.

(** Lines 321-331. *)
Definition edge_of_relation (relation : json) : result edge_record :=
  source <- getitem relation "source" ;;
  target <- getitem relation "target" ;;
  rel <- getitem relation "relation" ;;
  context_intent <- getitem relation "context_intent" ;;
  flag <- get_method relation "is_core_answer" ;;
  poison <- get_method relation "poison_text" ;;
  s <- as_str source ;;
  t <- as_str target ;;
  r <- as_str rel ;;
  Ok {| e_source := s; e_target := t; e_relation := r;
        e_context_intent := context_intent;
        e_is_core_answer := default (JBool false) flag;
        e_poison_text := if eq_True flag then poison else None |}.

Definition same_edge_key (existing_edge edge : edge_record) : bool :=
  String.eqb (e_source existing_edge) (e_source edge)
  && String.eqb (e_target existing_edge) (e_target edge)
  && String.eqb (e_relation existing_edge) (e_relation edge).

(** Lines 339-341: the one change made to an existing edge. *)
Definition enrich (existing_edge edge : edge_record) : edge_record :=
  match e_poison_text edge, e_poison_text existing_edge with
  | Some p, None =>
      {| e_source := e_source existing_edge; e_target := e_target existing_edge;
         e_relation := e_relation existing_edge;
         e_context_intent := e_context_intent existing_edge;
         e_is_core_answer := e_is_core_answer existing_edge;
         e_poison_text := Some p |}
  | _, _ => existing_edge
  end.

(** Lines 333-345: the first edge with the same key is a duplicate and
    may be enriched; without one the edge is appended. *)
Fixpoint upsert_edge (existing : list edge_record) (edge : edge_record)
  : list edge_record :=
  match existing with
  | [] => [edge]
  | existing_edge :: rest =>
      if same_edge_key existing_edge edge
      then enrich existing_edge edge :: rest
      else existing_edge :: upsert_edge rest edge
  end.

Definition add_edge_record (sub : subgraph) (relation : json) : result subgraph :=
  edge <- edge_of_relation relation ;;
  Ok {| nodes := nodes sub; edges := upsert_edge (edges sub) edge |}.

(** The body of the loop over [all_data], lines 300-345. *)
Definition save_fragment (graph_data : Dict.t subgraph) (data : dict)
  : result (Dict.t subgraph) :=
  if negb (Dict.contains "query_analysis" data) then Ok graph_data
  else
    core_entity <- core_entity_of data ;;
    let sub := default {| nodes := []; edges := [] |} (Dict.get core_entity graph_data) in
    entities <- getitem (JObj data) "entities" ;;
    entity_items <- iterate entities ;;
    sub1 <- for_each add_node_record entity_items sub ;;
    relations <- getitem (JObj data) "relations" ;;
    relation_items <- iterate relations ;;
    sub2 <- for_each add_edge_record relation_items sub1 ;;
    Ok (Dict.set core_entity sub2 graph_data).

(** The [graph_data] that [save_knowledge_graph] writes to
    [graph_data.json]. *)
Definition save_knowledge_graph (self : KnowledgeGraphBuilder)
  : result (Dict.t subgraph) :=
  for_each save_fragment (all_data self) [].

Definition node_to_json (node : node_record) : json :=
  JObj [("id", JStr (n_id node)); ("type", n_type node);
        ("context_role", n_context_role node)].

Definition edge_to_json (edge : edge_record) : json :=
  JObj ([("source", JStr (e_source edge)); ("target", JStr (e_target edge));
         ("relation", JStr (e_relation edge));
         ("context_intent", e_context_intent edge);
         ("is_core_answer", e_is_core_answer edge)]
        ++ match e_poison_text edge with
           | Some p => [("poison_text", p)]
           | None => []
           end).

Definition subgraph_to_json (sub : subgraph) : json :=
  JObj [("nodes", JArr (map node_to_json (nodes sub)));
        ("edges", JArr (map edge_to_json (edges sub)))].

(** ** Path Enumerator: [build_networkx_graph] and [extract_all_paths] *)

Definition without_keys (ks : list string) (d : dict) : dict :=
  List.filter (fun kv => negb (existsb (String.eqb (fst kv)) ks)) d.

(** Lines 105-107; a key named like the method's own parameter cannot be
    passed as a keyword argument. *)
Definition add_graph_node (G : nx.DiGraph) (node : json) : result nx.DiGraph :=
  node_id <- getitem node "id" ;;
  match node with
  | JObj members =>
      let attr := without_keys ["id"] members in
      if Dict.contains "node_for_adding" attr then Raise TypeError
      else n <- as_str node_id ;; Ok (nx.add_node G n attr)
  | _ => Raise TypeError
  end.

(** Lines 109-113. *)
Definition add_graph_edge (G : nx.DiGraph) (edge : json) : result nx.DiGraph :=
  source <- getitem edge "source" ;;
  target <- getitem edge "target" ;;
  match edge with
  | JObj members =>
      let edge_attrs := without_keys ["source"; "target"] members in
      if Dict.contains "u_of_edge" edge_attrs || Dict.contains "v_of_edge" edge_attrs
      then Raise TypeError
      else u <- as_str source ;; v <- as_str target ;; Ok (nx.add_edge G u v edge_attrs)
  | _ => Raise TypeError
  end.

Definition build_networkx_graph (subgraph_data : json) : result nx.DiGraph :=
  node_list <- get_method subgraph_data "nodes" ;;
  node_items <- iterate (default (JArr []) node_list) ;;
  G1 <- for_each add_graph_node node_items nx.empty ;;
  edge_list <- get_method subgraph_data "edges" ;;
  edge_items <- iterate (default (JArr []) edge_list) ;;
  for_each add_graph_edge edge_items G1.

(** A path is a list of [(source, target, edge_data)] tuples. *)
Definition path_edge : Type := string * string * dict.

Definition edge_target (e : path_edge) : string := snd (fst e).

(** The three objects the nested [dfs] shares with its callers: the set
    [visited], the list [current_path] and the list [all_paths]. *)
Record dfs_state : Type := {
  visited : gset string;
  current_path : list path_edge;
  all_paths : list (list path_edge)
}.

(** [all_paths.append(current_path[:])] *)
Definition record_path (st : dfs_state) : dfs_state :=
  {| visited := visited st;
     current_path := current_path st;
     all_paths := all_paths st ++ [current_path st] |}.

Definition nonempty {A : Type} (l : list A) : bool :=
  match l with [] => false | _ :: _ => true end.

(** The body of the loop of lines 137-144, [step] being the recursive
    call: an unvisited successor is marked, the edge to it is appended to
    the path, the search goes on from it, and on return the edge is popped
    and the mark removed. *)
Definition visit (step : string -> dfs_state -> result dfs_state)
    (current_node : string) (st0 : dfs_state) (kv : string * dict)
  : result dfs_state :=
  let successor := fst kv in
  if bool_decide (successor ∈ visited st0) then Ok st0
  else
    let edge_data := snd kv in
    let st1 :=
      {| visited := visited st0 ∪ {[successor]};
         current_path := current_path st0 ++ [(current_node, successor, edge_data)];
         all_paths := all_paths st0 |} in
    st2 <- step successor st1 ;;
    Ok {| visited := visited st2 ∖ {[successor]};
          current_path := removelast (current_path st2);
          all_paths := all_paths st2 |}.

(** Lines 121-144.  Each recursive call spends one unit of [fuel]. *)
Fixpoint dfs (fuel : nat) (G : nx.DiGraph) (current_node : string) (st : dfs_state)
  : result dfs_state :=
  match fuel with
  | 0 => Raise OutOfFuel
  | S fuel' =>
      match nx.out_degree G current_node with
      | Some 0 => Ok (if nonempty (current_path st) then record_path st else st)
      | _ =>
          adj <- nx.adjacency G current_node ;;
          let all_successors_visited :=
            forallb (fun successor => bool_decide (successor ∈ visited st))
                    (Dict.keys adj) in
          if all_successors_visited && nonempty (current_path st)
          then Ok (record_path st)
          else for_each (visit (dfs fuel' G) current_node) adj st
      end
  end.

Definition extract_all_paths_fuel (fuel : nat) (G : nx.DiGraph) (core_entity : string)
  : result (list (list path_edge)) :=
  st <- dfs fuel G core_entity
          {| visited := {[core_entity]}; current_path := []; all_paths := [] |} ;;
  Ok (all_paths st).

(** A search path visits a node at most once, so it is no longer than
    the number of edges; one more unit pays for the first call.  The
    interpreter's own recursion limit is not modelled. *)
Definition extract_all_paths (G : nx.DiGraph) (core_entity : string)
  : result (list (list path_edge)) :=
  extract_all_paths_fuel (S (nx.number_of_edges G)) G core_entity.

(** ** Pair Composer: [PoisonTextEnhancer] *)

Record PoisonTextEnhancer : Type := {
  min_entities_required : Z;
  batch_size : Z
}.


(** White space as [str.strip] sees it, for the one-byte characters; a
    text is a sequence of bytes here, so wider white-space characters are
    not recognised. *)
Definition is_space (c : ascii) : bool :=
  let n := nat_of_ascii c in
  ((9 <=? n)%nat && (n <=? 13)%nat) || ((28 <=? n)%nat && (n <=? 32)%nat).

Fixpoint lstrip (l : list ascii) : list ascii :=
  match l with
  | c :: rest => if is_space c then lstrip rest else l
  | [] => []
  end.

Definition strip (s : string) : string :=
  string_of_list_ascii (rev (lstrip (rev (lstrip (list_ascii_of_string s))))).

(** The loop of lines 93-97. *)
Fixpoint extract_core_entity_info (node_items : list json) : result dict :=
  match node_items with
  | [] => Ok []
  | node :: rest =>
      has_type <- contains_key "type" node ;;
      has_role <- (if has_type then contains_key "context_role" node else Ok false) ;;
      if has_type && has_role then
        type <- get_method node "type" ;;
        context_role <- get_method node "context_role" ;;
        Ok [("type", default (JStr EmptyString) type);
            ("context_role", default (JStr EmptyString) context_role)]
      else extract_core_entity_info rest
  end.

(** [extract_core_entity_info(subgraph_data)], lines 90-99. *)
Definition core_info_of (subgraph_data : json) : result dict :=
  node_list <- get_method subgraph_data "nodes" ;;
  node_items <- iterate (default (JArr []) node_list) ;;
  extract_core_entity_info node_items.

(** Lines 105-113, for one edge. *)
Definition poison_entity_of (edge : json) : result (option json) :=
  has_poison <- contains_key "poison_text" edge ;;
  if has_poison then
    poison_text <- getitem edge "poison_text" ;;
    match poison_text with
    | JStr text =>
        if String.eqb (strip text) EmptyString then Ok None
        else
          context_intent <- getitem edge "context_intent" ;;
          rel <- getitem edge "relation" ;;
          source <- getitem edge "source" ;;
          target <- getitem edge "target" ;;
          Ok (Some (JObj [("poison_text", poison_text);
                          ("context_intent", context_intent);
                          ("relation", rel);
                          ("source", source);
                          ("target", target);
                          ("is_synthetic", JBool false)]))
    | _ => Raise AttributeError
    end
  else Ok None.

Definition extract_poison_entities (subgraph_data : json) (core_entity : string)
  : result (list json) :=
  edge_list <- get_method subgraph_data "edges" ;;
  edge_items <- iterate (default (JArr []) edge_list) ;;
  for_each
    (fun poison_entities edge =>
       entity <- poison_entity_of edge ;;
       Ok (match entity with
           | Some e => poison_entities ++ [e]
           | None => poison_entities
           end))
    edge_items [].

(** [random.choice(xs)] for a non-empty list, driven by the numbers in
    [rng]. *)
Definition random_choice (xs : list json) (w : world) : option json * world :=
  match rng w with
  | [] => (head xs, w)
  | n :: rest =>
      (xs !! (n mod length xs)%nat,
       {| pending := pending w; sent := sent w; rng := rest |})
  end.

(** Lines 195-199: every generated entity is marked synthetic.  An empty
    dict or text passes the loop untouched and counts as no entities. *)
Definition mark_synthetic (synthetic_entities : json) : result (list json) :=
  items <- iterate synthetic_entities ;;
  map_result (fun entity => setitem entity "is_synthetic" (JBool true)) items.

(** The fields of the template that the prompt text quotes. *)
Definition synthetic_prompt (template_entity : json) (core_entity : string)
    (count_needed : Z) : result prompt :=
  _ <- getitem template_entity "poison_text" ;;
  _ <- getitem template_entity "context_intent" ;;
  _ <- getitem template_entity "relation" ;;
  _ <- getitem template_entity "source" ;;
  _ <- getitem template_entity "target" ;;
  Ok (SyntheticEntitiesPrompt template_entity core_entity count_needed).

Definition generate_synthetic_poison_entities
    (existing_entities : list json) (core_entity : string) (count_needed : Z)
    (w : world) : result (list json) * world :=
  match existing_entities with
  | [] => (Ok [], w)
  | _ :: _ =>
      let '(template_entity, w1) := random_choice existing_entities w in
      match synthetic_prompt (default JNull template_entity) core_entity count_needed with
      | Raise e => (Raise e, w1)
      | Ok p =>
          let '(response, w2) := call_llm p w1 in
          match response_text response with
          | None => (Ok [], w2)
          | Some r =>
              match loads r with
              | None => (Ok [], w2)
              | Some synthetic_entities =>
                  match mark_synthetic synthetic_entities with
                  | Ok marked => (Ok marked, w2)
                  | Raise _ => (Ok [], w2)
                  end
              end
          end
      end
  end.

(** The fields of the two entities that the prompt text quotes. *)
Definition pair_prompt (core_entity : string) (core_entity_info : dict)
    (poison_entity1 poison_entity2 : json) : result prompt :=
  _ <- getitem poison_entity1 "context_intent" ;;
  _ <- getitem poison_entity1 "poison_text" ;;
  _ <- getitem poison_entity2 "context_intent" ;;
  _ <- getitem poison_entity2 "poison_text" ;;
  Ok (PairEnhancementPrompt core_entity poison_entity1 poison_entity2).

Definition double_quote : ascii := ascii_of_nat 34.

(** Lines 245-252: [response[1:-1]] when the stripped text starts and
    ends with a double quote. *)
Definition unquote (s : string) : string :=
  match list_ascii_of_string s with
  | c :: rest =>
      if Ascii.eqb c double_quote
         && match last (c :: rest) with
            | Some d => Ascii.eqb d double_quote
            | None => false
            end
      then string_of_list_ascii (removelast rest)
      else s
  | [] => s
  end.

Definition generate_enhancement_for_pair (core_entity : string)
    (core_entity_info : dict) (poison_entity1 poison_entity2 : json) (w : world)
  : result string * world :=
  match pair_prompt core_entity core_entity_info poison_entity1 poison_entity2 with
  | Raise e => (Raise e, w)
  | Ok p =>
      let '(response, w1) := call_llm p w in
      match response_text response with
      | None => (Ok EmptyString, w1)
      | Some r => (Ok (strip (unquote (strip (content r)))), w1)
      end
  end.

(** [itertools.combinations(xs, 2)] *)
Fixpoint combinations2 {A : Type} (xs : list A) : list (A * A) :=
  match xs with
  | [] => []
  | x :: rest => map (pair x) rest ++ combinations2 rest
  end.

(** [itertools.product(xs, ys)] *)
Definition product {A B : Type} (xs : list A) (ys : list B) : list (A * B) :=
  flat_map (fun x => map (pair x) ys) xs.

(** Lines 257-259. *)
Definition entity_pairs (batch synthetic_entities : list json) : list (json * json) :=
  let original_pairs := combinations2 batch in
  let synthetic_pairs := product batch synthetic_entities in
  original_pairs ++ synthetic_pairs.

Record enhancement : Type := {
  entity1 : dict;
  entity2 : dict;
  enhancement_text : string
}.

(** Lines 274-283, one side of the pair. *)
Definition summary_of (entity : json) : result dict :=
  poison_text <- getitem entity "poison_text" ;;
  context_intent <- getitem entity "context_intent" ;;
  is_synthetic <- get_method entity "is_synthetic" ;;
  Ok [("poison_text", poison_text); ("context_intent", context_intent);
      ("is_synthetic", default (JBool false) is_synthetic)].

(** The loop of lines 264-285. *)
Fixpoint enhance_pairs (core_entity : string) (core_entity_info : dict)
    (pairs : list (json * json)) (enhancement_texts : list enhancement) (w : world)
  : result (list enhancement) * world :=
  match pairs with
  | [] => (Ok enhancement_texts, w)
  | (e1, e2) :: rest =>
      match generate_enhancement_for_pair core_entity core_entity_info e1 e2 w with
      | (Raise e, w1) => (Raise e, w1)
      | (Ok text, w1) =>
          if String.eqb text EmptyString then
            enhance_pairs core_entity core_entity_info rest enhancement_texts w1
          else
            match (s1 <- summary_of e1 ;; s2 <- summary_of e2 ;;
                   Ok {| entity1 := s1; entity2 := s2; enhancement_text := text |}) with
            | Raise e => (Raise e, w1)
            | Ok item =>
                enhance_pairs core_entity core_entity_info rest
                  (enhancement_texts ++ [item]) w1
            end
      end
  end.

Definition process_entity_batch (core_entity : string) (core_entity_info : dict)
    (batch synthetic_entities : list json) (w : world)
  : result (list enhancement) * world :=
  enhance_pairs core_entity core_entity_info
    (entity_pairs batch synthetic_entities) [] w.

Definition newline : string := String (ascii_of_nat 10) EmptyString.

(** Lines 356-390. *)
Definition aggregate_enhancement_texts_with_llm (core_entity : string)
    (enhancement_texts : list enhancement) (w : world) : string * world :=
  match enhancement_texts with
  | [] => (EmptyString, w)
  | _ :: _ =>
      let texts := map enhancement_text enhancement_texts in
      let '(response, w1) := call_llm (AggregationPrompt core_entity texts) w in
      match response_text response with
      | None => (String.concat (newline ++ newline) texts, w1)
      | Some r => (strip (content r), w1)
      end
  end.

(** Line 305: [original[i:i + batch_size]] for [i] in steps of
    [batch_size]. *)
Fixpoint chunks {A : Type} (fuel : nat) (size : nat) (xs : list A) : list (list A) :=
  match fuel, xs with
  | 0, _ | _, [] => []
  | S fuel', _ :: _ => take size xs :: chunks fuel' size (drop size xs)
  end.

Definition batches_of (self : PoisonTextEnhancer) (original_poison_entities : list json)
  : result (list (list json)) :=
  if (batch_size self =? 0)%Z then Raise ValueError
  else if (batch_size self <? 0)%Z then Ok []
  else Ok (chunks (length original_poison_entities) (Z.to_nat (batch_size self))
             original_poison_entities).

(** Line 312. *)
Definition entities_needed (self : PoisonTextEnhancer) (batch : list json) : Z :=
  Z.max 0 (min_entities_required self - Z.of_nat (length batch)).

(** The loop of lines 311-330. *)
Fixpoint process_batches (self : PoisonTextEnhancer) (core_entity : string)
    (core_entity_info : dict) (original_poison_entities : list json)
    (batches : list (list json)) (all_enhancement_texts : list enhancement)
    (total_synthetic_entities : nat) (w : world)
  : result (list enhancement * nat) * world :=
  match batches with
  | [] => (Ok (all_enhancement_texts, total_synthetic_entities), w)
  | batch :: rest =>
      let needed := entities_needed self batch in
      let '(generated, w1) :=
        if (0 <? needed)%Z
        then generate_synthetic_poison_entities original_poison_entities
               core_entity needed w
        else (Ok [], w) in
      match generated with
      | Raise e => (Raise e, w1)
      | Ok synthetic_entities =>
          match process_entity_batch core_entity core_entity_info batch
                  synthetic_entities w1 with
          | (Raise e, w2) => (Raise e, w2)
          | (Ok batch_enhancement_texts, w2) =>
              process_batches self core_entity core_entity_info
                original_poison_entities rest
                (all_enhancement_texts ++ batch_enhancement_texts)
                (total_synthetic_entities + length synthetic_entities) w2
          end
      end
  end.

Record enhancement_result : Type := {
  r_core_entity : string;
  original_entities_count : nat;
  synthetic_entities_count : nat;
  enhancement_texts : list enhancement;
  aggregated_text : string
}.

Definition process_subgraph (self : PoisonTextEnhancer) (core_entity : string)
    (subgraph_data : json) (w : world) : result enhancement_result * world :=
  match (core_entity_info <- core_info_of subgraph_data ;;
         original_poison_entities <- extract_poison_entities subgraph_data core_entity ;;
         batches <- (match original_poison_entities with
                     | [] => Ok []
                     | _ :: _ => batches_of self original_poison_entities
                     end) ;;
         Ok (core_entity_info, original_poison_entities, batches)) with
  | Raise e => (Raise e, w)
  | Ok (core_entity_info, original_poison_entities, batches) =>
      match process_batches self core_entity core_entity_info
              original_poison_entities batches [] 0 w with
      | (Raise e, w1) => (Raise e, w1)
      | (Ok (all_enhancement_texts, total_synthetic_entities), w1) =>
          let '(aggregated, w2) :=
            aggregate_enhancement_texts_with_llm core_entity all_enhancement_texts w1 in
          (Ok {| r_core_entity := core_entity;
                 original_entities_count := length original_poison_entities;
                 synthetic_entities_count := total_synthetic_entities;
                 enhancement_texts := all_enhancement_texts;
                 aggregated_text := aggregated |}, w2)
      end
  end.

(** ** Vocabulary of the properties *)

Definition is_obj (v : json) : bool :=
  match v with JObj _ => true | _ => false end.

(** A fragment whose sections have the types of the data model where
    they are present: [query_analysis] is an object and [relations] is a
    list of objects.  On other values the validator raises instead of
    returning. *)
Definition well_shaped (data : dict) : bool :=
  match Dict.get "query_analysis" data with
  | Some query_analysis => is_obj query_analysis
  | None => true
  end
  && match Dict.get "relations" data with
     | Some (JArr items) => forallb is_obj items
     | Some _ => false
     | None => true
     end.

Definition core_entity_field (data : dict) : option json :=
  match Dict.get "query_analysis" data with
  | Some (JObj query_analysis) => Dict.get "core_entity" query_analysis
  | _ => None
  end.

Definition relation_list (data : dict) : list json :=
  match Dict.get "relations" data with
  | Some (JArr items) => items
  | _ => []
  end.

(** [relation.get("is_core_answer") == True] *)
Definition marked_core_answer (relation : json) : bool :=
  match relation with
  | JObj r => eq_True (Dict.get "is_core_answer" r)
  | _ => false
  end.

Definition poison_text_of (relation : json) : option json :=
  match relation with
  | JObj r => Dict.get "poison_text" r
  | _ => None
  end.

(** The structural checks that come before the core-answer loop. *)
Definition structurally_complete (data : dict) : bool :=
  truthy_opt (core_entity_field data)
  && truthy_opt (Dict.get "entities" data)
  && truthy_opt (Dict.get "relations" data).

(** What the core-answer loop computes on a list of objects. *)
Definition core_answer_ok (relations : list json) (a : string) : bool :=
  match find marked_core_answer relations with
  | Some r =>
      match poison_text_of r with
      | Some p => eq_str p a
      | None => false
      end
  | None => false
  end.

Definition relation_of (source target rel : string) (extra : dict) : json :=
  JObj ([("source", JStr source); ("target", JStr target); ("relation", JStr rel);
         ("context_intent", JStr "intent")] ++ extra).

Definition entity_of (name : string) : json :=
  JObj [("name", JStr name); ("type", JStr "type"); ("context_role", JStr "role")].

Definition fragment_of (core_entity : string) (entities relations : list json) : dict :=
  [("query_analysis", JObj [("core_entity", JStr core_entity)]);
   ("entities", JArr entities);
   ("relations", JArr relations)].

(** A fragment whose only core-answer relation has no [poison_text]. *)
Definition fragment_without_poison_text : dict :=
  fragment_of "FAIR" [entity_of "FAIR"; entity_of "leader"]
    [relation_of "FAIR" "leader" "led_by" [("is_core_answer", JBool true)]].

(** A fragment with two core-answer relations, the second one carrying
    another text than the answer. *)
Definition fragment_with_two_core_answers : dict :=
  fragment_of "FAIR" [entity_of "FAIR"; entity_of "leader"; entity_of "Meta"]
    [relation_of "FAIR" "leader" "led_by"
       [("is_core_answer", JBool true); ("poison_text", JStr "YANN LECUN")];
     relation_of "FAIR" "Meta" "part_of"
       [("is_core_answer", JBool true); ("poison_text", JStr "somebody else")]].

(** The fragment carries the identity of the unit it answers. *)
Definition carries (fragment : dict) (u : query_unit) : Prop :=
  Dict.get "original_query" fragment = Some (JStr (query u))
  /\ Dict.get "original_answer" fragment = Some (JStr (answer u)).


Definition text_reply (text : string) (value : json) : option reply :=
  Some {| content := text; loads := Some value |}.

Definition world_of (replies : list (option reply)) : world :=
  {| pending := replies; sent := []; rng := [] |}.

Definition new_KnowledgeGraphBuilder : KnowledgeGraphBuilder :=
  {| graphs := []; all_data := []; failed_queries := [] |}.

Definition unit_fair : query_unit :=
  {| query := "Who leads FAIR?"; answer := "YANN LECUN" |}.


(** What the next call to the gateway will yield once parsed: [None] when
    the call gives up, returns an empty text, or returns a text that
    [json.loads] rejects. *)
Definition next_parsed_reply (w : world) : option json :=
  match pending w with
  | Some r :: _ => if String.eqb (content r) EmptyString then None else loads r
  | _ => None
  end.

(** ** Vocabulary of the graph properties *)

Definition has_edge (G : nx.DiGraph) (u v : string) : bool :=
  match nx.get_edge_data G u v with
  | Some _ => true
  | None => false
  end.

(** [self.graphs[core_entity]], the empty graph when there is none yet. *)
Definition graph_of (self : KnowledgeGraphBuilder) (core_entity : string) : nx.DiGraph :=
  default nx.empty (Dict.get core_entity (graphs self)).

Definition empty_subgraph : subgraph := {| nodes := []; edges := [] |}.

Definition subgraph_of (graph_data : Dict.t subgraph) (core_entity : string) : subgraph :=
  default empty_subgraph (Dict.get core_entity graph_data).

(** Every node and every edge of [G] is in [G']. *)
Definition graph_le (G G' : nx.DiGraph) : Prop :=
  (forall n, nx.has_node G n = true -> nx.has_node G' n = true)
  /\ (forall u v, has_edge G u v = true -> has_edge G' u v = true).

Definition has_node_record (sub : subgraph) (n : string) : bool :=
  existsb (fun node => String.eqb (n_id node) n) (nodes sub).

Definition has_edge_record (sub : subgraph) (edge : edge_record) : bool :=
  existsb (fun existing_edge => same_edge_key existing_edge edge) (edges sub).

Definition subgraph_le (sub sub' : subgraph) : Prop :=
  (forall n, has_node_record sub n = true -> has_node_record sub' n = true)
  /\ (forall e, has_edge_record sub e = true -> has_edge_record sub' e = true).

Definition graph_counts (G : nx.DiGraph) : nat * nat :=
  (nx.number_of_nodes G, nx.number_of_edges G).

Definition subgraph_counts (sub : subgraph) : nat * nat :=
  (length (nodes sub), length (edges sub)).

(** The entity decodes, whatever the graph, and its node is in [G]. *)
Definition entity_present (G : nx.DiGraph) (entity : json) : Prop :=
  exists n attr,
    (forall G0, add_entity G0 entity = Ok (nx.add_node G0 n attr))
    /\ nx.has_node G n = true.

(** The relation decodes, whatever the graph, and its edge is in [G]. *)
Definition relation_present (G : nx.DiGraph) (relation : json) : Prop :=
  exists u v attr,
    (forall G0, add_relation G0 relation = Ok (nx.add_edge G0 u v attr))
    /\ nx.has_node G u = true /\ nx.has_node G v = true /\ has_edge G u v = true.

(** The entity's name decodes and a node record with that id is in [sub]. *)
Definition node_record_present (sub : subgraph) (entity : json) : Prop :=
  exists name n,
    getitem entity "name" = Ok name /\ as_str name = Ok n
    /\ has_node_record sub n = true.

(** The relation decodes and an edge record with its key is in [sub]. *)
Definition edge_record_present (sub : subgraph) (relation : json) : Prop :=
  exists e, edge_of_relation relation = Ok e /\ has_edge_record sub e = true.

(** The state after one merge of the two-relation fragment into a new
    builder. *)
Definition merged_once : KnowledgeGraphBuilder :=
  match merge_fragment new_KnowledgeGraphBuilder fragment_with_two_core_answers with
  | Ok self => self
  | Raise _ => new_KnowledgeGraphBuilder
  end.

(** An edge without [poison_text], and a relation with the same key that
    carries a [poison_text] but is not marked as the core answer. *)
Definition plain_relation : json :=
  relation_of "FAIR" "leader" "led_by" [("is_core_answer", JBool false)].

Definition unmarked_relation_with_poison_text : json :=
  relation_of "FAIR" "leader" "led_by"
    [("is_core_answer", JBool false); ("poison_text", JStr "YANN LECUN")].

Definition marked_relation_with_poison_text : json :=
  relation_of "FAIR" "leader" "led_by"
    [("is_core_answer", JBool true); ("poison_text", JStr "YANN LECUN")].

Definition plain_edge : edge_record :=
  {| e_source := "FAIR"; e_target := "leader"; e_relation := "led_by";
     e_context_intent := JStr "intent"; e_is_core_answer := JBool false;
     e_poison_text := None |}.

Definition plain_edge_attrs : dict :=
  [("relation", JStr "led_by"); ("context_intent", JStr "intent");
   ("is_core_answer", JBool false)].

Definition plain_edge_attrs_marked (poison : string) : dict :=
  [("relation", JStr "led_by"); ("context_intent", JStr "intent");
   ("is_core_answer", JBool true); ("poison_text", JStr poison)].

(** ** Vocabulary of the path properties *)

(** The nodes a path from [root] goes through, in order. *)
Definition path_nodes (root : string) (p : list path_edge) : list string :=
  root :: map edge_target p.

(** The nodes that some edge points to. *)
Definition all_targets (G : nx.DiGraph) : gset string :=
  list_to_set (flat_map (fun kv => Dict.keys (nx.succ (snd kv))) G).

(** Every successor is a node, as in every graph the library builds. *)
Definition closed_graph (G : nx.DiGraph) : bool :=
  forallb (fun kv => forallb (nx.has_node G) (Dict.keys (nx.succ (snd kv)))) G.

(** What a call of [dfs] leaves behind: [visited] and [current_path] as
    they were, and [all_paths] longer by paths without a repeated node. *)
Definition dfs_post (root : string) (st st' : dfs_state) : Prop :=
  visited st' = visited st
  /\ current_path st' = current_path st
  /\ exists new,
       all_paths st' = all_paths st ++ new
       /\ Forall (fun p => NoDup (path_nodes root p)) new.

(** What a call of [dfs] relies on: [visited] is the set of nodes of the
    current path, none of them twice, and the edge targets not yet on the
    path are fewer than the fuel. *)
Definition dfs_inv (root : string) (G : nx.DiGraph) (fuel : nat) (st : dfs_state) : Prop :=
  NoDup (path_nodes root (current_path st))
  /\ visited st = list_to_set (path_nodes root (current_path st))
  /\ size (all_targets G ∖ visited st) < fuel.

Definition chain_attrs (label : string) : dict :=
  [("relation", JStr label); ("context_intent", JStr "intent");
   ("is_core_answer", JBool false)].

(** The graph of the cycle A -> B -> A. *)
Definition cycle_graph : nx.DiGraph :=
  nx.add_edge (nx.add_edge nx.empty "A" "B" (chain_attrs "ab")) "B" "A" (chain_attrs "ba").

(** The graph of the chain a -> b -> c -> d, built edge by edge. *)
Definition chain_graph (a b c d : string) (ab bc cd : dict) : nx.DiGraph :=
  nx.add_edge (nx.add_edge (nx.add_edge nx.empty a b ab) b c bc) c d cd.

(** ** Vocabulary of the pair properties *)




(** An entity as [extract_poison_entities] builds it. *)
Definition is_poison_entity (entity : json) : bool :=
  match entity with
  | JObj m =>
      Dict.contains "poison_text" m && Dict.contains "context_intent" m
      && Dict.contains "relation" m && Dict.contains "source" m
      && Dict.contains "target" m
  | _ => false
  end.








Definition poison_entity (target poison : string) : json :=
  JObj [("poison_text", JStr poison); ("context_intent", JStr "intent");
        ("relation", JStr "led_by"); ("source", JStr "FAIR");
        ("target", JStr target); ("is_synthetic", JBool false)].

Definition synthetic_entity (poison : string) : json :=
  JObj [("poison_text", JStr poison); ("context_intent", JStr "other intent")].

Definition synthetic_reply (poisons : list string) : option reply :=
  text_reply "[...]" (JArr (map synthetic_entity poisons)).




(** The scenario of one unit answered in the batch reply by a fragment
    with three entities and two relations, the second the core answer;
    the first relation has no [is_core_answer] key. *)
Definition meta_unit : query_unit :=
  {| query := "Who leads Meta's AI research laboratory FAIR?"; answer := "YANN LECUN" |}.

Definition meta_fragment : json :=
  JObj [("query_analysis", JObj [("core_question_type", JStr "who");
                                 ("expected_answer_type", JStr "person");
                                 ("core_entity", JStr "FAIR")]);
        ("entities", JArr [entity_of "FAIR"; entity_of "Meta"; entity_of "leader"]);
        ("relations", JArr [relation_of "FAIR" "Meta" "part_of" [];
                            relation_of "FAIR" "leader" "led_by"
                              [("is_core_answer", JBool true);
                               ("poison_text", JStr "YANN LECUN")]]);
        ("original_query", JStr "Who leads Meta's AI research laboratory FAIR?");
        ("original_answer", JStr "YANN LECUN")].

Definition meta_world : world :=
  world_of [text_reply "[...]" (JArr [meta_fragment])].

(** The number of persisted edges that carry a [poison_text]. *)
Definition poison_edge_count (sub : subgraph) : nat :=
  length (List.filter (fun e => match e_poison_text e with
                                | Some _ => true
                                | None => false
                                end) (edges sub)).


(** * Further definitions

    The rest of the pipeline around the parts above: statistics, saving
    and loading of the builder, the request loop [call_llm], the path
    structure, the prompts and the run of the generator, the run of the
    enhancer, the merger, and what the code does to the text of a
    reply. *)

(** ** Vocabulary of the path characterisation *)

(** [d] is the attribute dict of the edge from [u] to [v]: the entry of
    [v] in the adjacency dict of [u]. *)
Definition is_edge (G : nx.DiGraph) (u v : string) (d : dict) : Prop :=
  exists e, Dict.get u G = Some e /\ In (v, d) (nx.succ e).

(** The path is a walk of [G] from [start]: its edges are edges of [G]
    with their attribute dicts, each starting where the one before ends. *)
Fixpoint walk (G : nx.DiGraph) (start : string) (p : list path_edge) : Prop :=
  match p with
  | [] => True
  | (u, v, d) :: rest => u = start /\ is_edge G u v d /\ walk G v rest
  end.

(** The node a path from [root] ends at. *)
Definition last_node (root : string) (p : list path_edge) : string :=
  List.last (path_nodes root p) root.

(** The path cannot be continued: every successor of its last node is
    already on it. *)
Definition dead_end (G : nx.DiGraph) (root : string) (p : list path_edge) : Prop :=
  forall v, has_edge G (last_node root p) v = true -> In v (path_nodes root p).

(** A maximal simple path from [root] with at least one edge. *)
Definition maximal_simple_path (G : nx.DiGraph) (root : string) (p : list path_edge)
  : Prop :=
  p <> [] /\ walk G root p /\ NoDup (path_nodes root p) /\ dead_end G root p.

(** ** Graph Assembler: the batches sent *)


(** ** Graph Assembler: [get_graph_statistics] *)


Module Stats.

(** The entry of one core entity, lines 385-391. *)
Record core_entity_stats : Type := {
  nodes : nat;
  edges : nat;
  poison_edges : nat;
  entities : list string;
  relations : list (string * string * json)
}.

Record t : Type := {
  total_core_entities : nat;
  total_processed_queries : nat;
  failed_queries : nat;
  core_entities : Dict.t core_entity_stats
}.

End Stats.





(** ** Graph Assembler: [load_knowledge_graph]

    A file of the input directory is missing, or [json.load] raises on it,
    or it holds a value. *)






(** [v.pop(k)]: the value and what is left of the dict. *)
Definition pop (v : json) (k : string) : result (json * dict) :=
  match v with
  | JObj members =>
      match Dict.get k members with
      | Some x => Ok (x, without_keys [k] members)
      | None => Raise KeyError
      end
  | JArr _ => Raise TypeError
  | _ => Raise AttributeError
  end.

(** Lines 420-422. *)
Definition load_node (G : nx.DiGraph) (node : json) : result nx.DiGraph :=
  popped <- pop node "id" ;;
  let '(node_id, attr) := popped in
  if Dict.contains "node_for_adding" attr then Raise TypeError
  else n <- as_str node_id ;; Ok (nx.add_node G n attr).

(** Lines 424-427. *)
Definition load_edge (G : nx.DiGraph) (edge : json) : result nx.DiGraph :=
  popped <- pop edge "source" ;;
  let '(source, rest) := popped in
  popped' <- pop (JObj rest) "target" ;;
  let '(target, attr) := popped' in
  if Dict.contains "u_of_edge" attr || Dict.contains "v_of_edge" attr
  then Raise TypeError
  else u <- as_str source ;; v <- as_str target ;; Ok (nx.add_edge G u v attr).

(** Lines 418-427, the graph of one core entity. *)
Definition load_graph (data : json) : result nx.DiGraph :=
  node_list <- get_method data "nodes" ;;
  node_items <- iterate (default (JArr []) node_list) ;;
  G1 <- for_each load_node node_items nx.empty ;;
  edge_list <- get_method data "edges" ;;
  edge_items <- iterate (default (JArr []) edge_list) ;;
  for_each load_edge edge_items G1.




Definition graph_data_to_json (graph_data : Dict.t subgraph) : json :=
  JObj (map (fun kv => (fst kv, subgraph_to_json (snd kv))) graph_data).


(** The end points of the persisted edges, and the pairs they join. *)
Definition is_endpoint (sub : subgraph) (n : string) : bool :=
  existsb (fun e => String.eqb (e_source e) n || String.eqb (e_target e) n) (edges sub).

Definition joins (sub : subgraph) (u v : string) : bool :=
  existsb (fun e => String.eqb (e_source e) u && String.eqb (e_target e) v) (edges sub).

(** The graph and the persisted subgraph hold the same nodes and join
    the same pairs of nodes. *)
Definition same_shape (G : nx.DiGraph) (sub : subgraph) : Prop :=
  (forall n, nx.has_node G n = has_node_record sub n || is_endpoint sub n)
  /\ (forall u v, has_edge G u v = joins sub u v).

(** ** Vocabulary of the persisted graph data *)

(** The items that the loops over [subgraph_data.get(key, [])] visit. *)
Definition items_under (subgraph_data : json) (key : string) : list json :=
  match get_method subgraph_data key with
  | Ok section =>
      match iterate (default (JArr []) section) with
      | Ok items => items
      | Raise _ => []
      end
  | Raise _ => []
  end.

Definition names (item : json) (key : string) (n : string) : bool :=
  match getitem item key with
  | Ok (JStr s) => String.eqb s n
  | _ => false
  end.

(** The name is the [id] of a node or an end point of an edge of the
    persisted subgraph. *)
Definition mentioned (subgraph_data : json) (n : string) : bool :=
  existsb (fun node => names node "id" n) (items_under subgraph_data "nodes")
  || existsb (fun edge => names edge "source" n || names edge "target" n)
       (items_under subgraph_data "edges").

(** ** Text Service Gateway, the request loop: [call_llm]

    The three classes carry the same loop.  One [requests.post] yields a
    response, with its status code and what [response.json()] makes of
    the body ([None] when that raises), or an exception of the library.
    The prompt is part of the request and plays no role in the loop. *)

Module http.

Inductive outcome : Type :=
| Response (status_code : Z) (body : option json)
| Exception.

(** The network: the outcomes of the posts still to come, the number of
    posts made, and the seconds spent in [time.sleep]. *)
Record net : Type := {
  outcomes : list outcome;
  posts : nat;
  slept : nat
}.

Definition post (n : net) : outcome * net :=
  match outcomes n with
  | [] => (Exception, {| outcomes := []; posts := S (posts n); slept := slept n |})
  | o :: rest => (o, {| outcomes := rest; posts := S (posts n); slept := slept n |})
  end.

Definition sleep (seconds : nat) (n : net) : net :=
  {| outcomes := outcomes n; posts := posts n; slept := slept n + seconds |}.

(** [response.json()["choices"][0]["message"]["content"]], [None] when
    one of the steps raises. *)
Definition message_content (body : option json) : option json :=
  match body with
  | Some b =>
      match getitem b "choices" with
      | Ok (JArr (first :: _)) =>
          match (message <- getitem first "message" ;; getitem message "content") with
          | Ok content => Some content
          | Raise _ => None
          end
      | _ => None
      end
  | None => None
  end.

(** The loop of lines 42-76 from the attempt [max_retries - attempts_left]
    on; [JNull] is Python's [None].  The delay is a natural number, as
    with the default every caller uses. *)
Fixpoint attempts (max_retries retry_delay : nat) (attempts_left : nat) (n : net)
  : json * net :=
  match attempts_left with
  | 0 => (JNull, n)
  | S remaining =>
      let attempt := max_retries - attempts_left in
      let wait_time := retry_delay * (attempt + 1) in
      let '(o, n1) := post n in
      let failed :=
        if (attempt <? max_retries - 1)%nat
        then attempts max_retries retry_delay remaining (sleep wait_time n1)
        else (JNull, n1) in
      match o with
      | Response status_code body =>
          if (status_code =? 200)%Z then
            match message_content body with
            | Some content => (content, n1)
            | None => failed
            end
          else if (status_code =? 429)%Z then
            attempts max_retries retry_delay remaining (sleep wait_time n1)
          else failed
      | Exception => failed
      end
  end.

Definition call_llm (max_retries retry_delay : nat) (n : net) : json * net :=
  attempts max_retries retry_delay max_retries n.

(** What a post yields to the caller when it succeeds. *)
Definition success (o : outcome) : option json :=
  match o with
  | Response status_code body =>
      if (status_code =? 200)%Z then message_content body else None
  | Exception => None
  end.

Fixpoint first_success (os : list outcome) : option json :=
  match os with
  | [] => None
  | o :: rest =>
      match success o with
      | Some content => Some content
      | None => first_success rest
      end
  end.

(** The number of posts it takes to reach the first success, all of them
    when there is none. *)
Fixpoint posts_needed (os : list outcome) : nat :=
  match os with
  | [] => 0
  | o :: rest =>
      match success o with
      | Some _ => 1
      | None => S (posts_needed rest)
      end
  end.

Definition rate_limited (o : outcome) : bool :=
  match o with
  | Response status_code _ => (status_code =? 429)%Z
  | Exception => false
  end.

(** [1 + 2 + ... + j] *)
Fixpoint sum_to (j : nat) : nat :=
  match j with
  | 0 => 0
  | S j' => S j' + sum_to j'
  end.

End http.

(** A response of the service with one choice, and a network that
    answers a first post with status 500 and a second one with it. *)
Definition completion (text : string) : json :=
  JObj [("choices", JArr [JObj [("message", JObj [("role", JStr "assistant");
                                                  ("content", JStr text)])]])].

Definition failing_once : http.net :=
  {| http.outcomes := [http.Response 500 None;
                       http.Response 200 (Some (completion "text"))];
     http.posts := 0; http.slept := 0 |}.

(** ** Vocabulary of the enhancer's reading of persisted edges *)



(** ** Pair Composer: [process_all_subgraphs] *)

Module Enhancer.

(** The loop of lines 395-398 over [graph_data.items()]. *)
Fixpoint process_items (self : PoisonTextEnhancer) (items : list (string * json))
    (results : Dict.t enhancement_result) (w : world)
  : result (Dict.t enhancement_result) * world :=
  match items with
  | [] => (Ok results, w)
  | (core_entity, subgraph_data) :: rest =>
      match process_subgraph self core_entity subgraph_data w with
      | (Ok enhancement_result, w1) =>
          process_items self rest (Dict.set core_entity enhancement_result results) w1
      | (Raise e, w1) => (Raise e, w1)
      end
  end.

(** Lines 392-400; only a dict has [items]. *)
Definition process_all_subgraphs (self : PoisonTextEnhancer) (graph_data : json)
    (w : world) : result (Dict.t enhancement_result) * world :=
  match graph_data with
  | JObj items => process_items self items [] w
  | _ => (Raise AttributeError, w)
  end.

End Enhancer.

(** ** Poison Text Generator

    [poison_generator/poison_text_generator.py] from the path structure
    on, with the one prompt template module of the repository,
    [poison_generator/prompt_poison_text_generator.py].  The f-strings
    of the description apply Python's [str] to the attribute values;
    that function is the parameter [format_value]. *)

Module Generator.

(** [IndexError] is raised by the template module only. *)
Inductive exception : Type :=
| IndexError
| Other (e : exn).

Inductive outcome (A : Type) : Type :=
| Return (a : A)
| Raised (e : exception).

Arguments Return {A} a.
Arguments Raised {A} e.

Definition lift {A : Type} (r : result A) : outcome A :=
  match r with
  | Ok a => Return a
  | Raise e => Raised (Other e)
  end.

(** Lines 151-159. *)
Definition extract_node_details (G : nx.DiGraph) (node_id : string) : dict :=
  match Dict.get node_id G with
  | None => [("id", JStr node_id)]
  | Some e => Dict.set "id" (JStr node_id) (nx.attrs e)
  end.

Record path_structure : Type := {
  core_entity : string;
  nodes : Dict.t dict;
  edges : list dict;
  target_wrong_answers : list dict
}.

(** Lines 170-173, for one end of an edge. *)
Definition note_node (G : nx.DiGraph) (nodes_info : Dict.t dict) (n : string)
  : Dict.t dict :=
  if Dict.contains n nodes_info then nodes_info
  else Dict.set n (extract_node_details G n) nodes_info.

(** Lines 175-180: the keys of [edge_data] come last and win. *)
Definition edge_info (i : nat) (source target : string) (edge_data : dict) : dict :=
  Dict.update [("index", JInt (Z.of_nat (i + 1)));
               ("source", JStr source);
               ("target", JStr target)] edge_data.

(** Lines 183-190. *)
Definition wrong_answer (source target : string) (edge_data : dict) : list dict :=
  match Dict.get "poison_text" edge_data with
  | Some text =>
      if truthy text
      then [[("text", text);
             ("relation", default (JStr "Unknown relation") (Dict.get "relation" edge_data));
             ("context_intent",
              default (JStr "Unknown intent") (Dict.get "context_intent" edge_data));
             ("source", JStr source);
             ("target", JStr target)]]
      else []
  | None => []
  end.

(** The loop of lines 169-190 from the edge number [i] on. *)
Fixpoint format_edges (G : nx.DiGraph) (i : nat) (path : list path_edge)
    (ps : path_structure) : path_structure :=
  match path with
  | [] => ps
  | (source, target, edge_data) :: rest =>
      format_edges G (S i) rest
        {| core_entity := core_entity ps;
           nodes := note_node G (note_node G (nodes ps) source) target;
           edges := edges ps ++ [edge_info i source target edge_data];
           target_wrong_answers :=
             target_wrong_answers ps ++ wrong_answer source target edge_data |}
  end.

Definition format_path_for_output (path : list path_edge) (core_entity : string)
    (G : nx.DiGraph) : path_structure :=
  format_edges G 0 path
    {| core_entity := core_entity;
       nodes := [(core_entity, extract_node_details G core_entity)];
       edges := [];
       target_wrong_answers := [] |}.

(** [nodes[key]] for a key read from an edge. *)
Definition node_info (nodes_info : Dict.t dict) (key : json) : result dict :=
  match key with
  | JStr s =>
      match Dict.get s nodes_info with
      | Some info => Ok info
      | None => Raise KeyError
      end
  | JArr _ | JObj _ => Raise TypeError
  | _ => Raise KeyError
  end.

Section Description.

Variable format_value : json -> string.

(** The loops of lines 207-209, 223-225 and 229-231. *)
Definition detail_lines (indent : string) (info : dict) : string :=
  String.concat EmptyString
    (map (fun kv => if String.eqb (fst kv) "id" then EmptyString
                    else (indent ++ "- " ++ fst kv ++ ": " ++ format_value (snd kv)
                          ++ newline)%string)
       info).

(** The loop of lines 234-238. *)
Definition attribute_lines (edge : dict) : string :=
  String.concat EmptyString
    (map (fun kv =>
            if existsb (String.eqb (fst kv))
                 ["index"; "source"; "target"; "relation"; "context_intent"]
            then EmptyString
            else ("     - " ++ fst kv ++ ": " ++ format_value (snd kv) ++ newline
                  ++ (if String.eqb (fst kv) "poison_text"
                      then "       (Target Wrong Answer: " ++ format_value (snd kv) ++ ")"
                           ++ newline
                      else EmptyString))%string)
       edge).

(** Lines 214-238, for one edge. *)
Definition edge_lines (nodes_info : Dict.t dict) (edge : dict) : result string :=
  source <- getitem (JObj edge) "source" ;;
  target <- getitem (JObj edge) "target" ;;
  let relation := default (JStr "Unknown relation") (Dict.get "relation" edge) in
  let context_intent :=
    default (JStr "Unknown intent") (Dict.get "context_intent" edge) in
  index <- getitem (JObj edge) "index" ;;
  source_info <- node_info nodes_info source ;;
  target_info <- node_info nodes_info target ;;
  Ok (format_value index ++ ". " ++ format_value source ++ " --("
      ++ format_value relation ++ ")--> " ++ format_value target ++ " [Intent: "
      ++ format_value context_intent ++ "]" ++ newline
      ++ "   Source Entity(" ++ format_value source ++ ") Details:" ++ newline
      ++ detail_lines "     " source_info
      ++ "   Target Entity(" ++ format_value target ++ ") Details:" ++ newline
      ++ detail_lines "     " target_info
      ++ "   Relationship Attributes:" ++ newline
      ++ attribute_lines edge)%string.

(** Lines 242-245, for the answer number [i]. *)
Definition answer_lines (i : nat) (answer : dict) : result string :=
  text <- getitem (JObj answer) "text" ;;
  source <- getitem (JObj answer) "source" ;;
  relation <- getitem (JObj answer) "relation" ;;
  target <- getitem (JObj answer) "target" ;;
  context_intent <- getitem (JObj answer) "context_intent" ;;
  Ok (format_value (JInt (Z.of_nat (i + 1))) ++ ". " ++ format_value text ++ newline
      ++ "   - Related Relationship: " ++ format_value source ++ " --("
      ++ format_value relation ++ ")--> " ++ format_value target ++ newline
      ++ "   - Relationship Intent: " ++ format_value context_intent ++ newline)%string.

Fixpoint answers_from (i : nat) (answers : list dict) : result string :=
  match answers with
  | [] => Ok EmptyString
  | answer :: rest =>
      lines <- answer_lines i answer ;;
      more <- answers_from (S i) rest ;;
      Ok (lines ++ more)%string
  end.

(** Lines 201-247. *)
Definition format_path_description (ps : path_structure) : result string :=
  core_entity_info <- node_info (nodes ps) (JStr (core_entity ps)) ;;
  chain <- map_result (edge_lines (nodes ps)) (edges ps) ;;
  summary <- (match target_wrong_answers ps with
              | [] => Ok EmptyString
              | _ :: _ =>
                  answers <- answers_from 0 (target_wrong_answers ps) ;;
                  Ok (newline ++ "Target Wrong Answers Summary:" ++ newline
                      ++ answers)%string
              end) ;;
  Ok ("Core Entity: " ++ core_entity ps ++ newline
      ++ "Core Entity Details:" ++ newline
      ++ detail_lines "  " core_entity_info
      ++ newline ++ "Entity Relationship Chain:" ++ newline
      ++ String.concat EmptyString chain
      ++ summary)%string.

End Description.

(** The two prompts, kept as what they are rendered from. *)
Inductive prompt : Type :=
| DefaultPrompt (structure : path_structure) (path_description : string)
    (max_poison_words : Z)
| TemplatePrompt (structure : path_structure) (path_description : string)
    (max_poison_words : Z).

Definition hashable (v : json) : bool :=
  match v with
  | JArr _ | JObj _ => false
  | _ => true
  end.

Definition is_str (v : json) : bool :=
  match v with
  | JStr _ => true
  | _ => false
  end.

(** The loop that fills the set [all_entities] (lines 253-255 here, 16-18
    in the template module): what is added must be hashable. *)
Definition all_entities (edge_list : list dict) : result (list json) :=
  for_each (fun entities edge =>
              source <- getitem (JObj edge) "source" ;;
              if hashable source then
                target <- getitem (JObj edge) "target" ;;
                if hashable target then Ok (entities ++ [source; target])
                else Raise TypeError
              else Raise TypeError)
    edge_list [].

(** Lines 249-286; [', '.join] needs texts. *)
Definition _get_default_prompt (max_poison_words : Z) (ps : path_structure)
    (path_description : string) : result prompt :=
  _ <- map_result (fun answer => getitem (JObj answer) "text") (target_wrong_answers ps) ;;
  entities <- all_entities (edges ps) ;;
  if forallb is_str entities
  then Ok (DefaultPrompt ps path_description max_poison_words)
  else Raise TypeError.

(** Lines 3-13 of the template module: the text and the
    [is_core_answer] of every edge with a [poison_text]. *)
Definition template_wrong_answers (edge_list : list dict) : result (list (json * json)) :=
  for_each (fun answers edge =>
              match Dict.get "poison_text" edge with
              | Some text =>
                  _ <- getitem (JObj edge) "source" ;;
                  _ <- getitem (JObj edge) "target" ;;
                  Ok (answers
                      ++ [(text, default (JBool false) (Dict.get "is_core_answer" edge))])
              | None => Ok answers
              end)
    edge_list [].

(** [get_poison_text_prompt] of the template module: line 41 takes the
    first text among the core wrong answers, and there may be none. *)
Definition get_poison_text_prompt (ps : path_structure) (path_description : string)
    (max_poison_words : Z) : outcome prompt :=
  match (answers <- template_wrong_answers (edges ps) ;;
         entities <- all_entities (edges ps) ;;
         Ok (answers, entities)) with
  | Raise e => Raised (Other e)
  | Ok (answers, entities) =>
      match List.filter (fun wa => truthy (snd wa)) answers with
      | [] => Raised IndexError
      | _ :: _ =>
          if forallb is_str entities
          then Return (TemplatePrompt ps path_description max_poison_words)
          else Raised (Other TypeError)
      end
  end.

(** The generator: [max_poison_words], and whether the template module
    was loaded and has [get_poison_text_prompt]. *)
Record PoisonTextGenerator : Type := {
  max_poison_words : Z;
  has_template : bool
}.

(** The service as the generator sees it: the texts [call_llm] will
    return ([None] when it gives up) and the prompts sent. *)
Record service : Type := {
  replies : list (option string);
  requests : list prompt
}.

Definition call_llm (p : prompt) (s : service) : option string * service :=
  match replies s with
  | [] => (None, {| replies := []; requests := requests s ++ [p] |})
  | r :: rest => (r, {| replies := rest; requests := requests s ++ [p] |})
  end.

Definition backslash : ascii := ascii_of_nat 92.
Definition single_quote : ascii := ascii_of_nat 39.

Fixpoint starts_with (p l : list ascii) : bool :=
  match p, l with
  | [], _ => true
  | c :: p', d :: l' => Ascii.eqb c d && starts_with p' l'
  | _ :: _, [] => false
  end.

Definition ends_with (p l : list ascii) : bool := starts_with (rev p) (rev l).

(** [l[a:-b]] for a positive [b]. *)
Definition slice (a b : nat) (l : list ascii) : list ascii :=
  take (length l - b - a) (drop a l).

(** Lines 309-317. *)
Definition clean_response (response : string) : string :=
  let cleaned := list_ascii_of_string (strip response) in
  let quoted q := starts_with q cleaned && ends_with q cleaned in
  string_of_list_ascii
    (if quoted [double_quote] then slice 1 1 cleaned
     else if quoted [backslash; double_quote] then slice 2 2 cleaned
     else if quoted [single_quote] then slice 1 1 cleaned
     else if quoted [backslash; single_quote] then slice 2 2 cleaned
     else cleaned).

Section Generate.

Variable format_value : json -> string.
Variable self : PoisonTextGenerator.

(** Lines 288-320. *)
Definition generate_poison_text_for_path (path : list path_edge) (core_entity : string)
    (G : nx.DiGraph) (s : service) : outcome string * service :=
  let ps := format_path_for_output path core_entity G in
  match format_path_description format_value ps with
  | Raise e => (Raised (Other e), s)
  | Ok path_description =>
      match (if has_template self
             then get_poison_text_prompt ps path_description (max_poison_words self)
             else lift (_get_default_prompt (max_poison_words self) ps path_description))
      with
      | Raised e => (Raised e, s)
      | Return p =>
          let '(response, s1) := call_llm p s in
          match response with
          | Some text =>
              if String.eqb text EmptyString then (Return EmptyString, s1)
              else (Return (clean_response text), s1)
          | None => (Return EmptyString, s1)
          end
      end
  end.

(** Lines 322-329. *)
Definition merge_poison_texts (poison_texts : list string) : string :=
  match poison_texts with
  | [] => EmptyString
  | [text] => text
  | _ => String.concat (newline ++ newline) poison_texts
  end.

Record subgraph_result : Type := {
  poison_text : string;
  path_count : nat;
  poison_text_count : nat;
  paths : list string
}.

(** The loop of lines 353-357. *)
Fixpoint generate_texts (all_paths : list (list path_edge)) (core_entity : string)
    (G : nx.DiGraph) (poison_texts : list string) (s : service)
  : outcome (list string) * service :=
  match all_paths with
  | [] => (Return poison_texts, s)
  | path :: rest =>
      match generate_poison_text_for_path path core_entity G s with
      | (Raised e, s1) => (Raised e, s1)
      | (Return text, s1) =>
          generate_texts rest core_entity G
            (if String.eqb text EmptyString then poison_texts else poison_texts ++ [text])
            s1
      end
  end.

(** Lines 337-375, for one core entity. *)
Definition process_one (core_entity : string) (subgraph_data : json) (s : service)
  : outcome subgraph_result * service :=
  match (G <- build_networkx_graph subgraph_data ;;
         all_paths <- extract_all_paths G core_entity ;;
         descriptions <-
           map_result (fun path =>
                         format_path_description format_value
                           (format_path_for_output path core_entity G))
             all_paths ;;
         Ok (G, all_paths, descriptions)) with
  | Raise e => (Raised (Other e), s)
  | Ok (G, all_paths, descriptions) =>
      match generate_texts all_paths core_entity G [] s with
      | (Raised e, s1) => (Raised e, s1)
      | (Return poison_texts, s1) =>
          (Return {| poison_text := merge_poison_texts poison_texts;
                     path_count := length all_paths;
                     poison_text_count := length poison_texts;
                     paths := descriptions |}, s1)
      end
  end.

Fixpoint process_items (items : list (string * json))
    (results : Dict.t subgraph_result) (s : service)
  : outcome (Dict.t subgraph_result) * service :=
  match items with
  | [] => (Return results, s)
  | (core_entity, subgraph_data) :: rest =>
      match process_one core_entity subgraph_data s with
      | (Raised e, s1) => (Raised e, s1)
      | (Return entry, s1) =>
          process_items rest (Dict.set core_entity entry results) s1
      end
  end.

(** Lines 331-377; only a dict has [items]. *)
Definition process_all_subgraphs (graph_data : json) (s : service)
  : outcome (Dict.t subgraph_result) * service :=
  match graph_data with
  | JObj items => process_items items [] s
  | _ => (Raised (Other AttributeError), s)
  end.

End Generate.

End Generator.

(** ** Vocabulary of the generator properties *)

(** The path has an edge that carries a [poison_text] and a truthy
    [is_core_answer]: a core wrong answer for the template. *)
Definition core_wrong_answer (edge_data : dict) : bool :=
  Dict.contains "poison_text" edge_data
  && truthy_opt (Dict.get "is_core_answer" edge_data).

Definition has_core_wrong_answer (path : list path_edge) : bool :=
  existsb (fun e => core_wrong_answer (snd e)) path.

(** Python's [str] on the texts and booleans of the examples. *)
Definition str_of_scalar (v : json) : string :=
  match v with
  | JStr s => s
  | JBool true => "True"
  | JBool false => "False"
  | _ => "None"
  end.

Definition generator_with_template : Generator.PoisonTextGenerator :=
  {| Generator.max_poison_words := 100; Generator.has_template := true |}.

Definition default_generator : Generator.PoisonTextGenerator :=
  {| Generator.max_poison_words := 100; Generator.has_template := false |}.

(** Persisted graph data with one poisoned core-answer edge, and the same
    with a second edge that is not poisoned. *)
Definition poisoned_edge_json : json :=
  JObj [("source", JStr "FAIR"); ("target", JStr "leader");
        ("relation", JStr "led_by"); ("context_intent", JStr "leadership");
        ("is_core_answer", JBool true); ("poison_text", JStr "YANN LECUN")].

Definition plain_edge_json : json :=
  JObj [("source", JStr "FAIR"); ("target", JStr "Meta");
        ("relation", JStr "part_of"); ("context_intent", JStr "ownership");
        ("is_core_answer", JBool false)].

Definition fair_subgraph (edge_list : list json) : json :=
  JObj [("nodes", JArr [JObj [("id", JStr "FAIR"); ("type", JStr "lab")]]);
        ("edges", JArr edge_list)].

Definition one_poisoned_edge : list (string * json) :=
  [("FAIR", fair_subgraph [poisoned_edge_json])].

Definition one_plain_edge_more : list (string * json) :=
  [("FAIR", fair_subgraph [poisoned_edge_json; plain_edge_json])].

Definition answering (texts : list string) : Generator.service :=
  {| Generator.replies := map Some texts; Generator.requests := [] |}.

(** ** Poison Text Merger: [merge_poison_texts]

    The method iterates over a Python [set] of theme names, in an order
    that the interpreter chooses; the order is the argument
    [all_entities].  As in the generator, [format_value] is Python's
    [str]. *)

Module Merger.

Record merged_entry : Type := {
  theme : string;
  final_poison_text : json
}.

(** Lines 44-50: the text filed under the key for the entity, [""] when
    the entity or the key is missing. *)
Definition text_under (texts : dict) (entity key : string) : result json :=
  match Dict.get entity texts with
  | Some data =>
      text <- get_method data key ;;
      Ok (default (JStr EmptyString) text)
  | None => Ok (JStr EmptyString)
  end.

Definition rule (c : ascii) : string := string_of_list_ascii (repeat c 50).

Section Merge.

Variable format_value : json -> string.

(** Lines 52-58. *)
Definition final_text (original_text enhanced_text : json) : json :=
  if truthy original_text && truthy enhanced_text
  then JStr (format_value original_text ++ newline ++ newline
             ++ format_value enhanced_text)%string
  else if truthy original_text then original_text
  else if truthy enhanced_text then enhanced_text
  else JStr EmptyString.

(** Lines 66-69. *)
Definition block (entity : string) (text : json) : string :=
  ("Theme: " ++ entity ++ newline
   ++ rule "="%char ++ newline
   ++ format_value text ++ newline ++ newline
   ++ rule "-"%char ++ newline ++ newline)%string.

(** The body of the loop, lines 41-73. *)
Definition merge_entity (poison_texts enhanced_texts : dict)
    (merged : Dict.t merged_entry * string) (entity : string)
  : result (Dict.t merged_entry * string) :=
  original_text <- text_under poison_texts entity "poison_text" ;;
  enhanced_text <- text_under enhanced_texts entity "aggregated_text" ;;
  let text := final_text original_text enhanced_text in
  if truthy text
  then Ok (Dict.set entity {| theme := entity; final_poison_text := text |} (fst merged),
           (snd merged ++ block entity text)%string)
  else Ok merged.

(** Lines 33-75; only a dict has [keys]. *)
Definition merge_poison_texts (all_entities : list string)
    (poison_texts enhanced_texts : json)
  : result (Dict.t merged_entry * string) :=
  match poison_texts, enhanced_texts with
  | JObj poison, JObj enhanced =>
      for_each (merge_entity poison enhanced) all_entities ([], EmptyString)
  | _, _ => Raise AttributeError
  end.

End Merge.

(** The list is an iteration order of the set of the keys of the two
    dicts. *)
Definition enumerates (all_entities : list string) (poison_texts enhanced_texts : dict)
  : Prop :=
  NoDup all_entities
  /\ forall k, In k all_entities
               <-> Dict.contains k poison_texts || Dict.contains k enhanced_texts = true.

(** The entry of an entity, which no iteration order changes. *)
Definition entry_of (format_value : json -> string) (poison_texts enhanced_texts : dict)
    (entity : string) : option merged_entry :=
  match text_under poison_texts entity "poison_text",
        text_under enhanced_texts entity "aggregated_text" with
  | Ok original_text, Ok enhanced_text =>
      let text := final_text format_value original_text enhanced_text in
      if truthy text then Some {| theme := entity; final_poison_text := text |} else None
  | _, _ => None
  end.

End Merger.

(** Two one-theme inputs of the merger. *)
Definition poison_texts_of_fair : dict :=
  [("FAIR", JObj [("poison_text", JStr "A passage."); ("path_count", JInt 1)])].

Definition enhanced_texts_of_fair : dict :=
  [("FAIR", JObj [("core_entity", JStr "FAIR"); ("aggregated_text", JStr "More.")])].

(** The four pairs of quotation marks that lines 310-317 of the generator
    take off a reply. *)
Definition quote_marks : list string :=
  map string_of_list_ascii
    [[double_quote];
     [Generator.backslash; double_quote];
     [Generator.single_quote];
     [Generator.backslash; Generator.single_quote]].

(** ** Replies inside a Markdown fence ([str.split], [in]) *)

Module Str.

(** [l.split(sep)] for a separator that is not empty, scanning from the
    left: [piece] holds the characters of the current piece in reverse,
    [skip] the characters of a separator just found that are still to be
    passed. *)
Fixpoint split_from (sep piece : list ascii) (skip : nat) (l : list ascii)
    : list (list ascii) :=
  match l with
  | [] => [rev piece]
  | c :: rest =>
      match skip with
      | S k => split_from sep piece k rest
      | O =>
          if Generator.starts_with sep l
          then rev piece :: split_from sep [] (length sep - 1) rest
          else split_from sep (c :: piece) 0 rest
      end
  end.

Definition split (sep l : list ascii) : list (list ascii) := split_from sep [] 0 l.

(** [sep in l]. *)
Fixpoint contains (sep l : list ascii) : bool :=
  Generator.starts_with sep l
  || match l with
     | [] => false
     | _ :: rest => contains sep rest
     end.

End Str.

Definition backtick : ascii := ascii_of_nat 96.
Definition fence : list ascii := [backtick; backtick; backtick].
Definition json_fence : list ascii := fence ++ list_ascii_of_string "json".

(** Lines 137-141, 161-165 and 204-208 of the builder and 189-193 of the
    enhancer: the text handed to [json.loads]. [None] stands for the
    [IndexError] of an index that [split] does not have. *)
Definition json_str (response : string) : option string :=
  let r := list_ascii_of_string response in
  if Str.contains json_fence r then
    match nth_error (Str.split json_fence r) 1 with
    | None => None
    | Some after =>
        match nth_error (Str.split fence after) 0 with
        | None => None
        | Some body => Some (strip (string_of_list_ascii body))
        end
    end
  else if Str.contains fence r then
    match nth_error (Str.split fence r) 1 with
    | None => None
    | Some body => Some (strip (string_of_list_ascii body))
    end
  else Some response.




(** ** Vocabulary of the invariants *)

(** What the search relies on about its state when it is called on
    [cur]: the current path is a walk from the root that ends at [cur],
    and [visited] holds the nodes of that path. *)
Definition search_inv (G : nx.DiGraph) (root cur : string) (st : dfs_state) : Prop :=
  walk G root (current_path st)
  /\ last_node root (current_path st) = cur
  /\ visited st = list_to_set (path_nodes root (current_path st)).

(** What a call leaves behind: [visited] and [current_path] restored, and
    [all_paths] longer by paths that are non-empty walks ending in a dead
    end. *)
Definition search_post (G : nx.DiGraph) (root : string) (st st' : dfs_state) : Prop :=
  visited st' = visited st
  /\ current_path st' = current_path st
  /\ exists new,
       all_paths st' = all_paths st ++ new
       /\ Forall (fun p => p <> [] /\ walk G root p /\ dead_end G root p) new.






(** What the loop does from an attempt on, leaving the sleeping aside. *)
Definition attempts_post (k : nat) (n : http.net) (r : json * http.net) : Prop :=
  fst r = default JNull (http.first_success (take k (http.outcomes n)))
  /\ http.posts n <= http.posts (snd r) <= http.posts n + k
  /\ (forall c, http.first_success (take k (http.outcomes n)) = Some c ->
                http.posts (snd r)
                = http.posts n + http.posts_needed (take k (http.outcomes n))).


(** Every attribute dict of an edge has unique keys. *)
Definition proper_edges (G : nx.DiGraph) : Prop :=
  forall n e v d, In (n, e) G -> In (v, d) (nx.succ e) -> NoDup (Dict.keys d).

Fixpoint edge_infos (i : nat) (path : list path_edge) : list dict :=
  match path with
  | [] => []
  | (source, target, edge_data) :: rest =>
      Generator.edge_info i source target edge_data :: edge_infos (S i) rest
  end.

(** No attribute dict of an edge has a key [source] or [target], and
    each has unique keys. *)
Definition plain_data (d : dict) : Prop :=
  NoDup (Dict.keys d)
  /\ Dict.contains "source" d = false /\ Dict.contains "target" d = false.

Definition plain_edges (G : nx.DiGraph) : Prop :=
  forall n e v d, In (n, e) G -> In (v, d) (nx.succ e) -> plain_data d.

(** A path structure that the description and the prompts can read. *)
Definition readable (ps : Generator.path_structure) : Prop :=
  Dict.contains (Generator.core_entity ps) (Generator.nodes ps) = true
  /\ Forall (fun edge =>
               exists s t,
                 Dict.get "source" edge = Some (JStr s)
                 /\ Dict.get "target" edge = Some (JStr t)
                 /\ Dict.contains "index" edge = true
                 /\ Dict.contains s (Generator.nodes ps) = true
                 /\ Dict.contains t (Generator.nodes ps) = true)
       (Generator.edges ps)
  /\ Forall (fun answer =>
               exists text relation intent source target,
                 answer = [("text", text); ("relation", relation);
                           ("context_intent", intent); ("source", source);
                           ("target", target)])
       (Generator.target_wrong_answers ps).
(** * Properties *)

(** ** Extraction Validator *)

Lemma eq_str_spec (v : json) (s : string) : eq_str v s = true <-> v = JStr s.
Proof.
  destruct v; simpl; try (split; [discriminate | intros H; inversion H]).
  rewrite String.eqb_eq. split; [intros -> | intros H; inversion H]; reflexivity.
Qed.


Lemma check_core_answer_objects (relations : list json) (a : string) :
  forallb is_obj relations = true ->
  check_core_answer relations a = Ok (core_answer_ok relations a).
Proof.
  unfold core_answer_ok.
  induction relations as [|r rest IH]; simpl; [reflexivity|].
  intros H. apply andb_true_iff in H as [Hr Hrest].
  destruct r; simpl in Hr; try discriminate. simpl.
  destruct (eq_True (Dict.get "is_core_answer" members)); simpl.
  - destruct (Dict.get "poison_text" members) as [p|]; [|reflexivity].
    destruct (eq_str p a); reflexivity.
  - apply IH, Hrest.
Qed.

(** On a well-shaped fragment the validator returns, and its verdict is
    the conjunction of the structural checks and the core-answer check. *)
Lemma validate_well_shaped (data : dict) (q a : string) :
  well_shaped data = true ->
  validate_extraction_result data q a =
    Ok (structurally_complete data && core_answer_ok (relation_list data) a).
Proof.
  unfold well_shaped, validate_extraction_result, structurally_complete,
    core_entity_field, relation_list.
  intros H. apply andb_true_iff in H as [Hqa Hrel].
  destruct data as [|kv data']; [reflexivity|].
  set (data := kv :: data') in *. clearbody data.
  destruct (Dict.get "query_analysis" data) as [qa|]; [|reflexivity].
  destruct qa; simpl in Hqa; try discriminate. simpl.
  destruct (truthy_opt (Dict.get "core_entity" members)); simpl; [|reflexivity].
  destruct (truthy_opt (Dict.get "entities" data)); simpl; [|reflexivity].
  destruct (Dict.get "relations" data) as [rels|]; simpl; [|reflexivity].
  destruct rels; try discriminate.
  destruct items as [|r items]; [reflexivity|].
  cbn [truthy negb iterate rbind].
  rewrite check_core_answer_objects by exact Hrel. reflexivity.
Qed.



(** Sections of another type make the validator raise instead of
    returning a verdict. *)
Example validate_raises_on_null_query_analysis :
  validate_extraction_result [("query_analysis", JNull)] "q" "a" = Raise AttributeError.
Proof. reflexivity. Qed.

Example validate_raises_on_relation_text :
  validate_extraction_result
    [("query_analysis", JObj [("core_entity", JStr "FAIR")]);
     ("entities", JArr [entity_of "FAIR"]);
     ("relations", JArr [JStr "FAIR leads"])] "q" "a" = Raise AttributeError.
Proof. reflexivity. Qed.

Lemma find_first_marked {A : Type} (f : A -> bool) (before after : list A) (x : A) :
  existsb f before = false -> f x = true -> find f (before ++ x :: after) = Some x.
Proof.
  induction before as [|y before IH]; simpl; intros Hb Hx.
  - rewrite Hx. reflexivity.
  - apply orb_false_iff in Hb as [Hy Hb]. rewrite Hy. apply IH; assumption.
Qed.

Lemma normalize_relation_checked (a : string) (r : json) (p : json) :
  marked_core_answer r = true ->
  poison_text_of r = Some p ->
  normalize_relation a r = Ok r.
Proof.
  destruct r; simpl; try discriminate. intros Hm Hp.
  unfold normalize_relation. simpl. unfold Dict.contains.
  destruct (Dict.get "is_core_answer" members) as [flag|] eqn:Hflag;
    [|discriminate]. simpl. rewrite Hflag, Hm. simpl.
  unfold Dict.contains. rewrite Hp. reflexivity.
Qed.

(** C9, as the code has it. On a well-shaped fragment that passes the
    structural checks and has a relation marked [is_core_answer = true],
    the validator accepts exactly when the first such relation carries a
    [poison_text] equal to the answer: it rejects both a [poison_text]
    that differs and one that is absent.  The relation it checked
    therefore always has its [poison_text] already, and normalisation
    leaves that relation as it is. *)
Theorem validate_poison_text_condition (data : dict) (q a : string) (r : json) :
  well_shaped data = true ->
  structurally_complete data = true ->
  find marked_core_answer (relation_list data) = Some r ->
  (validate_extraction_result data q a = Ok true <-> poison_text_of r = Some (JStr a))
  /\ (validate_extraction_result data q a = Ok false <->
      (poison_text_of r = None
       \/ exists p, poison_text_of r = Some p /\ p <> JStr a))
  /\ (validate_extraction_result data q a = Ok true -> normalize_relation a r = Ok r).
Proof.
  intros Hshape Hstruct Hfind.
  rewrite (validate_well_shaped data q a Hshape), Hstruct.
  unfold core_answer_ok. rewrite Hfind. simpl.
  destruct (poison_text_of r) as [p|] eqn:Hp.
  - destruct (eq_str p a) eqn:Heq.
    + apply eq_str_spec in Heq. subst p. repeat split; try reflexivity.
      * discriminate.
      * intros [H | [p [H Hne]]]; [discriminate|]. inversion H. congruence.
      * intros _. apply (normalize_relation_checked a r (JStr a)); [|exact Hp].
        apply find_some in Hfind. apply Hfind.
    + assert (Hne : p <> JStr a).
      { intros ->. simpl in Heq. rewrite String.eqb_refl in Heq. discriminate. }
      repeat split; try discriminate; try reflexivity.
      * intros H. inversion H. contradiction.
      * intros _. right. exists p. split; [reflexivity | exact Hne].
  - repeat split; try discriminate; try reflexivity.
    intros _. left. reflexivity.
Qed.

Lemma validate_poison_text_condition_witness :
  well_shaped fragment_with_two_core_answers = true
  /\ structurally_complete fragment_with_two_core_answers = true
  /\ validate_extraction_result
       fragment_with_two_core_answers "Who leads FAIR?" "YANN LECUN" = Ok true.
Proof.
  split; [reflexivity|]. split; [reflexivity|].
  apply (proj1 (validate_poison_text_condition fragment_with_two_core_answers
                  "Who leads FAIR?" "YANN LECUN"
                  (relation_of "FAIR" "leader" "led_by"
                     [("is_core_answer", JBool true);
                      ("poison_text", JStr "YANN LECUN")])
                  eq_refl eq_refl eq_refl)).
  reflexivity.
Defined.

(** C9 as stated fails: a fragment that passes every structural check
    and whose core-answer relation has no [poison_text] at all is
    rejected. *)
Lemma absent_poison_text_fails_validation :
  well_shaped fragment_without_poison_text = true
  /\ structurally_complete fragment_without_poison_text = true
  /\ find marked_core_answer (relation_list fragment_without_poison_text)
     = Some (relation_of "FAIR" "leader" "led_by" [("is_core_answer", JBool true)])
  /\ poison_text_of
       (relation_of "FAIR" "leader" "led_by" [("is_core_answer", JBool true)]) = None
  /\ validate_extraction_result
       fragment_without_poison_text "Who leads FAIR?" "YANN LECUN" = Ok false.
Proof. repeat split. Qed.

(** C10. Only the first relation marked [is_core_answer = true] is read:
    a well-shaped fragment that passes the structural checks and whose
    first marked relation carries the answer as [poison_text] is accepted
    whatever the later relations are, marked or not, with or without a
    matching [poison_text]. *)
Theorem validate_reads_first_core_answer
    (data : dict) (q a : string) (before after : list json) (r : json) :
  well_shaped data = true ->
  structurally_complete data = true ->
  relation_list data = before ++ r :: after ->
  existsb marked_core_answer before = false ->
  marked_core_answer r = true ->
  poison_text_of r = Some (JStr a) ->
  validate_extraction_result data q a = Ok true.
Proof.
  intros Hshape Hstruct Hlist Hbefore Hr Hp.
  rewrite (validate_well_shaped data q a Hshape), Hstruct.
  unfold core_answer_ok.
  rewrite Hlist, (find_first_marked _ before after r Hbefore Hr), Hp.
  simpl. rewrite String.eqb_refl. reflexivity.
Qed.

Lemma validate_reads_first_core_answer_witness :
  well_shaped fragment_with_two_core_answers = true
  /\ structurally_complete fragment_with_two_core_answers = true
  /\ marked_core_answer
       (relation_of "FAIR" "Meta" "part_of"
          [("is_core_answer", JBool true); ("poison_text", JStr "somebody else")]) = true
  /\ validate_extraction_result
       fragment_with_two_core_answers "Who leads FAIR?" "YANN LECUN" = Ok true.
Proof.
  split; [reflexivity|]. split; [reflexivity|]. split; [reflexivity|].
  apply (validate_reads_first_core_answer fragment_with_two_core_answers
           "Who leads FAIR?" "YANN LECUN" []
           [relation_of "FAIR" "Meta" "part_of"
              [("is_core_answer", JBool true); ("poison_text", JStr "somebody else")]]
           (relation_of "FAIR" "leader" "led_by"
              [("is_core_answer", JBool true); ("poison_text", JStr "YANN LECUN")]));
    reflexivity.
Defined.

(** ** Dictionaries *)

Lemma dict_get_set_eq {V : Type} (k : string) (v : V) (d : Dict.t V) :
  Dict.get k (Dict.set k v d) = Some v.
Proof.
  induction d as [|[k' v'] d IH]; simpl.
  - rewrite String.eqb_refl. reflexivity.
  - destruct (String.eqb k' k) eqn:E; simpl; rewrite E; [reflexivity | exact IH].
Qed.

Lemma dict_get_set_ne {V : Type} (k k' : string) (v : V) (d : Dict.t V) :
  k <> k' -> Dict.get k' (Dict.set k v d) = Dict.get k' d.
Proof.
  intros Hne. induction d as [|[k0 v0] d IH]; simpl.
  - destruct (String.eqb k k') eqn:E; [|reflexivity].
    apply String.eqb_eq in E. contradiction.
  - destruct (String.eqb k0 k) eqn:E; simpl.
    + apply String.eqb_eq in E. subst k0.
      destruct (String.eqb k k') eqn:E'; [|reflexivity].
      apply String.eqb_eq in E'. contradiction.
    + rewrite IH. reflexivity.
Qed.

(** ** Extraction Controller *)

Lemma call_llm_sent (p : prompt) (w : world) :
  sent (snd (call_llm p w)) = sent w ++ [p].
Proof. unfold call_llm. destruct (pending w); reflexivity. Qed.

Lemma call_llm_head (p : prompt) (w : world) (r : option reply) (rest : list (option reply)) :
  pending w = r :: rest ->
  call_llm p w = (r, {| pending := rest; sent := sent w ++ [p]; rng := rng w |}).
Proof. intros H. unfold call_llm. rewrite H. reflexivity. Qed.

Lemma parse_fragment_carries (r : reply) (q a : string) (d : dict) :
  parse_fragment r q a = Ok d -> carries d {| query := q; answer := a |}.
Proof.
  unfold parse_fragment, carries. destruct (loads r) as [v|]; [|discriminate].
  destruct v; try discriminate. intros H. inversion H; subst. simpl. split.
  - rewrite dict_get_set_ne by discriminate. apply dict_get_set_eq.
  - apply dict_get_set_eq.
Qed.






(** Whatever the retry parses to is returned: the second result is
    neither validated nor normalised. *)
Lemma extract_relations_retry (q a : string) (w : world) (r1 r2 : reply)
    (rest : list (option reply)) (d1 d2 : dict) :
  pending w = Some r1 :: Some r2 :: rest ->
  content r1 <> EmptyString ->
  content r2 <> EmptyString ->
  parse_fragment r1 q a = Ok d1 ->
  validate_extraction_result d1 q a = Ok false ->
  parse_fragment r2 q a = Ok d2 ->
  extract_relations q a w
  = (Some d2,
     {| pending := rest;
        sent := sent w ++ [RelationExtractionPrompt q a false;
                           RelationExtractionPrompt q a true];
        rng := rng w |}).
Proof.
  intros Hpend Hc1 Hc2 Hp1 Hv Hp2. unfold extract_relations.
  rewrite (call_llm_head _ w _ _ Hpend). simpl.
  apply String.eqb_neq in Hc1. apply String.eqb_neq in Hc2.
  rewrite Hc1, Hp1. simpl. rewrite Hv. simpl.
  unfold retry_extraction_with_guidance.
  pose proof (parse_fragment_carries _ _ _ _ Hp1) as [Hq _].
  destruct d1 as [|kv d1]; [discriminate|].
  erewrite call_llm_head by reflexivity. simpl.
  rewrite Hc2, Hp2, <- app_assoc. reflexivity.
Qed.


(** The same path skips the normalisation: a valid retried result whose
    first relation has no [is_core_answer] key is returned without the
    default that the first attempt adds. *)
Example retry_result_is_not_normalised :
  match meta_fragment with
  | JObj fragment =>
      fst (extract_relations (query meta_unit) (answer meta_unit)
             (world_of [text_reply "{}" (JObj []); text_reply "{...}" meta_fragment]))
      = Some fragment
      /\ match normalize_relations fragment (answer meta_unit) with
         | Ok normalized =>
             fst (extract_relations (query meta_unit) (answer meta_unit)
                    (world_of [text_reply "{...}" meta_fragment]))
             = Some normalized
             /\ normalized <> fragment
         | Raise _ => False
         end
  | _ => False
  end.
Proof. vm_compute. repeat split. discriminate. Qed.

(** ** Batch Reconciler *)











(** A reply that is a list with an item of another type ends the whole
    batch the same way, even for units already resolved. *)
Example ill_typed_batch_item_drops_units :
  fst (fst (extract_batch_relations [] [unit_fair]
              (world_of [text_reply "[1]" (JArr [JInt 1])]))) = [].
Proof. reflexivity. Qed.

(** ** Loops that are run twice

    A loop whose body only adds to the state, and which changes nothing
    measurable when its item is already in the state, changes nothing
    measurable when it is run a second time. *)

Lemma for_each_app {A S : Type} (body : S -> A -> result S) (xs ys : list A) (s : S) :
  for_each body (xs ++ ys) s = (s' <- for_each body xs s ;; for_each body ys s').
Proof.
  revert s. induction xs as [|x xs IH]; intros s; simpl; [reflexivity|].
  destruct (body s x); simpl; [apply IH | reflexivity].
Qed.

Lemma for_each_invariant {A S : Type} (P : S -> Prop) (body : S -> A -> result S) :
  (forall s x s', P s -> body s x = Ok s' -> P s') ->
  forall xs s s', P s -> for_each body xs s = Ok s' -> P s'.
Proof.
  intros Hstep. induction xs as [|x xs IH]; simpl; intros s s' Hs H.
  - inversion H. subst. exact Hs.
  - destruct (body s x) as [s1|] eqn:Hb; [|discriminate].
    eapply IH; [eapply Hstep; eassumption | exact H].
Qed.

Section RunTwice.

Context {A S M : Type}.
Variable body : S -> A -> result S.
Variable le : S -> S -> Prop.
Variable present : S -> A -> Prop.
Variable measure : S -> M.

Hypothesis le_refl : forall s, le s s.
Hypothesis le_trans : forall s1 s2 s3, le s1 s2 -> le s2 s3 -> le s1 s3.
Hypothesis body_grows : forall s x s', body s x = Ok s' -> le s s'.
Hypothesis present_mono : forall s s' x, le s s' -> present s x -> present s' x.
Hypothesis body_present : forall s x s', body s x = Ok s' -> present s' x.
Hypothesis body_again :
  forall s x, present s x -> exists s', body s x = Ok s' /\ measure s' = measure s.

Lemma for_each_grows (xs : list A) :
  forall s s', for_each body xs s = Ok s' -> le s s'.
Proof.
  induction xs as [|x xs IH]; simpl; intros s s' H.
  - inversion H. apply le_refl.
  - destruct (body s x) as [s1|] eqn:Hb; [|discriminate]. simpl in H.
    eapply le_trans; [eapply body_grows, Hb | eapply IH, H].
Qed.

Lemma for_each_present (xs : list A) :
  forall s s', for_each body xs s = Ok s' -> forall x, In x xs -> present s' x.
Proof.
  induction xs as [|x xs IH]; simpl; intros s s' H y Hy; [contradiction|].
  destruct (body s x) as [s1|] eqn:Hb; [|discriminate]. simpl in H.
  destruct Hy as [<- | Hy].
  - eapply present_mono; [eapply for_each_grows, H | eapply body_present, Hb].
  - eapply IH; eassumption.
Qed.

Lemma for_each_again (xs : list A) :
  forall s, (forall x, In x xs -> present s x) ->
            exists s', for_each body xs s = Ok s' /\ measure s' = measure s.
Proof.
  induction xs as [|x xs IH]; simpl; intros s H.
  - exists s. split; reflexivity.
  - destruct (body_again s x (H x (or_introl eq_refl))) as (s1 & Hb & Hm).
    rewrite Hb. simpl.
    destruct (IH s1) as (s' & Hf & Hm').
    + intros y Hy. eapply present_mono; [eapply body_grows, Hb|]. apply H. right. exact Hy.
    + exists s'. split; [exact Hf | congruence].
Qed.

End RunTwice.

(** ** Dictionaries, continued *)

Lemma dict_get_set {V : Type} (k k' : string) (v : V) (d : Dict.t V) :
  Dict.get k' (Dict.set k v d) = if String.eqb k k' then Some v else Dict.get k' d.
Proof.
  destruct (String.eqb k k') eqn:E.
  - apply String.eqb_eq in E. subst. apply dict_get_set_eq.
  - apply String.eqb_neq in E. apply dict_get_set_ne, E.
Qed.

Lemma dict_set_length {V : Type} (k : string) (v v0 : V) (d : Dict.t V) :
  Dict.get k d = Some v0 -> length (Dict.set k v d) = length d.
Proof.
  induction d as [|[k' v'] d IH]; simpl; [discriminate|].
  destruct (String.eqb k' k); simpl; [reflexivity|].
  intros H. rewrite (IH H). reflexivity.
Qed.

Lemma dict_set_map {V B : Type} (f : V -> B) (k : string) (v v0 : V) (d : Dict.t V) :
  Dict.get k d = Some v0 -> f v = f v0 ->
  map (fun kv => f (snd kv)) (Dict.set k v d) = map (fun kv => f (snd kv)) d.
Proof.
  intros Hget Hf. induction d as [|[k' v'] d IH]; simpl in *; [discriminate|].
  destruct (String.eqb k' k); simpl.
  - inversion Hget; subst. rewrite Hf. reflexivity.
  - rewrite (IH Hget). reflexivity.
Qed.

Lemma dict_set_map_new {V B : Type} (f : V -> B) (k : string) (v : V) (d : Dict.t V) :
  Dict.get k d = None ->
  map (fun kv => f (snd kv)) (Dict.set k v d) = map (fun kv => f (snd kv)) d ++ [f v].
Proof.
  intros Hget. induction d as [|[k' v'] d IH]; simpl in *; [reflexivity|].
  destruct (String.eqb k' k); simpl; [discriminate|].
  rewrite (IH Hget). reflexivity.
Qed.

Lemma dict_contains_get {V : Type} (k : string) (d : Dict.t V) :
  Dict.contains k d = true <-> exists v, Dict.get k d = Some v.
Proof.
  unfold Dict.contains. destruct (Dict.get k d) as [v|]; split.
  - intros _. exists v. reflexivity.
  - reflexivity.
  - discriminate.
  - intros [v H]. discriminate.
Qed.

(** ** The directed graph *)

Lemma has_node_set (G : nx.DiGraph) (n n' : string) (e : nx.node_entry) :
  nx.has_node (Dict.set n e G) n' = String.eqb n n' || nx.has_node G n'.
Proof.
  unfold nx.has_node, Dict.contains. rewrite dict_get_set.
  destruct (String.eqb n n'); reflexivity.
Qed.

Lemma get_edge_data_set (G : nx.DiGraph) (n u v : string) (e : nx.node_entry) :
  nx.get_edge_data (Dict.set n e G) u v
  = if String.eqb n u then Dict.get v (nx.succ e) else nx.get_edge_data G u v.
Proof.
  unfold nx.get_edge_data. rewrite dict_get_set.
  destruct (String.eqb n u); reflexivity.
Qed.

Lemma graph_le_refl (G : nx.DiGraph) : graph_le G G.
Proof. split; auto. Qed.

Lemma graph_le_trans (G1 G2 G3 : nx.DiGraph) :
  graph_le G1 G2 -> graph_le G2 G3 -> graph_le G1 G3.
Proof. intros [H1 H2] [H3 H4]. split; auto. Qed.

Lemma add_node_le (G : nx.DiGraph) (n : string) (attr : dict) :
  graph_le G (nx.add_node G n attr).
Proof.
  unfold nx.add_node.
  destruct (Dict.get n G) as [e|] eqn:Hg; split; intros; unfold has_edge in *.
  - rewrite has_node_set, H. apply orb_true_r.
  - rewrite get_edge_data_set. destruct (String.eqb n u) eqn:E; [|assumption].
    apply String.eqb_eq in E. subst. unfold nx.get_edge_data in H.
    rewrite Hg in H. exact H.
  - rewrite has_node_set, H. apply orb_true_r.
  - rewrite get_edge_data_set. destruct (String.eqb n u) eqn:E; [|assumption].
    apply String.eqb_eq in E. subst. unfold nx.get_edge_data in H.
    rewrite Hg in H. discriminate.
Qed.

Lemma ensure_node_le (G : nx.DiGraph) (n : string) : graph_le G (nx.ensure_node G n).
Proof.
  unfold nx.ensure_node. destruct (nx.has_node G n) eqn:Hn; [apply graph_le_refl|].
  split; intros; unfold has_edge in *.
  - rewrite has_node_set, H. apply orb_true_r.
  - rewrite get_edge_data_set. destruct (String.eqb n u) eqn:E; [|assumption].
    apply String.eqb_eq in E. subst. unfold nx.get_edge_data in H.
    unfold nx.has_node, Dict.contains in Hn.
    destruct (Dict.get u G); discriminate.
Qed.

Lemma ensure_node_has (G : nx.DiGraph) (n : string) :
  nx.has_node (nx.ensure_node G n) n = true.
Proof.
  unfold nx.ensure_node. destruct (nx.has_node G n) eqn:Hn; [exact Hn|].
  rewrite has_node_set, String.eqb_refl. reflexivity.
Qed.

Lemma has_node_get (G : nx.DiGraph) (n : string) :
  nx.has_node G n = true -> exists e, Dict.get n G = Some e.
Proof. apply dict_contains_get. Qed.

Lemma add_edge_le (G : nx.DiGraph) (u v : string) (attr : dict) :
  graph_le G (nx.add_edge G u v attr).
Proof.
  unfold nx.add_edge.
  set (G' := nx.ensure_node (nx.ensure_node G u) v).
  assert (Hle : graph_le G G').
  { eapply graph_le_trans; apply ensure_node_le. }
  destruct (Dict.get u G') as [e|] eqn:Hg; [|exact Hle].
  eapply graph_le_trans; [exact Hle|].
  split; intros; unfold has_edge in *.
  - rewrite has_node_set, H. apply orb_true_r.
  - rewrite get_edge_data_set. destruct (String.eqb u u0) eqn:E; [|assumption].
    apply String.eqb_eq in E. subst u0. simpl. rewrite dict_get_set.
    destruct (String.eqb v v0); [reflexivity|].
    unfold nx.get_edge_data in H. rewrite Hg in H. exact H.
Qed.

Lemma add_node_has (G : nx.DiGraph) (n : string) (attr : dict) :
  nx.has_node (nx.add_node G n attr) n = true.
Proof.
  unfold nx.add_node. destruct (Dict.get n G);
    rewrite has_node_set, String.eqb_refl; reflexivity.
Qed.

Lemma add_edge_has (G : nx.DiGraph) (u v : string) (attr : dict) :
  nx.has_node (nx.add_edge G u v attr) u = true
  /\ nx.has_node (nx.add_edge G u v attr) v = true
  /\ has_edge (nx.add_edge G u v attr) u v = true.
Proof.
  unfold nx.add_edge.
  set (G' := nx.ensure_node (nx.ensure_node G u) v).
  assert (Hu : nx.has_node G' u = true).
  { apply (ensure_node_le (nx.ensure_node G u) v), ensure_node_has. }
  assert (Hv : nx.has_node G' v = true) by apply ensure_node_has.
  destruct (has_node_get _ _ Hu) as [e He]. rewrite He.
  repeat split.
  - rewrite has_node_set, String.eqb_refl. reflexivity.
  - rewrite has_node_set, Hv. apply orb_true_r.
  - unfold has_edge. rewrite get_edge_data_set, String.eqb_refl. simpl.
    rewrite dict_get_set_eq. reflexivity.
Qed.

Lemma add_node_counts (G : nx.DiGraph) (n : string) (attr : dict) :
  nx.has_node G n = true -> graph_counts (nx.add_node G n attr) = graph_counts G.
Proof.
  intros Hn. destruct (has_node_get _ _ Hn) as [e He].
  unfold nx.add_node, graph_counts, nx.number_of_nodes, nx.number_of_edges.
  rewrite He. f_equal.
  - eapply dict_set_length, He.
  - f_equal. apply (dict_set_map (fun e0 => length (nx.succ e0)) n _ e G He). reflexivity.
Qed.

Lemma add_edge_counts (G : nx.DiGraph) (u v : string) (attr : dict) :
  nx.has_node G u = true -> nx.has_node G v = true -> has_edge G u v = true ->
  graph_counts (nx.add_edge G u v attr) = graph_counts G.
Proof.
  intros Hu Hv He. unfold nx.add_edge, nx.ensure_node. rewrite Hu, Hv.
  destruct (has_node_get _ _ Hu) as [e Hget]. rewrite Hget.
  unfold has_edge, nx.get_edge_data in He. rewrite Hget in He.
  destruct (Dict.get v (nx.succ e)) as [old|] eqn:Hold; [|discriminate].
  unfold graph_counts, nx.number_of_nodes, nx.number_of_edges. f_equal.
  - eapply dict_set_length, Hget.
  - f_equal. apply (dict_set_map (fun e0 => length (nx.succ e0)) u _ e G Hget).
    simpl. eapply dict_set_length, Hold.
Qed.

(** ** Graph Assembler, in memory *)

Lemma add_entity_decodes (G G' : nx.DiGraph) (entity : json) :
  add_entity G entity = Ok G' ->
  exists n attr, forall G0, add_entity G0 entity = Ok (nx.add_node G0 n attr).
Proof.
  unfold add_entity. intros H.
  destruct (getitem entity "name") as [name|]; [|discriminate]. cbn [rbind] in *.
  destruct (getitem entity "type") as [type|]; [|discriminate]. cbn [rbind] in *.
  destruct (getitem entity "context_role") as [role|]; [|discriminate]. cbn [rbind] in *.
  destruct (as_str name) as [n|]; [|discriminate]. cbn [rbind] in *.
  eexists _, _. intros G0. reflexivity.
Qed.

Lemma add_relation_decodes (G G' : nx.DiGraph) (relation : json) :
  add_relation G relation = Ok G' ->
  exists u v attr, forall G0, add_relation G0 relation = Ok (nx.add_edge G0 u v attr).
Proof.
  unfold add_relation. intros H.
  destruct (edge_attrs_of relation) as [attr|]; [|discriminate]. cbn [rbind] in *.
  destruct (getitem relation "source") as [source|]; [|discriminate]. cbn [rbind] in *.
  destruct (getitem relation "target") as [target|]; [|discriminate]. cbn [rbind] in *.
  destruct (as_str source) as [u|]; [|discriminate]. cbn [rbind] in *.
  destruct (as_str target) as [v|]; [|discriminate]. cbn [rbind] in *.
  eexists _, _, _. intros G0. reflexivity.
Qed.

Lemma add_entity_grows (G : nx.DiGraph) (entity : json) (G' : nx.DiGraph) :
  add_entity G entity = Ok G' -> graph_le G G'.
Proof.
  intros H. destruct (add_entity_decodes _ _ _ H) as (n & attr & Hd).
  rewrite Hd in H. inversion H. apply add_node_le.
Qed.

Lemma add_relation_grows (G : nx.DiGraph) (relation : json) (G' : nx.DiGraph) :
  add_relation G relation = Ok G' -> graph_le G G'.
Proof.
  intros H. destruct (add_relation_decodes _ _ _ H) as (u & v & attr & Hd).
  rewrite Hd in H. inversion H. apply add_edge_le.
Qed.

Lemma entity_present_mono (G G' : nx.DiGraph) (entity : json) :
  graph_le G G' -> entity_present G entity -> entity_present G' entity.
Proof.
  intros [Hn _] (n & attr & Hd & Hin). exists n, attr. split; [exact Hd | auto].
Qed.

Lemma relation_present_mono (G G' : nx.DiGraph) (relation : json) :
  graph_le G G' -> relation_present G relation -> relation_present G' relation.
Proof.
  intros [Hn He] (u & v & attr & Hd & Hu & Hv & Huv).
  exists u, v, attr. repeat split; auto.
Qed.

Lemma add_entity_present (G : nx.DiGraph) (entity : json) (G' : nx.DiGraph) :
  add_entity G entity = Ok G' -> entity_present G' entity.
Proof.
  intros H. destruct (add_entity_decodes _ _ _ H) as (n & attr & Hd).
  exists n, attr. split; [exact Hd|].
  rewrite Hd in H. inversion H. apply add_node_has.
Qed.

Lemma add_relation_present (G : nx.DiGraph) (relation : json) (G' : nx.DiGraph) :
  add_relation G relation = Ok G' -> relation_present G' relation.
Proof.
  intros H. destruct (add_relation_decodes _ _ _ H) as (u & v & attr & Hd).
  exists u, v, attr. split; [exact Hd|].
  rewrite Hd in H. inversion H. apply add_edge_has.
Qed.

Lemma add_entity_again (G : nx.DiGraph) (entity : json) :
  entity_present G entity ->
  exists G', add_entity G entity = Ok G' /\ graph_counts G' = graph_counts G.
Proof.
  intros (n & attr & Hd & Hin). exists (nx.add_node G n attr).
  split; [apply Hd | apply add_node_counts, Hin].
Qed.

Lemma add_relation_again (G : nx.DiGraph) (relation : json) :
  relation_present G relation ->
  exists G', add_relation G relation = Ok G' /\ graph_counts G' = graph_counts G.
Proof.
  intros (u & v & attr & Hd & Hu & Hv & Huv). exists (nx.add_edge G u v attr).
  split; [apply Hd | apply add_edge_counts; assumption].
Qed.

(** Merging the entities and relations of a fragment into a graph that
    already holds them leaves its node and edge counts as they were. *)
Lemma merge_into_graph_again (entity_items relation_items : list json)
    (G G1 G2 : nx.DiGraph) :
  for_each add_entity entity_items G = Ok G1 ->
  for_each add_relation relation_items G1 = Ok G2 ->
  exists G3 G4,
    for_each add_entity entity_items G2 = Ok G3
    /\ for_each add_relation relation_items G3 = Ok G4
    /\ graph_counts G4 = graph_counts G2.
Proof.
  intros He Hr.
  assert (Hle12 : graph_le G1 G2).
  { eapply (for_each_grows add_relation graph_le graph_le_refl graph_le_trans
              add_relation_grows), Hr. }
  destruct (for_each_again add_entity graph_le entity_present graph_counts
              add_entity_grows entity_present_mono add_entity_again entity_items G2)
    as (G3 & H3 & Hc3).
  { intros x Hx. eapply entity_present_mono; [exact Hle12|].
    eapply (for_each_present add_entity graph_le entity_present graph_le_refl
              graph_le_trans add_entity_grows entity_present_mono add_entity_present);
      eassumption. }
  assert (Hle23 : graph_le G2 G3).
  { eapply (for_each_grows add_entity graph_le graph_le_refl graph_le_trans
              add_entity_grows), H3. }
  destruct (for_each_again add_relation graph_le relation_present graph_counts
              add_relation_grows relation_present_mono add_relation_again relation_items G3)
    as (G4 & H4 & Hc4).
  { intros x Hx. eapply relation_present_mono; [exact Hle23|].
    eapply (for_each_present add_relation graph_le relation_present graph_le_refl
              graph_le_trans add_relation_grows relation_present_mono add_relation_present);
      eassumption. }
  exists G3, G4. split; [exact H3|]. split; [exact H4 | congruence].
Qed.

(** ** Graph Assembler, persisted *)

Lemma subgraph_le_refl (sub : subgraph) : subgraph_le sub sub.
Proof. split; auto. Qed.

Lemma subgraph_le_trans (s1 s2 s3 : subgraph) :
  subgraph_le s1 s2 -> subgraph_le s2 s3 -> subgraph_le s1 s3.
Proof. intros [H1 H2] [H3 H4]. split; auto. Qed.

Lemma same_edge_key_refl (e : edge_record) : same_edge_key e e = true.
Proof. unfold same_edge_key. rewrite !String.eqb_refl. reflexivity. Qed.

Lemma same_edge_key_enrich (x e e' : edge_record) :
  same_edge_key (enrich x e) e' = same_edge_key x e'.
Proof.
  unfold enrich. destruct (e_poison_text e), (e_poison_text x); reflexivity.
Qed.

Lemma upsert_edge_keeps (existing : list edge_record) (e e' : edge_record) :
  existsb (fun x => same_edge_key x e') existing = true ->
  existsb (fun x => same_edge_key x e') (upsert_edge existing e) = true.
Proof.
  induction existing as [|x rest IH]; simpl; [discriminate|].
  intros H. destruct (same_edge_key x e); simpl.
  - rewrite same_edge_key_enrich. exact H.
  - apply orb_true_iff in H as [H | H]; [rewrite H; reflexivity|].
    rewrite (IH H). apply orb_true_r.
Qed.

Lemma upsert_edge_has (existing : list edge_record) (e : edge_record) :
  existsb (fun x => same_edge_key x e) (upsert_edge existing e) = true.
Proof.
  induction existing as [|x rest IH]; simpl.
  - rewrite same_edge_key_refl. reflexivity.
  - destruct (same_edge_key x e) eqn:Hk; simpl.
    + rewrite same_edge_key_enrich, Hk. reflexivity.
    + rewrite Hk, IH. reflexivity.
Qed.

Lemma upsert_edge_length (existing : list edge_record) (e : edge_record) :
  existsb (fun x => same_edge_key x e) existing = true ->
  length (upsert_edge existing e) = length existing.
Proof.
  induction existing as [|x rest IH]; simpl; [discriminate|].
  destruct (same_edge_key x e); simpl; [reflexivity|].
  intros H. rewrite (IH H). reflexivity.
Qed.

Lemma add_node_record_cases (sub sub' : subgraph) (entity : json) :
  add_node_record sub entity = Ok sub' ->
  exists name n,
    getitem entity "name" = Ok name /\ as_str name = Ok n
    /\ ((has_node_record sub n = true /\ sub' = sub)
        \/ (has_node_record sub n = false
            /\ exists node, n_id node = n
                 /\ sub' = {| nodes := nodes sub ++ [node]; edges := edges sub |})).
Proof.
  unfold add_node_record, has_node_record. intros H.
  destruct (getitem entity "name") as [name|] eqn:Hname; [|discriminate].
  cbn [rbind] in H.
  destruct (as_str name) as [n|] eqn:Hn; [|discriminate]. cbn [rbind] in H.
  exists name, n. split; [reflexivity|]. split; [exact Hn|].
  destruct (existsb (fun node => String.eqb (n_id node) n) (nodes sub)).
  - left. inversion H. split; reflexivity.
  - right. split; [reflexivity|].
    destruct (getitem entity "type") as [type|]; [|discriminate]. cbn [rbind] in H.
    destruct (getitem entity "context_role") as [role|]; [|discriminate].
    cbn [rbind] in H. inversion H. eexists. split; [|reflexivity]. reflexivity.
Qed.

Lemma add_node_record_grows (sub : subgraph) (entity : json) (sub' : subgraph) :
  add_node_record sub entity = Ok sub' -> subgraph_le sub sub'.
Proof.
  intros H. destruct (add_node_record_cases _ _ _ H)
    as (name & n & _ & _ & [[_ ->] | [_ (node & _ & ->)]]); [apply subgraph_le_refl|].
  split; [|auto]. unfold has_node_record. simpl. intros n' Hn.
  rewrite existsb_app, Hn. reflexivity.
Qed.

Lemma add_edge_record_grows (sub : subgraph) (relation : json) (sub' : subgraph) :
  add_edge_record sub relation = Ok sub' -> subgraph_le sub sub'.
Proof.
  unfold add_edge_record. destruct (edge_of_relation relation) as [e|]; [|discriminate].
  cbn [rbind]. intros H. inversion H. split; [auto|].
  unfold has_edge_record. simpl. intros e'. apply upsert_edge_keeps.
Qed.

Lemma node_record_present_mono (sub sub' : subgraph) (entity : json) :
  subgraph_le sub sub' -> node_record_present sub entity -> node_record_present sub' entity.
Proof.
  intros [Hn _] (name & n & H1 & H2 & H3). exists name, n. repeat split; auto.
Qed.

Lemma edge_record_present_mono (sub sub' : subgraph) (relation : json) :
  subgraph_le sub sub' -> edge_record_present sub relation -> edge_record_present sub' relation.
Proof.
  intros [_ He] (e & H1 & H2). exists e. split; auto.
Qed.

Lemma add_node_record_present (sub : subgraph) (entity : json) (sub' : subgraph) :
  add_node_record sub entity = Ok sub' -> node_record_present sub' entity.
Proof.
  intros H. destruct (add_node_record_cases _ _ _ H)
    as (name & n & H1 & H2 & [[Hin ->] | [_ (node & Hid & ->)]]);
    exists name, n; repeat split; try assumption.
  unfold has_node_record. simpl. rewrite existsb_app. simpl.
  rewrite Hid, String.eqb_refl. simpl. apply orb_true_r.
Qed.

Lemma add_edge_record_present (sub : subgraph) (relation : json) (sub' : subgraph) :
  add_edge_record sub relation = Ok sub' -> edge_record_present sub' relation.
Proof.
  unfold add_edge_record, edge_record_present.
  destruct (edge_of_relation relation) as [e|]; [|discriminate].
  cbn [rbind]. intros H. inversion H. exists e. split; [reflexivity|].
  unfold has_edge_record. simpl. apply upsert_edge_has.
Qed.

Lemma add_node_record_again (sub : subgraph) (entity : json) :
  node_record_present sub entity ->
  exists sub', add_node_record sub entity = Ok sub'
               /\ subgraph_counts sub' = subgraph_counts sub.
Proof.
  intros (name & n & H1 & H2 & H3). exists sub. split; [|reflexivity].
  unfold add_node_record. rewrite H1. cbn [rbind]. rewrite H2. cbn [rbind].
  unfold has_node_record in H3. rewrite H3. reflexivity.
Qed.

Lemma add_edge_record_again (sub : subgraph) (relation : json) :
  edge_record_present sub relation ->
  exists sub', add_edge_record sub relation = Ok sub'
               /\ subgraph_counts sub' = subgraph_counts sub.
Proof.
  intros (e & H1 & H2). unfold add_edge_record. rewrite H1. cbn [rbind].
  eexists. split; [reflexivity|]. unfold subgraph_counts. simpl.
  rewrite (upsert_edge_length _ _ H2). reflexivity.
Qed.

Lemma merge_into_subgraph_again (entity_items relation_items : list json)
    (sub sub1 sub2 : subgraph) :
  for_each add_node_record entity_items sub = Ok sub1 ->
  for_each add_edge_record relation_items sub1 = Ok sub2 ->
  exists sub3 sub4,
    for_each add_node_record entity_items sub2 = Ok sub3
    /\ for_each add_edge_record relation_items sub3 = Ok sub4
    /\ subgraph_counts sub4 = subgraph_counts sub2.
Proof.
  intros He Hr.
  assert (Hle12 : subgraph_le sub1 sub2).
  { eapply (for_each_grows add_edge_record subgraph_le subgraph_le_refl
              subgraph_le_trans add_edge_record_grows), Hr. }
  destruct (for_each_again add_node_record subgraph_le node_record_present
              subgraph_counts add_node_record_grows node_record_present_mono
              add_node_record_again entity_items sub2) as (sub3 & H3 & Hc3).
  { intros x Hx. eapply node_record_present_mono; [exact Hle12|].
    eapply (for_each_present add_node_record subgraph_le node_record_present
              subgraph_le_refl subgraph_le_trans add_node_record_grows
              node_record_present_mono add_node_record_present); eassumption. }
  assert (Hle23 : subgraph_le sub2 sub3).
  { eapply (for_each_grows add_node_record subgraph_le subgraph_le_refl
              subgraph_le_trans add_node_record_grows), H3. }
  destruct (for_each_again add_edge_record subgraph_le edge_record_present
              subgraph_counts add_edge_record_grows edge_record_present_mono
              add_edge_record_again relation_items sub3) as (sub4 & H4 & Hc4).
  { intros x Hx. eapply edge_record_present_mono; [exact Hle23|].
    eapply (for_each_present add_edge_record subgraph_le edge_record_present
              subgraph_le_refl subgraph_le_trans add_edge_record_grows
              edge_record_present_mono add_edge_record_present); eassumption. }
  exists sub3, sub4. split; [exact H3|]. split; [exact H4 | congruence].
Qed.

Lemma save_fragment_again (gd0 gd1 : Dict.t subgraph) (data : dict) :
  save_fragment gd0 data = Ok gd1 ->
  exists gd2,
    save_fragment gd1 data = Ok gd2
    /\ length gd2 = length gd1
    /\ forall ce, subgraph_counts (subgraph_of gd2 ce) = subgraph_counts (subgraph_of gd1 ce).
Proof.
  unfold save_fragment.
  destruct (negb (Dict.contains "query_analysis" data)).
  { intros H. inversion H. subst. exists gd1. repeat split. }
  destruct (core_entity_of data) as [ce0|]; cbn [rbind]; [|discriminate].
  destruct (getitem (JObj data) "entities") as [entities|]; cbn [rbind]; [|discriminate].
  destruct (iterate entities) as [entity_items|]; cbn [rbind]; [|discriminate].
  destruct (for_each add_node_record entity_items
              (default {| nodes := []; edges := [] |} (Dict.get ce0 gd0)))
    as [sub1|] eqn:H1; cbn [rbind]; [|discriminate].
  destruct (getitem (JObj data) "relations") as [relations|]; cbn [rbind]; [|discriminate].
  destruct (iterate relations) as [relation_items|]; cbn [rbind]; [|discriminate].
  destruct (for_each add_edge_record relation_items sub1)
    as [sub2|] eqn:H2; cbn [rbind]; [|discriminate].
  intros H. inversion H. subst gd1. clear H.
  rewrite dict_get_set_eq. simpl default.
  destruct (merge_into_subgraph_again _ _ _ _ _ H1 H2) as (sub3 & sub4 & H3 & H4 & Hc).
  rewrite H3. cbn [rbind]. rewrite H4. cbn [rbind].
  eexists. split; [reflexivity|]. split.
  - eapply dict_set_length, dict_get_set_eq.
  - intros ce. unfold subgraph_of. rewrite (dict_get_set ce0 ce sub4).
    destruct (String.eqb ce0 ce) eqn:E; [|reflexivity].
    apply String.eqb_eq in E. subst ce. rewrite dict_get_set_eq. exact Hc.
Qed.

Lemma merge_fragment_again (self self1 : KnowledgeGraphBuilder) (data : dict) :
  merge_fragment self data = Ok self1 ->
  exists self2,
    merge_fragment self1 data = Ok self2
    /\ length (graphs self2) = length (graphs self1)
    /\ (forall ce, graph_counts (graph_of self2 ce) = graph_counts (graph_of self1 ce))
    /\ (data = [] -> self1 = self /\ self2 = self)
    /\ (data <> [] -> all_data self1 = all_data self ++ [data]
                      /\ all_data self2 = all_data self1 ++ [data]).
Proof.
  unfold merge_fragment. destruct data as [|kv data'].
  { intros H. inversion H. subst. exists self1.
    repeat split; try reflexivity; intros; congruence. }
  set (data := kv :: data') in *.
  destruct (core_entity_of data) as [ce0|]; cbn [rbind]; [|discriminate].
  destruct (getitem (JObj data) "entities") as [entities|]; cbn [rbind]; [|discriminate].
  destruct (iterate entities) as [entity_items|]; cbn [rbind]; [|discriminate].
  destruct (for_each add_entity entity_items
              (default nx.empty (Dict.get ce0 (graphs self))))
    as [G1|] eqn:H1; cbn [rbind]; [|discriminate].
  destruct (getitem (JObj data) "relations") as [relations|]; cbn [rbind]; [|discriminate].
  destruct (iterate relations) as [relation_items|]; cbn [rbind]; [|discriminate].
  destruct (for_each add_relation relation_items G1)
    as [G2|] eqn:H2; cbn [rbind]; [|discriminate].
  intros H. inversion H. subst self1. clear H. cbn [graphs all_data failed_queries].
  rewrite dict_get_set_eq. simpl default.
  destruct (merge_into_graph_again _ _ _ _ _ H1 H2) as (G3 & G4 & H3 & H4 & Hc).
  rewrite H3. cbn [rbind]. rewrite H4. cbn [rbind].
  eexists. split; [reflexivity|]. cbn [graphs all_data]. split; [|split; [|split]].
  - eapply dict_set_length, dict_get_set_eq.
  - intros ce. unfold graph_of. cbn [graphs]. rewrite (dict_get_set ce0 ce G4).
    destruct (String.eqb ce0 ce) eqn:E; [|reflexivity].
    apply String.eqb_eq in E. subst ce. rewrite dict_get_set_eq. exact Hc.
  - discriminate.
  - intros _. split; reflexivity.
Qed.

Lemma for_each_snoc {A S : Type} (body : S -> A -> result S) (xs : list A) (x : A)
    (s s' : S) :
  for_each body (xs ++ [x]) s = Ok s' <->
  exists s0, for_each body xs s = Ok s0 /\ body s0 x = Ok s'.
Proof.
  rewrite for_each_app. destruct (for_each body xs s) as [s0|]; simpl.
  - split.
    + intros H. exists s0. split; [reflexivity|].
      destruct (body s0 x); [exact H | discriminate].
    + intros (s1 & H1 & H2). inversion H1. subst. rewrite H2. reflexivity.
  - split; [discriminate | intros (s1 & H1 & _); discriminate].
Qed.

(** C5. Merging a fragment that has just been merged succeeds again and
    adds nothing: every per-core-entity graph keeps its node and edge
    counts and no graph is added, and the persisted structure computed
    from the log with the fragment merged twice has, for every core
    entity, as many nodes and edges as with the fragment merged once. *)
Theorem merge_is_idempotent (self self1 : KnowledgeGraphBuilder) (fragment : dict) :
  merge_fragment self fragment = Ok self1 ->
  exists self2,
    merge_fragment self1 fragment = Ok self2
    /\ length (graphs self2) = length (graphs self1)
    /\ (forall ce,
          nx.number_of_nodes (graph_of self2 ce) = nx.number_of_nodes (graph_of self1 ce)
          /\ nx.number_of_edges (graph_of self2 ce) = nx.number_of_edges (graph_of self1 ce))
    /\ (forall gd1,
          save_knowledge_graph self1 = Ok gd1 ->
          exists gd2,
            save_knowledge_graph self2 = Ok gd2
            /\ length gd2 = length gd1
            /\ forall ce,
                 length (nodes (subgraph_of gd2 ce)) = length (nodes (subgraph_of gd1 ce))
                 /\ length (edges (subgraph_of gd2 ce)) = length (edges (subgraph_of gd1 ce))).
Proof.
  intros H. destruct (merge_fragment_again _ _ _ H)
    as (self2 & H2 & Hlen & Hcounts & Hnil & Hcons).
  exists self2. split; [exact H2|]. split; [exact Hlen|]. split.
  - intros ce. specialize (Hcounts ce). unfold graph_counts in Hcounts.
    inversion Hcounts. split; reflexivity.
  - intros gd1 Hs. unfold save_knowledge_graph in *.
    destruct fragment as [|kv fragment'].
    + destruct (Hnil eq_refl) as [-> ->]. exists gd1. repeat split. exact Hs.
    + destruct Hcons as [Ha1 Ha2]; [discriminate|].
      rewrite Ha1 in Hs. apply for_each_snoc in Hs as (gd0 & Hs0 & Hs1).
      destruct (save_fragment_again _ _ _ Hs1) as (gd2 & Hs2 & Hl & Hc).
      exists gd2. split; [|split; [exact Hl|]].
      * rewrite Ha2. apply for_each_snoc. exists gd1. split; [|exact Hs2].
        rewrite Ha1. apply for_each_snoc. exists gd0. split; assumption.
      * intros ce. specialize (Hc ce). unfold subgraph_counts in Hc.
        inversion Hc. split; reflexivity.
Qed.

Lemma merge_is_idempotent_witness :
  merge_fragment new_KnowledgeGraphBuilder fragment_with_two_core_answers = Ok merged_once
  /\ exists self2,
       merge_fragment merged_once fragment_with_two_core_answers = Ok self2
       /\ length (graphs self2) = length (graphs merged_once)
       /\ (forall ce,
             nx.number_of_nodes (graph_of self2 ce)
             = nx.number_of_nodes (graph_of merged_once ce)
             /\ nx.number_of_edges (graph_of self2 ce)
                = nx.number_of_edges (graph_of merged_once ce))
       /\ (forall gd1,
             save_knowledge_graph merged_once = Ok gd1 ->
             exists gd2,
               save_knowledge_graph self2 = Ok gd2
               /\ length gd2 = length gd1
               /\ forall ce,
                    length (nodes (subgraph_of gd2 ce))
                    = length (nodes (subgraph_of gd1 ce))
                    /\ length (edges (subgraph_of gd2 ce))
                       = length (edges (subgraph_of gd1 ce))).
Proof.
  split; [reflexivity|].
  exact (merge_is_idempotent new_KnowledgeGraphBuilder merged_once
           fragment_with_two_core_answers eq_refl).
Defined.

(** The counts themselves, on the two-relation fragment: three nodes and
    two edges after one merge and after two, in memory and persisted. *)
Example merge_twice_counts :
  match merge_fragment merged_once fragment_with_two_core_answers with
  | Ok self2 =>
      graph_counts (graph_of merged_once "FAIR") = (3, 2)
      /\ graph_counts (graph_of self2 "FAIR") = (3, 2)
      /\ length (all_data self2) = 2
      /\ match save_knowledge_graph self2 with
         | Ok graph_data => subgraph_counts (subgraph_of graph_data "FAIR") = (3, 2)
         | Raise _ => False
         end
  | Raise _ => False
  end.
Proof. vm_compute. repeat split. Qed.

(** ** Poison enrichment *)

Lemma upsert_edge_find (existing : list edge_record) (e old : edge_record) :
  find (fun x => same_edge_key x e) existing = Some old ->
  find (fun x => same_edge_key x e) (upsert_edge existing e) = Some (enrich old e).
Proof.
  induction existing as [|x rest IH]; simpl; [discriminate|].
  destruct (same_edge_key x e) eqn:Hk; simpl.
  - intros H. inversion H. subst. rewrite same_edge_key_enrich, Hk. reflexivity.
  - rewrite Hk. exact IH.
Qed.

Lemma existsb_of_find {A : Type} (f : A -> bool) (l : list A) (x : A) :
  find f l = Some x -> existsb f l = true.
Proof.
  intros H. apply find_some in H as [Hin Hf].
  apply existsb_exists. exists x. split; assumption.
Qed.

Lemma edge_of_relation_poison (relation : json) (e : edge_record) :
  edge_of_relation relation = Ok e ->
  e_poison_text e
  = if marked_core_answer relation then poison_text_of relation else None.
Proof.
  unfold edge_of_relation. destruct relation; try discriminate. simpl.
  repeat match goal with
         | |- context [match Dict.get ?k members with _ => _ end] =>
             destruct (Dict.get k members); cbn [rbind]; [|discriminate]
         end.
  repeat match goal with
         | |- context [as_str ?v] => destruct (as_str v); cbn [rbind]; [|discriminate]
         end.
  intros H. inversion H. reflexivity.
Qed.

Lemma edge_attrs_of_cases (relation : json) (edge_attrs : dict) :
  edge_attrs_of relation = Ok edge_attrs ->
  exists rel intent flag,
    edge_attrs
    = [("relation", rel); ("context_intent", intent); ("is_core_answer", flag)]
      ++ (if marked_core_answer relation
          then match poison_text_of relation with
               | Some p => [("poison_text", p)]
               | None => []
               end
          else []).
Proof.
  unfold edge_attrs_of. destruct relation; try discriminate. simpl.
  destruct (Dict.get "relation" members) as [rel|]; cbn [rbind]; [|discriminate].
  destruct (Dict.get "context_intent" members) as [intent|]; cbn [rbind]; [|discriminate].
  destruct (Dict.get "poison_text" members) as [p|];
    destruct (eq_True (Dict.get "is_core_answer" members));
    intros H; inversion H; eexists _, _, _; reflexivity.
Qed.

Lemma ensure_node_get (G : nx.DiGraph) (n n' : string) :
  nx.has_node G n' = true -> Dict.get n' (nx.ensure_node G n) = Dict.get n' G.
Proof.
  intros H. unfold nx.ensure_node. destruct (nx.has_node G n) eqn:Hn; [reflexivity|].
  rewrite dict_get_set. destruct (String.eqb n n') eqn:E; [|reflexivity].
  apply String.eqb_eq in E. subst. congruence.
Qed.

Lemma list_sum_snoc (l : list nat) (x : nat) : list_sum (l ++ [x]) = list_sum l + x.
Proof. rewrite list_sum_app. simpl. lia. Qed.

Lemma ensure_node_edges (G : nx.DiGraph) (n : string) :
  nx.number_of_edges (nx.ensure_node G n) = nx.number_of_edges G.
Proof.
  unfold nx.ensure_node. destruct (nx.has_node G n) eqn:Hn; [reflexivity|].
  unfold nx.number_of_edges.
  rewrite (dict_set_map_new (fun e => length (nx.succ e))).
  - rewrite list_sum_snoc. simpl. lia.
  - unfold nx.has_node, Dict.contains in Hn. destruct (Dict.get n G); [discriminate|reflexivity].
Qed.

(** Adding an edge that exists updates its attribute dict in place. *)
Lemma add_edge_existing (G : nx.DiGraph) (u v : string) (attr old : dict) :
  nx.get_edge_data G u v = Some old ->
  nx.get_edge_data (nx.add_edge G u v attr) u v = Some (Dict.update old attr)
  /\ nx.number_of_edges (nx.add_edge G u v attr) = nx.number_of_edges G.
Proof.
  intros Hold. unfold nx.add_edge.
  assert (Hu : nx.has_node G u = true).
  { unfold nx.get_edge_data in Hold. unfold nx.has_node, Dict.contains.
    destruct (Dict.get u G); [reflexivity | discriminate]. }
  assert (Hens : nx.ensure_node G u = G).
  { unfold nx.ensure_node. rewrite Hu. reflexivity. }
  rewrite Hens. rewrite (ensure_node_get G v u Hu).
  unfold nx.get_edge_data in Hold.
  destruct (Dict.get u G) as [e|] eqn:Hget; [|discriminate].
  rewrite Hold. simpl default. split.
  - rewrite get_edge_data_set, String.eqb_refl. simpl. apply dict_get_set_eq.
  - rewrite <- (ensure_node_edges G v). unfold nx.number_of_edges. f_equal.
    apply (dict_set_map (fun e0 => length (nx.succ e0)) u _ e).
    + rewrite (ensure_node_get G v u Hu). exact Hget.
    + simpl. eapply dict_set_length, Hold.
Qed.

Lemma update_without_poison (old : dict) (rel intent flag : json) :
  Dict.get "poison_text"
    (Dict.update old ([("relation", rel); ("context_intent", intent);
                       ("is_core_answer", flag)] ++ []))
  = Dict.get "poison_text" old.
Proof.
  unfold Dict.update. simpl. rewrite !dict_get_set_ne by discriminate. reflexivity.
Qed.

Lemma update_with_poison (old : dict) (rel intent flag p : json) :
  Dict.get "poison_text"
    (Dict.update old ([("relation", rel); ("context_intent", intent);
                       ("is_core_answer", flag)] ++ [("poison_text", p)]))
  = Some p.
Proof. unfold Dict.update. simpl. apply dict_get_set_eq. Qed.

(** C8, as the code has it. Merging a relation whose key [(source,
    target, relation)] is that of an existing edge adds no edge, never
    removes a [poison_text] the edge has, and puts the relation's
    [poison_text] onto an edge that has none when the relation is marked
    [is_core_answer = true]; this holds for the persisted edge list, where
    an existing [poison_text] keeps its value, and for the graph in
    memory, where a marked relation's [poison_text] replaces it. *)
Theorem poison_enrichment_is_monotone (relation : json) :
  (forall (existing : list edge_record) (e old : edge_record),
     edge_of_relation relation = Ok e ->
     find (fun x => same_edge_key x e) existing = Some old ->
     length (upsert_edge existing e) = length existing
     /\ exists new,
          find (fun x => same_edge_key x e) (upsert_edge existing e) = Some new
          /\ (forall p, e_poison_text old = Some p -> e_poison_text new = Some p)
          /\ (forall p, e_poison_text old = None ->
                        marked_core_answer relation = true ->
                        poison_text_of relation = Some p ->
                        e_poison_text new = Some p))
  /\
  (forall (G G' : nx.DiGraph) (u v : string) (old : dict),
     add_relation G relation = Ok G' ->
     getitem relation "source" = Ok (JStr u) ->
     getitem relation "target" = Ok (JStr v) ->
     nx.get_edge_data G u v = Some old ->
     nx.number_of_edges G' = nx.number_of_edges G
     /\ exists new,
          nx.get_edge_data G' u v = Some new
          /\ (Dict.contains "poison_text" old = true ->
              Dict.contains "poison_text" new = true)
          /\ (forall p, Dict.get "poison_text" old = Some p ->
                        poison_text_of relation = None ->
                        Dict.get "poison_text" new = Some p)
          /\ (forall p, marked_core_answer relation = true ->
                        poison_text_of relation = Some p ->
                        Dict.get "poison_text" new = Some p)).
Proof.
  split.
  - intros existing e old He Hfind. split.
    + apply upsert_edge_length. eapply existsb_of_find, Hfind.
    + exists (enrich old e). split; [apply upsert_edge_find, Hfind|].
      pose proof (edge_of_relation_poison _ _ He) as Hp. unfold enrich. split.
      * intros p Hold. rewrite Hold. destruct (e_poison_text e); exact Hold.
      * intros p Hold Hm Hrel. rewrite Hp, Hm, Hrel, Hold. reflexivity.
  - intros G G' u v old Hadd Hs Ht Hold. unfold add_relation in Hadd.
    destruct (edge_attrs_of relation) as [edge_attrs|] eqn:Hattrs; [|discriminate].
    cbn [rbind] in Hadd. rewrite Hs, Ht in Hadd. simpl in Hadd.
    inversion Hadd. subst G'. clear Hadd.
    destruct (add_edge_existing G u v edge_attrs old Hold) as [Hnew Hcount].
    split; [exact Hcount|]. exists (Dict.update old edge_attrs).
    split; [exact Hnew|].
    destruct (edge_attrs_of_cases _ _ Hattrs) as (rel & intent & flag & ->).
    split; [|split].
    + unfold Dict.contains.
      destruct (marked_core_answer relation);
        [destruct (poison_text_of relation)|].
      * rewrite update_with_poison. reflexivity.
      * rewrite update_without_poison. auto.
      * rewrite update_without_poison. auto.
    + intros p Hp Hnone. rewrite Hnone.
      destruct (marked_core_answer relation);
        rewrite update_without_poison; exact Hp.
    + intros p Hm Hp. rewrite Hm, Hp. apply update_with_poison.
Qed.

Lemma poison_enrichment_is_monotone_witness :
  edge_of_relation marked_relation_with_poison_text
  = Ok {| e_source := "FAIR"; e_target := "leader"; e_relation := "led_by";
          e_context_intent := JStr "intent"; e_is_core_answer := JBool true;
          e_poison_text := Some (JStr "YANN LECUN") |}
  /\ find (fun x => same_edge_key x plain_edge) [plain_edge] = Some plain_edge
  /\ nx.get_edge_data (nx.add_edge nx.empty "FAIR" "leader" plain_edge_attrs)
       "FAIR" "leader" = Some plain_edge_attrs
  /\ length (upsert_edge [plain_edge]
               {| e_source := "FAIR"; e_target := "leader"; e_relation := "led_by";
                  e_context_intent := JStr "intent"; e_is_core_answer := JBool true;
                  e_poison_text := Some (JStr "YANN LECUN") |}) = 1
  /\ nx.number_of_edges
       (nx.add_edge (nx.add_edge nx.empty "FAIR" "leader" plain_edge_attrs)
          "FAIR" "leader"
          (plain_edge_attrs_marked "YANN LECUN")) = 1.
Proof.
  split; [reflexivity|]. split; [reflexivity|]. split; [reflexivity|]. split.
  - exact (proj1 (proj1 (poison_enrichment_is_monotone marked_relation_with_poison_text)
                    [plain_edge] _ plain_edge eq_refl eq_refl)).
  - exact (proj1 (proj2 (poison_enrichment_is_monotone marked_relation_with_poison_text)
                    (nx.add_edge nx.empty "FAIR" "leader" plain_edge_attrs) _
                    "FAIR" "leader" plain_edge_attrs eq_refl eq_refl eq_refl eq_refl)).
Defined.

(** C8 as stated fails for a relation that carries a [poison_text]
    without being marked as the core answer: merged onto an equal-keyed
    edge without [poison_text], it leaves the edge without one, in the
    persisted edge list and in the graph in memory. *)
Lemma unmarked_poison_text_is_not_copied :
  poison_text_of unmarked_relation_with_poison_text = Some (JStr "YANN LECUN")
  /\ (sub <- add_edge_record empty_subgraph plain_relation ;;
      add_edge_record sub unmarked_relation_with_poison_text)
     = Ok {| nodes := []; edges := [plain_edge] |}
  /\ (G <- add_relation nx.empty plain_relation ;;
      G' <- add_relation G unmarked_relation_with_poison_text ;;
      Ok (nx.get_edge_data G "FAIR" "leader", nx.get_edge_data G' "FAIR" "leader"))
     = Ok (Some plain_edge_attrs, Some plain_edge_attrs).
Proof. repeat split. Qed.

(** ** Path Enumerator *)

Lemma dfs_unfold (fuel : nat) (G : nx.DiGraph) (current_node : string) (st : dfs_state) :
  dfs (S fuel) G current_node st =
  match nx.out_degree G current_node with
  | Some 0 => Ok (if nonempty (current_path st) then record_path st else st)
  | _ =>
      adj <- nx.adjacency G current_node ;;
      if forallb (fun successor => bool_decide (successor ∈ visited st)) (Dict.keys adj)
         && nonempty (current_path st)
      then Ok (record_path st)
      else for_each (visit (dfs fuel G) current_node) adj st
  end.
Proof. reflexivity. Qed.

Lemma dfs_post_refl (root : string) (st : dfs_state) : dfs_post root st st.
Proof.
  split; [reflexivity|]. split; [reflexivity|].
  exists []. rewrite app_nil_r. split; [reflexivity | constructor].
Qed.

Lemma dfs_post_trans (root : string) (st1 st2 st3 : dfs_state) :
  dfs_post root st1 st2 -> dfs_post root st2 st3 -> dfs_post root st1 st3.
Proof.
  intros (Hv1 & Hp1 & new1 & Ha1 & Hn1) (Hv2 & Hp2 & new2 & Ha2 & Hn2).
  split; [congruence|]. split; [congruence|].
  exists (new1 ++ new2). split.
  - rewrite Ha2, Ha1, app_assoc. reflexivity.
  - apply Forall_app. split; assumption.
Qed.

Lemma dfs_post_record (root : string) (st : dfs_state) :
  NoDup (path_nodes root (current_path st)) -> dfs_post root st (record_path st).
Proof.
  intros H. split; [reflexivity|]. split; [reflexivity|].
  exists [current_path st]. split; [reflexivity|]. constructor; [exact H | constructor].
Qed.

Lemma dict_get_in {V : Type} (k : string) (d : Dict.t V) (v : V) :
  Dict.get k d = Some v -> In (k, v) d.
Proof.
  induction d as [|[k' v'] d IH]; simpl; [discriminate|].
  destruct (String.eqb k' k) eqn:E.
  - intros H. inversion H. apply String.eqb_eq in E. subst. left. reflexivity.
  - intros H. right. apply IH, H.
Qed.

Lemma successor_is_target (G : nx.DiGraph) (n : string) (e : nx.node_entry)
    (kv : string * dict) :
  Dict.get n G = Some e -> In kv (nx.succ e) -> fst kv ∈ all_targets G.
Proof.
  intros Hget Hin. unfold all_targets. apply elem_of_list_to_set.
  apply list_elem_of_In. apply in_flat_map. exists (n, e).
  split; [apply dict_get_in, Hget|]. simpl. unfold Dict.keys.
  apply in_map, Hin.
Qed.

Lemma successor_is_node (G : nx.DiGraph) (n : string) (e : nx.node_entry)
    (kv : string * dict) :
  closed_graph G = true -> Dict.get n G = Some e -> In kv (nx.succ e) ->
  nx.has_node G (fst kv) = true.
Proof.
  unfold closed_graph. intros Hc Hget Hin.
  rewrite forallb_forall in Hc. specialize (Hc (n, e) (dict_get_in _ _ _ Hget)).
  simpl in Hc. rewrite forallb_forall in Hc. apply Hc.
  unfold Dict.keys. apply in_map, Hin.
Qed.

(** The loop over the successors, given that the recursive calls with
    the remaining fuel behave. *)
Lemma visit_loop (root : string) (G : nx.DiGraph) (fuel : nat) (current_node : string) :
  (forall cur st,
     dfs_inv root G fuel st ->
     match dfs fuel G cur st with
     | Ok st' => dfs_post root st st'
     | Raise e => e = NetworkXError
                  /\ (closed_graph G = false \/ nx.has_node G cur = false)
     end) ->
  forall (items : list (string * dict)) (st : dfs_state),
    dfs_inv root G (S fuel) st ->
    (forall kv, In kv items -> fst kv ∈ all_targets G) ->
    (closed_graph G = true -> forall kv, In kv items -> nx.has_node G (fst kv) = true) ->
    match for_each (visit (dfs fuel G) current_node) items st with
    | Ok st' => dfs_post root st st'
    | Raise e => e = NetworkXError /\ closed_graph G = false
    end.
Proof.
  intros IH. induction items as [|[s data] items IHitems]; intros st Hinv Htargets Hnodes.
  - simpl. apply dfs_post_refl.
  - cbn [for_each]. unfold visit at 1. cbn [fst snd].
    assert (Hrest_t : forall kv, In kv items -> fst kv ∈ all_targets G).
    { intros kv Hkv. apply Htargets. right. exact Hkv. }
    assert (Hrest_n : closed_graph G = true ->
                      forall kv, In kv items -> nx.has_node G (fst kv) = true).
    { intros Hc kv Hkv. apply Hnodes; [exact Hc | right; exact Hkv]. }
    destruct (bool_decide (s ∈ visited st)) eqn:Hs.
    + cbn [rbind]. apply IHitems; assumption.
    + apply bool_decide_eq_false in Hs.
      destruct Hinv as (Hnodup & Hvis & Hsize).
      set (st1 := {| visited := visited st ∪ {[s]};
                     current_path := current_path st ++ [(current_node, s, data)];
                     all_paths := all_paths st |}).
      assert (Hnodes1 : path_nodes root (current_path st1)
                        = path_nodes root (current_path st) ++ [s]).
      { unfold path_nodes. simpl. rewrite map_app. reflexivity. }
      assert (Hin_t : s ∈ all_targets G).
      { apply (Htargets (s, data)). left. reflexivity. }
      assert (Hinv1 : dfs_inv root G fuel st1).
      { split; [|split].
        - rewrite Hnodes1. apply NoDup_app. split; [exact Hnodup|]. split.
          + intros x Hx Hx'. apply list_elem_of_singleton in Hx'. subst x.
            apply Hs. rewrite Hvis. apply elem_of_list_to_set. exact Hx.
          + apply NoDup_singleton.
        - rewrite Hnodes1, list_to_set_snoc_L, <- Hvis. reflexivity.
        - assert (Hsub : all_targets G ∖ visited st1 ⊂ all_targets G ∖ visited st).
          { simpl. clear - Hs Hin_t. set_solver. }
          apply subset_size in Hsub. lia. }
      specialize (IH s st1 Hinv1).
      destruct (dfs fuel G s st1) as [st2|e].
      * cbn [rbind]. destruct IH as (Hv2 & Hp2 & new & Ha2 & Hnew).
        set (st3 := {| visited := visited st2 ∖ {[s]};
                       current_path := removelast (current_path st2);
                       all_paths := all_paths st2 |}).
        assert (Hpost : dfs_post root st st3).
        { split; [|split].
          - simpl. rewrite Hv2. simpl. clear - Hs. set_solver.
          - simpl. rewrite Hp2. simpl. apply removelast_last.
          - exists new. split; [exact Ha2 | exact Hnew]. }
        assert (Hinv3 : dfs_inv root G (S fuel) st3).
        { destruct Hpost as (Hv3 & Hp3 & _). unfold dfs_inv.
          rewrite Hv3, Hp3. split; [exact Hnodup|]. split; [exact Hvis | exact Hsize]. }
        specialize (IHitems st3 Hinv3 Hrest_t Hrest_n).
        destruct (for_each (visit (dfs fuel G) current_node) items st3) as [st'|e'].
        -- eapply dfs_post_trans; eassumption.
        -- exact IHitems.
      * cbn [rbind]. destruct IH as [-> [Hc | Hn]]; split; try reflexivity; try exact Hc.
        destruct (closed_graph G) eqn:Hc; [|reflexivity].
        pose proof (Hnodes eq_refl (s, data) (or_introl eq_refl)) as Hn'.
        simpl in Hn'. congruence.
Qed.

(** A call of [dfs] whose fuel exceeds the number of edge targets not
    yet on the path returns, with [visited] and [current_path] restored;
    it raises only where the graph has a successor that is not a node, or
    when started outside the graph. *)
Lemma dfs_behaves (root : string) (G : nx.DiGraph) (fuel : nat) :
  forall cur st,
    dfs_inv root G fuel st ->
    match dfs fuel G cur st with
    | Ok st' => dfs_post root st st'
    | Raise e => e = NetworkXError
                 /\ (closed_graph G = false \/ nx.has_node G cur = false)
    end.
Proof.
  induction fuel as [|fuel IH]; intros cur st Hinv.
  { destruct Hinv as (_ & _ & Hsize). lia. }
  rewrite dfs_unfold. unfold nx.out_degree, nx.adjacency.
  destruct (Dict.get cur G) as [e|] eqn:Hget.
  - destruct (length (nx.succ e)) eqn:Hlen.
    + destruct (nonempty (current_path st)); [|apply dfs_post_refl].
      apply dfs_post_record, Hinv.
    + cbn [rbind].
      destruct (forallb _ _ && nonempty (current_path st)).
      * apply dfs_post_record, Hinv.
      * pose proof (visit_loop root G fuel cur IH (nx.succ e) st Hinv) as Hloop.
        destruct (for_each (visit (dfs fuel G) cur) (nx.succ e) st) as [st'|e'].
        -- apply Hloop.
           ++ intros kv Hkv. eapply successor_is_target; eassumption.
           ++ intros Hc kv Hkv. eapply successor_is_node; eassumption.
        -- destruct Hloop as [-> Hc].
           ++ intros kv Hkv. eapply successor_is_target; eassumption.
           ++ intros Hc kv Hkv. eapply successor_is_node; eassumption.
           ++ split; [reflexivity | left; exact Hc].
  - cbn [rbind]. split; [reflexivity|]. right.
    unfold nx.has_node, Dict.contains. rewrite Hget. reflexivity.
Qed.

Lemma visit_loop_more_fuel (G : nx.DiGraph) (fuel : nat) (current_node : string) :
  (forall cur st r, dfs fuel G cur st = r -> r <> Raise OutOfFuel ->
                    dfs (S fuel) G cur st = r) ->
  forall (items : list (string * dict)) (st : dfs_state) (r : result dfs_state),
    for_each (visit (dfs fuel G) current_node) items st = r ->
    r <> Raise OutOfFuel ->
    for_each (visit (dfs (S fuel) G) current_node) items st = r.
Proof.
  intros IH. induction items as [|[s data] items IHitems]; intros st r Hr Hne.
  - exact Hr.
  - cbn [for_each] in *. unfold visit at 1 in Hr. unfold visit at 1. cbn [fst snd] in *.
    destruct (bool_decide (s ∈ visited st)).
    + cbn [rbind] in *. apply IHitems; assumption.
    + match type of Hr with
      | context [dfs fuel G s ?st1] =>
          destruct (dfs fuel G s st1) as [st2|e] eqn:Hd
      end.
      * rewrite (IH _ _ _ Hd) by discriminate. cbn [rbind] in *.
        apply IHitems; assumption.
      * cbn [rbind] in Hr. subst r. rewrite (IH _ _ _ Hd) by exact Hne. reflexivity.
Qed.

Lemma dfs_more_fuel (G : nx.DiGraph) (fuel : nat) :
  forall cur st r, dfs fuel G cur st = r -> r <> Raise OutOfFuel ->
                   dfs (S fuel) G cur st = r.
Proof.
  induction fuel as [|fuel IH]; intros cur st r Hr Hne.
  { simpl in Hr. congruence. }
  rewrite dfs_unfold in *.
  destruct (nx.out_degree G cur) as [[|n]|]; try exact Hr;
    (destruct (nx.adjacency G cur) as [adj|]; [|exact Hr]);
    cbn [rbind] in *;
    (destruct (forallb _ _ && nonempty (current_path st)); [exact Hr|]);
    apply visit_loop_more_fuel; assumption.
Qed.

Lemma dfs_enough_fuel (G : nx.DiGraph) (fuel fuel' : nat) :
  fuel <= fuel' ->
  forall cur st r, dfs fuel G cur st = r -> r <> Raise OutOfFuel ->
                   dfs fuel' G cur st = r.
Proof.
  induction 1 as [|fuel' Hle IH]; intros cur st r Hr Hne; [exact Hr|].
  apply dfs_more_fuel; [apply IH|]; assumption.
Qed.

Lemma size_list_to_set_le (l : list string) :
  size (list_to_set l : gset string) <= length l.
Proof.
  induction l as [|x l IH].
  - rewrite list_to_set_nil, size_empty. simpl. lia.
  - rewrite list_to_set_cons, size_union_alt, size_singleton. simpl.
    assert (size (list_to_set l ∖ {[x]} : gset string) <= size (list_to_set l : gset string)).
    { apply subseteq_size. set_solver. }
    lia.
Qed.

Lemma all_targets_size (G : nx.DiGraph) : size (all_targets G) <= nx.number_of_edges G.
Proof.
  unfold all_targets, nx.number_of_edges.
  etransitivity; [apply size_list_to_set_le|].
  rewrite length_flat_map. apply Nat.eq_le_incl. f_equal.
  apply map_ext. intros kv. unfold Dict.keys. apply length_map.
Qed.

Lemma initial_dfs_inv (G : nx.DiGraph) (root : string) :
  dfs_inv root G (S (nx.number_of_edges G))
    {| visited := {[root]}; current_path := []; all_paths := [] |}.
Proof.
  split; [|split]; simpl.
  - apply NoDup_singleton.
  - unfold path_nodes. simpl. set_solver.
  - pose proof (all_targets_size G).
    assert (size (all_targets G ∖ {[root]}) <= size (all_targets G)).
    { apply subseteq_size. set_solver. }
    lia.
Qed.

(** Every graph the library operations build has all its successors among
    its nodes. *)
Lemma forallb_dict_set {V : Type} (P : string * V -> bool) (k : string) (v : V)
    (d : Dict.t V) :
  forallb P d = true -> P (k, v) = true -> forallb P (Dict.set k v d) = true.
Proof.
  intros Hd Hv. induction d as [|[k' v'] d IH]; simpl in *.
  - rewrite Hv. reflexivity.
  - apply andb_true_iff in Hd as [Hk Hd].
    destruct (String.eqb k' k) eqn:E; simpl.
    + apply String.eqb_eq in E. subst k'. rewrite Hv, Hd. reflexivity.
    + rewrite Hk, (IH Hd). reflexivity.
Qed.

Lemma in_keys_set {V : Type} (k k' : string) (v : V) (d : Dict.t V) :
  In k' (Dict.keys (Dict.set k v d)) -> k' = k \/ In k' (Dict.keys d).
Proof.
  unfold Dict.keys. induction d as [|[k0 v0] d IH]; simpl.
  - intros [<- | []]. left. reflexivity.
  - destruct (String.eqb k0 k); simpl.
    + intros [<- | H]; right; [left; reflexivity | right; exact H].
    + intros [<- | H]; [right; left; reflexivity|].
      destruct (IH H) as [-> | H']; [left; reflexivity | right; right; exact H'].
Qed.

Lemma closed_graph_set (G : nx.DiGraph) (n : string) (e : nx.node_entry) :
  closed_graph G = true ->
  (forall v, In v (Dict.keys (nx.succ e)) -> v = n \/ nx.has_node G v = true) ->
  closed_graph (Dict.set n e G) = true.
Proof.
  unfold closed_graph. intros Hc He. apply forallb_dict_set.
  - rewrite forallb_forall in *. intros kv Hkv. specialize (Hc kv Hkv).
    rewrite forallb_forall in *. intros v Hv.
    rewrite has_node_set, (Hc v Hv). apply orb_true_r.
  - simpl. apply forallb_forall. intros v Hv. rewrite has_node_set.
    destruct (He v Hv) as [-> | H]; [rewrite String.eqb_refl | rewrite H, orb_true_r];
      reflexivity.
Qed.

Lemma closed_graph_entry (G : nx.DiGraph) (n : string) (e : nx.node_entry) (v : string) :
  closed_graph G = true -> Dict.get n G = Some e -> In v (Dict.keys (nx.succ e)) ->
  nx.has_node G v = true.
Proof.
  unfold closed_graph. intros Hc Hget Hv. rewrite forallb_forall in Hc.
  specialize (Hc (n, e) (dict_get_in _ _ _ Hget)). simpl in Hc.
  rewrite forallb_forall in Hc. apply Hc, Hv.
Qed.

Lemma add_node_closed (G : nx.DiGraph) (n : string) (attr : dict) :
  closed_graph G = true -> closed_graph (nx.add_node G n attr) = true.
Proof.
  intros Hc. unfold nx.add_node. destruct (Dict.get n G) as [e|] eqn:Hget;
    apply closed_graph_set; try exact Hc; simpl.
  - intros v Hv. right. eapply closed_graph_entry; eassumption.
  - intros v [].
Qed.

Lemma ensure_node_closed (G : nx.DiGraph) (n : string) :
  closed_graph G = true -> closed_graph (nx.ensure_node G n) = true.
Proof.
  intros Hc. unfold nx.ensure_node. destruct (nx.has_node G n); [exact Hc|].
  apply closed_graph_set; [exact Hc|]. simpl. intros v [].
Qed.

Lemma add_edge_closed (G : nx.DiGraph) (u v : string) (attr : dict) :
  closed_graph G = true -> closed_graph (nx.add_edge G u v attr) = true.
Proof.
  intros Hc. unfold nx.add_edge.
  set (G' := nx.ensure_node (nx.ensure_node G u) v).
  assert (Hc' : closed_graph G' = true) by (apply ensure_node_closed, ensure_node_closed, Hc).
  destruct (Dict.get u G') as [e|] eqn:Hget; [|exact Hc'].
  apply closed_graph_set; [exact Hc'|]. simpl. intros v' Hv'. right.
  apply in_keys_set in Hv' as [-> | Hv'].
  - apply ensure_node_has.
  - eapply closed_graph_entry; eassumption.
Qed.

Lemma build_networkx_graph_closed (subgraph_data : json) (G : nx.DiGraph) :
  build_networkx_graph subgraph_data = Ok G -> closed_graph G = true.
Proof.
  unfold build_networkx_graph.
  destruct (get_method subgraph_data "nodes") as [node_list|]; cbn [rbind]; [|discriminate].
  destruct (iterate (default (JArr []) node_list)) as [node_items|]; cbn [rbind];
    [|discriminate].
  destruct (for_each add_graph_node node_items nx.empty) as [G1|] eqn:H1; cbn [rbind];
    [|discriminate].
  destruct (get_method subgraph_data "edges") as [edge_list|]; cbn [rbind]; [|discriminate].
  destruct (iterate (default (JArr []) edge_list)) as [edge_items|]; cbn [rbind];
    [|discriminate].
  apply (for_each_invariant (fun G0 => closed_graph G0 = true)).
  - intros G0 edge G0' Hc. unfold add_graph_edge.
    destruct (getitem edge "source") as [source|]; cbn [rbind]; [|discriminate].
    destruct (getitem edge "target") as [target|]; cbn [rbind]; [|discriminate].
    destruct edge; try discriminate.
    destruct (_ || _); [discriminate|].
    destruct (as_str source) as [u|]; cbn [rbind]; [|discriminate].
    destruct (as_str target) as [v|]; cbn [rbind]; [|discriminate].
    intros H. inversion H. apply add_edge_closed, Hc.
  - revert H1. apply (for_each_invariant (fun G0 => closed_graph G0 = true)); [|reflexivity].
    intros G0 node G0' Hc. unfold add_graph_node.
    destruct (getitem node "id") as [node_id|]; cbn [rbind]; [|discriminate].
    destruct node; try discriminate.
    destruct (Dict.contains _ _); [discriminate|].
    destruct (as_str node_id) as [n|]; cbn [rbind]; [|discriminate].
    intros H. inversion H. apply add_node_closed, Hc.
Qed.

(** C7. Path enumeration terminates on every graph: the search never
    exhausts the fuel the model gives it, any larger amount yields the
    same result, and on a graph whose successors are all nodes, as is
    every graph read by [build_networkx_graph], it returns a list of
    paths from any root in the graph.  No returned path goes
    through a node twice, the root included.  On the cycle A -> B -> A it
    returns the one path that stops at B, where the only successor is
    the root again. *)
Theorem path_enumeration_terminates (G : nx.DiGraph) (root : string) :
  extract_all_paths G root <> Raise OutOfFuel
  /\ (forall fuel, S (nx.number_of_edges G) <= fuel ->
                  extract_all_paths_fuel fuel G root = extract_all_paths G root)
  /\ (closed_graph G = true -> nx.has_node G root = true ->
      exists paths, extract_all_paths G root = Ok paths)
  /\ (forall subgraph_data,
        build_networkx_graph subgraph_data = Ok G -> nx.has_node G root = true ->
        exists paths, extract_all_paths G root = Ok paths)
  /\ (forall paths, extract_all_paths G root = Ok paths ->
                   Forall (fun p => NoDup (path_nodes root p)) paths)
  /\ extract_all_paths cycle_graph "A" = Ok [[("A", "B", chain_attrs "ab")]].
Proof.
  pose proof (dfs_behaves root G _ root _ (initial_dfs_inv G root)) as H.
  unfold extract_all_paths, extract_all_paths_fuel.
  destruct (dfs (S (nx.number_of_edges G)) G root
              {| visited := {[root]}; current_path := []; all_paths := [] |})
    as [st'|e] eqn:Hd.
  - split; [discriminate|]. split; [|split; [|split; [|split]]].
    + intros fuel Hle. rewrite (dfs_enough_fuel G _ fuel Hle _ _ _ Hd) by discriminate.
      reflexivity.
    + intros _ _. eexists. reflexivity.
    + intros _ _ _. eexists. reflexivity.
    + intros paths Hp. cbn [rbind] in Hp. inversion Hp. subst paths.
      destruct H as (_ & _ & new & Hnew & Hall). simpl in Hnew. subst. exact Hall.
    + reflexivity.
  - destruct H as [-> Hwhy]. split; [discriminate|]. split; [|split; [|split; [|split]]].
    + intros fuel Hle. rewrite (dfs_enough_fuel G _ fuel Hle _ _ _ Hd) by discriminate.
      reflexivity.
    + intros Hc Hn. destruct Hwhy; congruence.
    + intros sd Hb Hn. pose proof (build_networkx_graph_closed _ _ Hb).
      destruct Hwhy; congruence.
    + discriminate.
    + reflexivity.
Qed.

Lemma path_enumeration_terminates_witness :
  closed_graph cycle_graph = true
  /\ nx.has_node cycle_graph "A" = true
  /\ (exists paths, extract_all_paths cycle_graph "A" = Ok paths)
  /\ Forall (fun p => NoDup (path_nodes "A" p)) [[("A", "B", chain_attrs "ab")]].
Proof.
  split; [reflexivity|]. split; [reflexivity|].
  pose proof (path_enumeration_terminates cycle_graph "A") as (_ & _ & H3 & _ & H4 & H5).
  split; [exact (H3 eq_refl eq_refl) | exact (H4 _ H5)].
Defined.

Ltac decide_names :=
  repeat match goal with
         | |- context [String.eqb ?x ?x] => rewrite (String.eqb_refl x)
         | H : ?x <> ?y |- context [String.eqb ?x ?y] =>
             rewrite (proj2 (String.eqb_neq x y) H)
         | H : ?y <> ?x |- context [String.eqb ?x ?y] =>
             rewrite (proj2 (String.eqb_neq x y) (not_eq_sym H))
         end.

Ltac decide_visited :=
  repeat match goal with
         | |- context [bool_decide (?x ∈ ?X)] =>
             first [ rewrite (bool_decide_eq_false_2 (x ∈ X)) by set_solver
                   | rewrite (bool_decide_eq_true_2 (x ∈ X)) by set_solver ]
         end.

Lemma chain_graph_explicit (a b c d : string) (ab bc cd : dict) :
  a <> b -> a <> c -> a <> d -> b <> c -> b <> d -> c <> d ->
  chain_graph a b c d ab bc cd
  = [(a, {| nx.attrs := []; nx.succ := [(b, Dict.update [] ab)] |});
     (b, {| nx.attrs := []; nx.succ := [(c, Dict.update [] bc)] |});
     (c, {| nx.attrs := []; nx.succ := [(d, Dict.update [] cd)] |});
     (d, {| nx.attrs := []; nx.succ := [] |})].
Proof.
  intros Hab Hac Had Hbc Hbd Hcd.
  unfold chain_graph, nx.add_edge, nx.ensure_node, nx.has_node, Dict.contains, nx.empty.
  repeat (progress (cbn [Dict.get Dict.set nx.succ nx.attrs default]; decide_names)).
  reflexivity.
Qed.

(** C6. On the chain a -> b -> c -> d, built edge by edge from four
    different node names and any edge attributes, path enumeration from
    [a] returns exactly one path: the edges (a, b), (b, c), (c, d) in
    that order, each with its attribute dict. *)
Theorem chain_has_one_path (a b c d : string) (ab bc cd : dict) :
  NoDup [a; b; c; d] ->
  extract_all_paths (chain_graph a b c d ab bc cd) a
  = Ok [[(a, b, Dict.update [] ab); (b, c, Dict.update [] bc); (c, d, Dict.update [] cd)]].
Proof.
  intros Hnd.
  assert (Hne : a <> b /\ a <> c /\ a <> d /\ b <> c /\ b <> d /\ c <> d).
  { repeat match goal with
           | H : NoDup (_ :: _) |- _ => apply NoDup_cons in H as [? ?]
           end.
    set_solver. }
  destruct Hne as (Hab & Hac & Had & Hbc & Hbd & Hcd).
  rewrite chain_graph_explicit by assumption.
  unfold extract_all_paths, extract_all_paths_fuel, nx.number_of_edges.
  cbn [map list_sum fold_right snd nx.succ length Nat.add].
  repeat (rewrite dfs_unfold; unfold nx.out_degree, nx.adjacency;
          cbn [Dict.get]; decide_names;
          cbn [rbind nx.succ length Dict.keys map fst snd forallb andb nonempty
               current_path visited all_paths for_each record_path app];
          unfold visit; 
          cbn [rbind nx.succ length Dict.keys map fst snd forallb andb nonempty
               current_path visited all_paths for_each record_path app];
          decide_visited;
          cbn [rbind nx.succ length Dict.keys map fst snd forallb andb nonempty
               current_path visited all_paths for_each record_path app removelast]).
  reflexivity.
Qed.

Lemma chain_has_one_path_witness :
  NoDup ["A"; "B"; "C"; "D"]
  /\ extract_all_paths
       (chain_graph "A" "B" "C" "D" (chain_attrs "ab") (chain_attrs "bc") (chain_attrs "cd"))
       "A"
     = Ok [[("A", "B", chain_attrs "ab"); ("B", "C", chain_attrs "bc");
            ("C", "D", chain_attrs "cd")]].
Proof.
  assert (H : NoDup ["A"; "B"; "C"; "D"]).
  { repeat (apply NoDup_cons; split; [set_solver|]). apply NoDup_nil. exact I. }
  split; [exact H|].
  exact (chain_has_one_path "A" "B" "C" "D"
           (chain_attrs "ab") (chain_attrs "bc") (chain_attrs "cd") H).
Defined.

(** The same chain read back from its persisted form. *)
Example chain_from_graph_data :
  (G <- build_networkx_graph
          (JObj [("nodes", JArr [JObj [("id", JStr "A"); ("type", JStr "t")];
                                 JObj [("id", JStr "B"); ("type", JStr "t")];
                                 JObj [("id", JStr "C"); ("type", JStr "t")];
                                 JObj [("id", JStr "D"); ("type", JStr "t")]]);
                 ("edges", JArr [JObj [("source", JStr "A"); ("target", JStr "B");
                                       ("relation", JStr "ab")];
                                 JObj [("source", JStr "B"); ("target", JStr "C");
                                       ("relation", JStr "bc")];
                                 JObj [("source", JStr "C"); ("target", JStr "D");
                                       ("relation", JStr "cd")]])]) ;;
   extract_all_paths G "A")
  = Ok [[("A", "B", [("relation", JStr "ab")]);
         ("B", "C", [("relation", JStr "bc")]);
         ("C", "D", [("relation", JStr "cd")])]].
Proof. reflexivity. Qed.

(** ** Pair Composer *)









Lemma synthetic_prompt_ok (template : json) (core_entity : string) (n : Z) :
  is_poison_entity template = true ->
  synthetic_prompt template core_entity n
  = Ok (SyntheticEntitiesPrompt template core_entity n).
Proof.
  destruct template; try discriminate. simpl. intros H.
  repeat match goal with
         | H : _ && _ = true |- _ => apply andb_true_iff in H as [H ?]
         end.
  repeat match goal with
         | H : Dict.contains _ _ = true |- _ => apply dict_contains_get in H as [? H]
         end.
  unfold synthetic_prompt, getitem.
  repeat match goal with
         | H : Dict.get _ _ = Some _ |- _ => rewrite H; clear H
         end.
  reflexivity.
Qed.

Lemma random_choice_picks (xs : list json) (w : world) :
  xs <> [] ->
  exists t, In t xs
            /\ random_choice xs w
               = (Some t, {| pending := pending w; sent := sent w; rng := tail (rng w) |}).
Proof.
  intros Hne. unfold random_choice. destruct (rng w) as [|n rest] eqn:Hrng.
  - destruct xs as [|x xs]; [contradiction|]. exists x. split; [left; reflexivity|].
    simpl. destruct w; simpl in *. subst. reflexivity.
  - assert (Hlt : n mod length xs < length xs).
    { apply Nat.mod_upper_bound. destruct xs; [contradiction | simpl; lia]. }
    destruct (lookup_lt_is_Some_2 xs _ Hlt) as [t Ht].
    exists t. split.
    + apply list_elem_of_In. eapply list_elem_of_lookup_2, Ht.
    + rewrite Ht. reflexivity.
Qed.





Lemma length_combinations2 {A : Type} (l : list A) :
  2 * length (combinations2 l) = length l * (length l - 1).
Proof.
  induction l as [|x l IH]; simpl; [reflexivity|].
  rewrite length_app, length_map. destruct l; simpl in *; nia.
Qed.

Lemma length_product {A B : Type} (l : list A) (k : list B) :
  length (product l k) = length l * length k.
Proof.
  unfold product. induction l as [|x l IH]; simpl; [reflexivity|].
  rewrite length_app, length_map, IH. reflexivity.
Qed.

(** The size of the pair list of a batch of [k] originals with [s]
    synthetic entities: twice it is [k (k - 1) + 2 k s]. *)
Lemma length_entity_pairs (batch synthetic : list json) :
  2 * length (entity_pairs batch synthetic)
  = length batch * (length batch - 1) + 2 * (length batch * length synthetic).
Proof.
  unfold entity_pairs. rewrite length_app, length_product.
  pose proof (length_combinations2 batch). lia.
Qed.


















(** ** The whole run on one unit

    One unit, answered in the batch reply by a valid two-relation
    fragment: the graph under the key FAIR has three nodes and two edges,
    in memory and persisted, exactly one persisted edge carries a
    [poison_text], nothing is recorded as failed, and the persisted graph
    read back has the two one-edge paths from FAIR. *)
Example one_unit_run :
  match build_knowledge_graph new_KnowledgeGraphBuilder [meta_unit] 10 meta_world with
  | (Ok self, w') =>
      sent w' = [BatchRelationExtractionPrompt [meta_unit]]
      /\ failed_queries self = []
      /\ graph_counts (graph_of self "FAIR") = (3, 2)
      /\ match save_knowledge_graph self with
         | Ok graph_data =>
             subgraph_counts (subgraph_of graph_data "FAIR") = (3, 2)
             /\ poison_edge_count (subgraph_of graph_data "FAIR") = 1
             /\ (G <- build_networkx_graph
                        (subgraph_to_json (subgraph_of graph_data "FAIR")) ;;
                 paths <- extract_all_paths G "FAIR" ;;
                 Ok (map (map (fun e => (fst (fst e), edge_target e))) paths))
                = Ok [[("FAIR", "Meta")]; [("FAIR", "leader")]]
         | Raise _ => False
         end
  | (Raise _, _) => False
  end.
Proof. vm_compute. repeat split. Qed.

(** * Further properties *)

(** ** Path Enumerator: the paths returned *)

Lemma last_default {A : Type} (l : list A) (d d' : A) :
  l <> [] -> List.last l d = List.last l d'.
Proof.
  induction l as [|x l IH]; [congruence|]. intros _.
  destruct l as [|y l]; [reflexivity|]. cbn [List.last] in *. apply IH. discriminate.
Qed.

Lemma last_node_cons (start u v : string) (d : dict) (p : list path_edge) :
  last_node start ((u, v, d) :: p) = last_node v p.
Proof.
  unfold last_node, path_nodes. cbn [map edge_target fst snd].
  change (List.last (start :: v :: map edge_target p) start)
    with (List.last (v :: map edge_target p) start).
  apply last_default. discriminate.
Qed.

Lemma walk_app (G : nx.DiGraph) (start : string) (p q : list path_edge) :
  walk G start (p ++ q) <-> walk G start p /\ walk G (last_node start p) q.
Proof.
  revert start. induction p as [|[[u v] d] p IH]; intros start.
  - simpl. unfold last_node. simpl. tauto.
  - cbn [app walk]. rewrite IH.
    rewrite last_node_cons. tauto.
Qed.

Lemma last_node_snoc (root : string) (p : list path_edge) (e : path_edge) :
  last_node root (p ++ [e]) = edge_target e.
Proof.
  unfold last_node, path_nodes. rewrite map_app. cbn [map].
  rewrite app_comm_cons. apply last_last.
Qed.

Lemma path_nodes_app (root : string) (p q : list path_edge) :
  path_nodes root (p ++ q) = path_nodes root p ++ map edge_target q.
Proof. unfold path_nodes. rewrite map_app. reflexivity. Qed.

Lemma has_edge_keys (G : nx.DiGraph) (u v : string) (e : nx.node_entry) :
  Dict.get u G = Some e ->
  has_edge G u v = true <-> In v (Dict.keys (nx.succ e)).
Proof.
  intros Hget. unfold has_edge, nx.get_edge_data. rewrite Hget.
  generalize (nx.succ e). intros d. induction d as [|[k x] d IH]; simpl.
  - split; [discriminate | tauto].
  - destruct (String.eqb k v) eqn:E.
    + apply String.eqb_eq in E. split; [left; exact E | reflexivity].
    + apply String.eqb_neq in E. rewrite IH. split; [tauto|]. intros [H|H]; [contradiction|exact H].
Qed.

Lemma search_post_refl (G : nx.DiGraph) (root : string) (st : dfs_state) :
  search_post G root st st.
Proof.
  split; [reflexivity|]. split; [reflexivity|].
  exists []. rewrite app_nil_r. split; [reflexivity | constructor].
Qed.

Lemma search_post_trans (G : nx.DiGraph) (root : string) (st1 st2 st3 : dfs_state) :
  search_post G root st1 st2 -> search_post G root st2 st3 -> search_post G root st1 st3.
Proof.
  intros (Hv1 & Hp1 & new1 & Ha1 & Hn1) (Hv2 & Hp2 & new2 & Ha2 & Hn2).
  split; [congruence|]. split; [congruence|].
  exists (new1 ++ new2). split.
  - rewrite Ha2, Ha1, app_assoc. reflexivity.
  - apply Forall_app. split; assumption.
Qed.

Lemma nonempty_true {A : Type} (l : list A) : nonempty l = true <-> l <> [].
Proof. destruct l; simpl; split; congruence. Qed.

Lemma search_post_record (G : nx.DiGraph) (root cur : string) (st : dfs_state) :
  search_inv G root cur st ->
  nonempty (current_path st) = true ->
  (forall v, has_edge G cur v = true -> v ∈ visited st) ->
  search_post G root st (record_path st).
Proof.
  intros (Hw & Hl & Hv) Hne Hdead. split; [reflexivity|]. split; [reflexivity|].
  exists [current_path st]. split; [reflexivity|]. constructor; [|constructor].
  split; [apply nonempty_true, Hne|]. split; [exact Hw|].
  intros v Hedge. rewrite Hl in Hedge. apply Hdead in Hedge.
  rewrite Hv in Hedge. apply elem_of_list_to_set in Hedge.
  apply list_elem_of_In. exact Hedge.
Qed.

Lemma visit_loop_sound (G : nx.DiGraph) (root : string) (fuel : nat) (cur : string)
    (e : nx.node_entry) :
  Dict.get cur G = Some e ->
  (forall c st st', search_inv G root c st -> dfs fuel G c st = Ok st' ->
                    search_post G root st st') ->
  forall (items : list (string * dict)) (st st' : dfs_state),
    (forall kv, In kv items -> In kv (nx.succ e)) ->
    search_inv G root cur st ->
    for_each (visit (dfs fuel G) cur) items st = Ok st' ->
    search_post G root st st'.
Proof.
  intros Hget IH. induction items as [|[s data] items IHitems]; intros st st' Hsub Hinv Hrun.
  - simpl in Hrun. inversion Hrun. apply search_post_refl.
  - cbn [for_each] in Hrun. unfold visit at 1 in Hrun. cbn [fst snd] in Hrun.
    assert (Hsub' : forall kv, In kv items -> In kv (nx.succ e)).
    { intros kv Hkv. apply Hsub. right. exact Hkv. }
    destruct (bool_decide (s ∈ visited st)) eqn:Hs.
    + cbn [rbind] in Hrun. eapply IHitems; eassumption.
    + apply bool_decide_eq_false in Hs.
      destruct Hinv as (Hw & Hl & Hv).
      set (st1 := {| visited := visited st ∪ {[s]};
                     current_path := current_path st ++ [(cur, s, data)];
                     all_paths := all_paths st |}) in *.
      assert (Hinv1 : search_inv G root s st1).
      { split; [|split].
        - simpl. apply walk_app. split; [exact Hw|]. rewrite Hl. simpl.
          split; [reflexivity|]. split; [|exact I].
          exists e. split; [exact Hget|]. apply Hsub. left. reflexivity.
        - simpl. apply last_node_snoc.
        - unfold st1. cbn [visited current_path]. rewrite path_nodes_app.
          cbn [map edge_target fst snd].
          rewrite list_to_set_snoc_L, <- Hv. reflexivity. }
      destruct (dfs fuel G s st1) as [st2|err] eqn:Hd; cbn [rbind] in Hrun; [|discriminate].
      pose proof (IH s st1 st2 Hinv1 Hd) as (Hv2 & Hp2 & new & Ha2 & Hnew).
      set (st3 := {| visited := visited st2 ∖ {[s]};
                     current_path := removelast (current_path st2);
                     all_paths := all_paths st2 |}) in *.
      assert (Hpost : search_post G root st st3).
      { split; [|split].
        - simpl. rewrite Hv2. simpl. clear - Hs. set_solver.
        - simpl. rewrite Hp2. simpl. apply removelast_last.
        - exists new. split; [exact Ha2 | exact Hnew]. }
      assert (Hinv3 : search_inv G root cur st3).
      { destruct Hpost as (Hv3 & Hp3 & _). unfold search_inv.
        rewrite Hv3, Hp3. split; [exact Hw|]. split; [exact Hl | exact Hv]. }
      eapply search_post_trans; [exact Hpost|].
      eapply IHitems; eassumption.
Qed.

Lemma dfs_sound (G : nx.DiGraph) (root : string) (fuel : nat) :
  forall cur st st',
    search_inv G root cur st -> dfs fuel G cur st = Ok st' -> search_post G root st st'.
Proof.
  induction fuel as [|fuel IH]; intros cur st st' Hinv Hrun; [discriminate|].
  rewrite dfs_unfold in Hrun. unfold nx.out_degree, nx.adjacency in Hrun.
  destruct (Dict.get cur G) as [e|] eqn:Hget; [|discriminate].
  destruct (length (nx.succ e)) eqn:Hlen.
  - destruct (nonempty (current_path st)) eqn:Hne; inversion Hrun; [|apply search_post_refl].
    eapply search_post_record; [exact Hinv | exact Hne |].
    intros v Hedge. apply (has_edge_keys _ _ _ _ Hget) in Hedge.
    destruct (nx.succ e); [destruct Hedge | discriminate].
  - cbn [rbind] in Hrun.
    destruct (forallb _ _) eqn:Hall; cbn [andb] in Hrun.
    + destruct (nonempty (current_path st)) eqn:Hne.
      * inversion Hrun. eapply search_post_record; [exact Hinv | exact Hne |].
        intros v Hedge. apply (has_edge_keys _ _ _ _ Hget) in Hedge.
        rewrite forallb_forall in Hall. apply Hall in Hedge.
        apply bool_decide_eq_true in Hedge. exact Hedge.
      * eapply visit_loop_sound; try eassumption. auto.
    + eapply visit_loop_sound; try eassumption. auto.
Qed.

Lemma search_post_paths (G : nx.DiGraph) (root : string) (st st' : dfs_state)
    (p : list path_edge) :
  search_post G root st st' -> In p (all_paths st) -> In p (all_paths st').
Proof.
  intros (_ & _ & new & Ha & _) Hin. rewrite Ha. apply in_or_app. left. exact Hin.
Qed.

Lemma not_visited_next (root : string) (st : dfs_state) (cur s : string) (d : dict)
    (q : list path_edge) :
  visited st = list_to_set (path_nodes root (current_path st)) ->
  NoDup (path_nodes root (current_path st ++ (cur, s, d) :: q)) ->
  s ∉ visited st.
Proof.
  intros Hv Hnd Hin. rewrite Hv in Hin. apply elem_of_list_to_set in Hin.
  rewrite path_nodes_app in Hnd. apply NoDup_app in Hnd as (_ & Hdis & _).
  apply (Hdis s Hin). cbn [map edge_target fst snd]. left.
Qed.

Lemma visit_loop_complete (G : nx.DiGraph) (root : string) (fuel : nat) (cur : string)
    (e : nx.node_entry) :
  Dict.get cur G = Some e ->
  (forall c st st', search_inv G root c st -> dfs fuel G c st = Ok st' ->
     forall q, walk G c q ->
               NoDup (path_nodes root (current_path st ++ q)) ->
               dead_end G root (current_path st ++ q) ->
               current_path st ++ q <> [] ->
               In (current_path st ++ q) (all_paths st')) ->
  forall (items : list (string * dict)) (st st' : dfs_state),
    (forall kv, In kv items -> In kv (nx.succ e)) ->
    search_inv G root cur st ->
    for_each (visit (dfs fuel G) cur) items st = Ok st' ->
    forall s d q,
      In (s, d) items -> walk G s q ->
      NoDup (path_nodes root (current_path st ++ (cur, s, d) :: q)) ->
      dead_end G root (current_path st ++ (cur, s, d) :: q) ->
      In (current_path st ++ (cur, s, d) :: q) (all_paths st').
Proof.
  intros Hget IH. induction items as [|[s0 d0] items IHitems];
    intros st st' Hsub Hinv Hrun s d q Hin Hwalk Hnd Hdead; [destruct Hin|].
  cbn [for_each] in Hrun. unfold visit at 1 in Hrun. cbn [fst snd] in Hrun.
  assert (Hsub' : forall kv, In kv items -> In kv (nx.succ e)).
  { intros kv Hkv. apply Hsub. right. exact Hkv. }
  pose proof Hinv as (Hw & Hl & Hv).
  pose proof (not_visited_next _ _ _ _ _ _ Hv Hnd) as Hfresh.
  destruct (bool_decide (s0 ∈ visited st)) eqn:Hs.
  - cbn [rbind] in Hrun. apply bool_decide_eq_true in Hs.
    destruct Hin as [Heq|Hin]; [inversion Heq; subst; contradiction|].
    eapply IHitems; eassumption.
  - apply bool_decide_eq_false in Hs.
    set (st1 := {| visited := visited st ∪ {[s0]};
                   current_path := current_path st ++ [(cur, s0, d0)];
                   all_paths := all_paths st |}) in *.
    assert (Hinv1 : search_inv G root s0 st1).
    { split; [|split].
      - simpl. apply walk_app. split; [exact Hw|]. rewrite Hl. simpl.
        split; [reflexivity|]. split; [|exact I].
        exists e. split; [exact Hget|]. apply Hsub. left. reflexivity.
      - simpl. apply last_node_snoc.
      - unfold st1. cbn [visited current_path]. rewrite path_nodes_app.
        cbn [map edge_target fst snd].
        rewrite list_to_set_snoc_L, <- Hv. reflexivity. }
    destruct (dfs fuel G s0 st1) as [st2|err] eqn:Hd; cbn [rbind] in Hrun; [|discriminate].
    pose proof (dfs_sound G root fuel s0 st1 st2 Hinv1 Hd) as (Hv2 & Hp2 & new & Ha2 & Hnew).
    set (st3 := {| visited := visited st2 ∖ {[s0]};
                   current_path := removelast (current_path st2);
                   all_paths := all_paths st2 |}) in *.
    assert (Hv3 : visited st3 = visited st).
    { simpl. rewrite Hv2. simpl. clear - Hs. set_solver. }
    assert (Hp3 : current_path st3 = current_path st).
    { simpl. rewrite Hp2. simpl. apply removelast_last. }
    assert (Hinv3 : search_inv G root cur st3).
    { unfold search_inv. rewrite Hv3, Hp3. split; [exact Hw|]. split; [exact Hl | exact Hv]. }
    pose proof (visit_loop_sound G root fuel cur e Hget (dfs_sound G root fuel)
                  items st3 st' Hsub' Hinv3 Hrun) as Hrest.
    destruct Hin as [Heq|Hin].
    + inversion Heq. subst s0 d0.
      apply (search_post_paths _ _ _ _ _ Hrest).
      change (all_paths st3) with (all_paths st2).
      pose proof (IH s st1 st2 Hinv1 Hd q Hwalk) as Hfound.
      unfold st1 in Hfound. cbn [current_path] in Hfound.
      rewrite <- app_assoc in Hfound. cbn [app] in Hfound.
      apply Hfound; [exact Hnd | exact Hdead |].
      intros Hnil. apply app_eq_nil in Hnil as [_ Hnil]. discriminate.
    + rewrite <- Hp3. eapply IHitems; try eassumption; rewrite Hp3; assumption.
Qed.

Lemma dfs_complete (G : nx.DiGraph) (root : string) (fuel : nat) :
  forall cur st st',
    search_inv G root cur st -> dfs fuel G cur st = Ok st' ->
    forall q, walk G cur q ->
              NoDup (path_nodes root (current_path st ++ q)) ->
              dead_end G root (current_path st ++ q) ->
              current_path st ++ q <> [] ->
              In (current_path st ++ q) (all_paths st').
Proof.
  induction fuel as [|fuel IH]; intros cur st st' Hinv Hrun q Hwalk Hnd Hdead Hne;
    [discriminate|].
  rewrite dfs_unfold in Hrun. unfold nx.out_degree, nx.adjacency in Hrun.
  destruct (Dict.get cur G) as [e|] eqn:Hget; [|discriminate].
  pose proof Hinv as (Hw & Hl & Hv).
  destruct q as [|[[u s] d] q].
  - rewrite app_nil_r in *.
    assert (Hnonempty : nonempty (current_path st) = true) by (apply nonempty_true, Hne).
    assert (Hall : forallb (fun successor => bool_decide (successor ∈ visited st))
                     (Dict.keys (nx.succ e)) = true).
    { apply forallb_forall. intros v Hin. apply bool_decide_eq_true.
      rewrite Hv. apply elem_of_list_to_set, list_elem_of_In. apply Hdead.
      rewrite Hl. apply (has_edge_keys _ _ _ _ Hget). exact Hin. }
    rewrite Hnonempty in Hrun.
    destruct (length (nx.succ e)); cbn [rbind] in Hrun; [|rewrite Hall in Hrun];
      inversion Hrun; simpl; apply in_or_app; right; left; reflexivity.
  - cbn [walk] in Hwalk. destruct Hwalk as (-> & (e' & Hget' & Hin) & Hwalk).
    rewrite Hget in Hget'. inversion Hget'. subst e'.
    pose proof (not_visited_next _ _ _ _ _ _ Hv Hnd) as Hfresh.
    destruct (length (nx.succ e)) eqn:Hlen.
    { destruct (nx.succ e); [destruct Hin | discriminate]. }
    cbn [rbind] in Hrun.
    assert (Hall : forallb (fun successor => bool_decide (successor ∈ visited st))
                     (Dict.keys (nx.succ e)) = false).
    { destruct (forallb _ _) eqn:Hall; [|reflexivity].
      rewrite forallb_forall in Hall.
      specialize (Hall s (in_map fst _ _ Hin)).
      apply bool_decide_eq_true in Hall. contradiction. }
    rewrite Hall in Hrun. cbn [andb] in Hrun.
    eapply visit_loop_complete; try eassumption. auto.
Qed.

Lemma search_inv_initial (G : nx.DiGraph) (root : string) :
  search_inv G root root
    {| visited := {[root]}; current_path := []; all_paths := [] |}.
Proof.
  split; [exact I|]. split; [reflexivity|].
  simpl. set_solver.
Qed.

Lemma paths_are_walks (G : nx.DiGraph) (root : string) (paths : list (list path_edge)) :
  extract_all_paths G root = Ok paths -> forall p, In p paths -> walk G root p.
Proof.
  unfold extract_all_paths, extract_all_paths_fuel. intros Hrun p Hin.
  destruct (dfs _ G root _) as [st'|] eqn:Hd; cbn [rbind] in Hrun; [|discriminate].
  inversion Hrun. subst paths.
  pose proof (dfs_sound G root _ _ _ _ (search_inv_initial G root) Hd)
    as (_ & _ & new & Ha & Hnew).
  simpl in Ha. rewrite Ha in Hin. rewrite List.Forall_forall in Hnew.
  apply (Hnew p Hin).
Qed.

(** X1. Whenever path enumeration returns, the paths it returns are
    exactly the maximal simple paths of the graph that start at the root
    and have at least one edge: each is a walk along edges of the graph
    with their attribute dicts, goes through no node twice, and ends at
    a node all of whose successors are already on it; and every such
    path is returned. *)
Theorem paths_are_the_maximal_simple_paths (G : nx.DiGraph) (root : string)
    (paths : list (list path_edge)) :
  extract_all_paths G root = Ok paths ->
  forall p, In p paths <-> maximal_simple_path G root p.
Proof.
  unfold extract_all_paths, extract_all_paths_fuel. intros Hrun p.
  destruct (dfs _ G root _) as [st'|] eqn:Hd; cbn [rbind] in Hrun; [|discriminate].
  inversion Hrun. subst paths. clear Hrun.
  pose proof (search_inv_initial G root) as Hinv.
  split.
  - intros Hin.
    pose proof (dfs_sound G root _ _ _ _ Hinv Hd) as (_ & _ & new & Ha & Hnew).
    pose proof (dfs_behaves root G _ root _ (initial_dfs_inv G root)) as Hsimple.
    rewrite Hd in Hsimple. destruct Hsimple as (_ & _ & new' & Ha' & Hnew').
    simpl in Ha, Ha'. rewrite Ha in Hin.
    rewrite List.Forall_forall in Hnew. destruct (Hnew p Hin) as (Hne & Hw & Hdead).
    rewrite Ha' in Ha. subst new'. rewrite List.Forall_forall in Hnew'.
    repeat split; auto.
  - intros (Hne & Hw & Hnd & Hdead).
    exact (dfs_complete G root _ _ _ _ Hinv Hd p Hw Hnd Hdead Hne).
Qed.

Lemma paths_are_the_maximal_simple_paths_witness :
  extract_all_paths cycle_graph "A" = Ok [[("A", "B", chain_attrs "ab")]]
  /\ (In [("A", "B", chain_attrs "ab")] [[("A", "B", chain_attrs "ab")]]
      <-> maximal_simple_path cycle_graph "A" [("A", "B", chain_attrs "ab")]).
Proof.
  split; [reflexivity|].
  apply (paths_are_the_maximal_simple_paths cycle_graph "A"). reflexivity.
Defined.

(** In a graph whose adjacency dicts have unique keys, as every Python
    dict has, the edges of a walk are those [get_edge_data] returns. *)
Lemma is_edge_get_edge_data (G : nx.DiGraph) (u v : string) (d : dict) :
  (forall e, Dict.get u G = Some e -> NoDup (Dict.keys (nx.succ e))) ->
  is_edge G u v d <-> nx.get_edge_data G u v = Some d.
Proof.
  intros Hnd. unfold is_edge, nx.get_edge_data. split.
  - intros (e & Hget & Hin). rewrite Hget. specialize (Hnd e Hget).
    revert Hnd Hin. generalize (nx.succ e). intros adj.
    induction adj as [|[k x] adj IH]; intros Hnd Hin; [destruct Hin|].
    simpl in *. apply NoDup_cons in Hnd as [Hk Hnd].
    destruct Hin as [Heq|Hin].
    + inversion Heq. subst. rewrite String.eqb_refl. reflexivity.
    + destruct (String.eqb k v) eqn:E; [|apply IH; assumption].
      apply String.eqb_eq in E. subst k. exfalso. apply Hk.
      apply list_elem_of_In. apply (in_map fst _ _ Hin).
  - destruct (Dict.get u G) as [e|]; [|discriminate].
    intros Hget. exists e. split; [reflexivity|]. apply dict_get_in, Hget.
Qed.

(** ** Graph Assembler: the batches sent *)








(** ** Graph Assembler: statistics *)

Lemma in_dict_set {V : Type} (k k' : string) (v x : V) (d : Dict.t V) :
  In (k', x) (Dict.set k v d) -> (k' = k /\ x = v) \/ In (k', x) d.
Proof.
  induction d as [|[k0 v0] d IH]; simpl.
  - intros [H|[]]. inversion H. left. split; reflexivity.
  - destruct (String.eqb k0 k) eqn:E; simpl.
    + apply String.eqb_eq in E. subst k0.
      intros [H|H]; [inversion H; left; split; reflexivity | right; right; exact H].
    + intros [H|H]; [right; left; exact H|].
      destruct (IH H) as [Hnew|Hold]; [left; exact Hnew | right; right; exact Hold].
Qed.

Lemma dict_contains_set {V : Type} (k k' : string) (v : V) (d : Dict.t V) :
  Dict.contains k' (Dict.set k v d) = String.eqb k k' || Dict.contains k' d.
Proof.
  unfold Dict.contains. rewrite dict_get_set. destruct (String.eqb k k'); reflexivity.
Qed.









Lemma map_result_ok {A B : Type} (f : A -> result B) (xs : list A) :
  (forall x, In x xs -> exists y, f x = Ok y) ->
  exists ys, map_result f xs = Ok ys /\ length ys = length xs.
Proof.
  induction xs as [|x xs IH]; intros H; simpl.
  - exists []. split; reflexivity.
  - destruct (H x (or_introl eq_refl)) as [y Hy]. rewrite Hy. cbn [rbind].
    destruct IH as (ys & Hys & Hlen); [intros x' Hx'; apply H; right; exact Hx'|].
    rewrite Hys. cbn [rbind]. exists (y :: ys). split; [reflexivity | simpl; lia].
Qed.






Lemma existsb_key_contains {V : Type} (c : string) (d : Dict.t V) :
  existsb (fun kv => String.eqb (fst kv) c) d = Dict.contains c d.
Proof.
  unfold Dict.contains. induction d as [|[k v] d IH]; [reflexivity|]. simpl.
  destruct (String.eqb k c); [reflexivity|]. apply IH.
Qed.




(** ** Graph Assembler: the graph in memory and the graph persisted *)

Lemma has_node_add_node (G : nx.DiGraph) (n m : string) (attr : dict) :
  nx.has_node (nx.add_node G n attr) m = String.eqb n m || nx.has_node G m.
Proof. unfold nx.add_node. destruct (Dict.get n G); apply has_node_set. Qed.

Lemma has_edge_add_node (G : nx.DiGraph) (n u v : string) (attr : dict) :
  has_edge (nx.add_node G n attr) u v = has_edge G u v.
Proof.
  unfold has_edge, nx.add_node.
  destruct (Dict.get n G) as [e|] eqn:Hget; rewrite get_edge_data_set;
    destruct (String.eqb n u) eqn:E; try reflexivity;
    apply String.eqb_eq in E; subst u; unfold nx.get_edge_data; rewrite Hget; reflexivity.
Qed.

Lemma has_node_ensure_node (G : nx.DiGraph) (n m : string) :
  nx.has_node (nx.ensure_node G n) m = String.eqb n m || nx.has_node G m.
Proof.
  unfold nx.ensure_node. destruct (nx.has_node G n) eqn:Hn; [|apply has_node_set].
  destruct (String.eqb n m) eqn:E; [|reflexivity].
  apply String.eqb_eq in E. subst m. exact Hn.
Qed.

Lemma has_edge_ensure_node (G : nx.DiGraph) (n u v : string) :
  has_edge (nx.ensure_node G n) u v = has_edge G u v.
Proof.
  unfold has_edge, nx.ensure_node. destruct (nx.has_node G n) eqn:Hn; [reflexivity|].
  rewrite get_edge_data_set. destruct (String.eqb n u) eqn:E; [|reflexivity].
  apply String.eqb_eq in E. subst u. unfold nx.get_edge_data.
  unfold nx.has_node, Dict.contains in Hn. destruct (Dict.get n G); [discriminate|].
  reflexivity.
Qed.

Lemma has_node_add_edge (G : nx.DiGraph) (u v m : string) (attr : dict) :
  nx.has_node (nx.add_edge G u v attr) m
  = String.eqb u m || String.eqb v m || nx.has_node G m.
Proof.
  unfold nx.add_edge.
  set (G' := nx.ensure_node (nx.ensure_node G u) v).
  assert (HG' : nx.has_node G' m = String.eqb u m || String.eqb v m || nx.has_node G m).
  { unfold G'. rewrite !has_node_ensure_node.
    destruct (String.eqb u m), (String.eqb v m); reflexivity. }
  destruct (Dict.get u G') as [e|] eqn:Hget; [|exact HG'].
  rewrite has_node_set, HG'. destruct (String.eqb u m); reflexivity.
Qed.

Lemma has_edge_add_edge (G : nx.DiGraph) (u v x y : string) (attr : dict) :
  has_edge (nx.add_edge G u v attr) x y
  = String.eqb u x && String.eqb v y || has_edge G x y.
Proof.
  unfold nx.add_edge.
  set (G' := nx.ensure_node (nx.ensure_node G u) v).
  assert (HG' : forall a b, has_edge G' a b = has_edge G a b).
  { intros a b. unfold G'. rewrite !has_edge_ensure_node. reflexivity. }
  assert (Hu : nx.has_node G' u = true).
  { unfold G'. rewrite !has_node_ensure_node, String.eqb_refl. apply orb_true_r. }
  destruct (has_node_get _ _ Hu) as [e Hget]. rewrite Hget.
  unfold has_edge at 1. rewrite get_edge_data_set.
  destruct (String.eqb u x) eqn:E; simpl.
  - apply String.eqb_eq in E. subst x. rewrite dict_get_set.
    destruct (String.eqb v y); [reflexivity|].
    rewrite <- HG'. unfold has_edge, nx.get_edge_data. rewrite Hget. reflexivity.
  - apply HG'.
Qed.








Lemma dict_set_keys {V : Type} (k : string) (v : V) (d : Dict.t V) :
  Dict.keys (Dict.set k v d)
  = if Dict.contains k d then Dict.keys d else Dict.keys d ++ [k].
Proof.
  unfold Dict.keys, Dict.contains. induction d as [|[k' v'] d IH]; simpl; [reflexivity|].
  destruct (String.eqb k' k); simpl; [reflexivity|].
  rewrite IH. destruct (Dict.get k d); reflexivity.
Qed.

Lemma dict_contains_keys {V W : Type} (k : string) (d : Dict.t V) (d' : Dict.t W) :
  Dict.keys d = Dict.keys d' -> Dict.contains k d = Dict.contains k d'.
Proof.
  unfold Dict.keys, Dict.contains. revert d'.
  induction d as [|[k1 v1] d IH]; intros [|[k2 v2] d'] H; try discriminate; [reflexivity|].
  simpl in *. inversion H. subst k2. destruct (String.eqb k1 k); [reflexivity|].
  apply IH. assumption.
Qed.







(** ** Graph Assembler: loading what was saved *)

Lemma load_node_saved (G : nx.DiGraph) (node : node_record) :
  load_node G (node_to_json node)
  = Ok (nx.add_node G (n_id node)
          [("type", n_type node); ("context_role", n_context_role node)]).
Proof. reflexivity. Qed.

Lemma load_edge_saved (G : nx.DiGraph) (edge : edge_record) :
  exists attr,
    load_edge G (edge_to_json edge)
    = Ok (nx.add_edge G (e_source edge) (e_target edge) attr).
Proof.
  unfold load_edge, edge_to_json. destruct (e_poison_text edge); eexists; reflexivity.
Qed.

Lemma load_nodes_saved (ns : list node_record) (G : nx.DiGraph) :
  exists G',
    for_each load_node (map node_to_json ns) G = Ok G'
    /\ (forall n, nx.has_node G' n
                  = existsb (fun node => String.eqb (n_id node) n) ns || nx.has_node G n)
    /\ (forall u v, has_edge G' u v = has_edge G u v).
Proof.
  revert G. induction ns as [|node ns IH]; intros G.
  - exists G. split; [reflexivity|]. split; reflexivity.
  - cbn [map for_each]. rewrite load_node_saved. cbn [rbind].
    destruct (IH (nx.add_node G (n_id node)
                    [("type", n_type node); ("context_role", n_context_role node)]))
      as (G' & Hrun & Hn & He).
    exists G'. split; [exact Hrun|]. split.
    + intros n. rewrite Hn, has_node_add_node. simpl.
      destruct (String.eqb (n_id node) n), (existsb _ ns); reflexivity.
    + intros u v. rewrite He. apply has_edge_add_node.
Qed.

Lemma load_edges_saved (es : list edge_record) (G : nx.DiGraph) :
  exists G',
    for_each load_edge (map edge_to_json es) G = Ok G'
    /\ (forall n, nx.has_node G' n
                  = existsb (fun e => String.eqb (e_source e) n || String.eqb (e_target e) n)
                      es
                    || nx.has_node G n)
    /\ (forall u v, has_edge G' u v
                    = existsb (fun e => String.eqb (e_source e) u
                                        && String.eqb (e_target e) v) es
                      || has_edge G u v).
Proof.
  revert G. induction es as [|edge es IH]; intros G.
  - exists G. split; [reflexivity|]. split; reflexivity.
  - cbn [map for_each]. destruct (load_edge_saved G edge) as [attr Hload].
    rewrite Hload. cbn [rbind].
    destruct (IH (nx.add_edge G (e_source edge) (e_target edge) attr))
      as (G' & Hrun & Hn & He).
    exists G'. split; [exact Hrun|]. split.
    + intros n. rewrite Hn, has_node_add_edge. simpl.
      destruct (String.eqb (e_source edge) n), (String.eqb (e_target edge) n),
        (existsb _ es); reflexivity.
    + intros u v. rewrite He, has_edge_add_edge. simpl.
      destruct (String.eqb (e_source edge) u && String.eqb (e_target edge) v),
        (existsb _ es); reflexivity.
Qed.

Lemma load_graph_saved (sub : subgraph) :
  exists G, load_graph (subgraph_to_json sub) = Ok G /\ same_shape G sub.
Proof.
  unfold load_graph, subgraph_to_json. cbn [get_method Dict.get String.eqb Ascii.eqb
    Bool.eqb rbind default iterate].
  destruct (load_nodes_saved (nodes sub) nx.empty) as (G1 & H1 & Hn1 & He1).
  change (for_each load_node (map node_to_json (nodes sub)) nx.empty) with
    (for_each load_node (map node_to_json (nodes sub)) nx.empty) in H1.
  simpl. simpl in H1. rewrite H1. cbn [rbind].
  destruct (load_edges_saved (edges sub) G1) as (G & H2 & Hn & He).
  exists G. split; [exact H2|]. split.
  - intros n. rewrite Hn, Hn1. unfold has_node_record, is_endpoint.
    change (nx.has_node nx.empty n) with false. rewrite orb_false_r. apply orb_comm.
  - intros u v. rewrite He, He1. unfold joins.
    change (has_edge nx.empty u v) with false. apply orb_false_r.
Qed.




Lemma dict_keys_map {V W : Type} (f : V -> W) (d : Dict.t V) :
  Dict.keys (map (fun kv => (fst kv, f (snd kv))) d) = Dict.keys d.
Proof. unfold Dict.keys. rewrite map_map. reflexivity. Qed.

Lemma dict_contains_in_keys {V : Type} (k : string) (d : Dict.t V) :
  Dict.contains k d = true <-> In k (Dict.keys d).
Proof.
  unfold Dict.contains, Dict.keys. induction d as [|[k' v] d IH]; simpl.
  - split; [discriminate | tauto].
  - destruct (String.eqb k' k) eqn:E.
    + apply String.eqb_eq in E. split; [left; exact E | reflexivity].
    + apply String.eqb_neq in E. rewrite IH. split; [tauto|].
      intros [H|H]; [contradiction | exact H].
Qed.

Lemma dict_set_nodup {V : Type} (k : string) (v : V) (d : Dict.t V) :
  NoDup (Dict.keys d) -> NoDup (Dict.keys (Dict.set k v d)).
Proof.
  intros Hnd. rewrite dict_set_keys.
  destruct (Dict.contains k d) eqn:Hc; [exact Hnd|].
  apply NoDup_app. split; [exact Hnd|]. split.
  - intros x Hx Hx'. apply list_elem_of_singleton in Hx'. subst x.
    apply list_elem_of_In, dict_contains_in_keys in Hx. congruence.
  - apply NoDup_singleton.
Qed.







(** ** The two readers of persisted graph data *)

Lemma for_each_agree {A S : Type} (f g : S -> A -> result S) :
  (forall s x s', f s x = Ok s' <-> g s x = Ok s') ->
  forall xs s s', for_each f xs s = Ok s' <-> for_each g xs s = Ok s'.
Proof.
  intros Hfg. induction xs as [|x xs IH]; intros s s'; simpl; [reflexivity|].
  destruct (f s x) as [s1|e1] eqn:Hf; destruct (g s x) as [s2|e2] eqn:Hg; cbn [rbind].
  - apply Hfg in Hf. rewrite Hf in Hg. inversion Hg. subst. apply IH.
  - apply Hfg in Hf. congruence.
  - apply Hfg in Hg. congruence.
  - split; discriminate.
Qed.

Lemma dict_get_without (k : string) (ks : list string) (d : dict) :
  existsb (String.eqb k) ks = false ->
  Dict.get k (without_keys ks d) = Dict.get k d.
Proof.
  intros Hk. unfold without_keys. induction d as [|[k' v] d IH]; simpl; [reflexivity|].
  destruct (String.eqb k' k) eqn:E.
  - apply String.eqb_eq in E. subst k'. rewrite Hk. simpl. rewrite String.eqb_refl.
    reflexivity.
  - destruct (negb (existsb (String.eqb k') ks)); simpl; [rewrite E|]; exact IH.
Qed.

Lemma without_keys_twice (k1 k2 : string) (d : dict) :
  without_keys [k2] (without_keys [k1] d) = without_keys [k1; k2] d.
Proof.
  unfold without_keys. induction d as [|[k v] d IH]; [reflexivity|].
  cbn [List.filter existsb fst orb]. rewrite !orb_false_r.
  destruct (String.eqb k k1) eqn:E1; cbn [negb orb].
  - exact IH.
  - cbn [List.filter existsb fst orb]. rewrite orb_false_r.
    destruct (String.eqb k k2); cbn [negb]; [exact IH | f_equal; exact IH].
Qed.

Lemma load_node_agrees (G G' : nx.DiGraph) (node : json) :
  load_node G node = Ok G' <-> add_graph_node G node = Ok G'.
Proof.
  unfold load_node, add_graph_node, pop, getitem.
  destruct node; try (split; discriminate).
  destruct (Dict.get "id" members); cbn [rbind]; [reflexivity | split; discriminate].
Qed.

Lemma load_edge_agrees (G G' : nx.DiGraph) (edge : json) :
  load_edge G edge = Ok G' <-> add_graph_edge G edge = Ok G'.
Proof.
  unfold load_edge, add_graph_edge, pop, getitem.
  destruct edge; try (split; discriminate).
  destruct (Dict.get "source" members) as [source|]; cbn [rbind]; [|split; discriminate].
  rewrite dict_get_without by reflexivity.
  destruct (Dict.get "target" members) as [target|]; cbn [rbind]; [|split; discriminate].
  rewrite without_keys_twice. reflexivity.
Qed.

Lemma load_graph_agrees (data : json) (G : nx.DiGraph) :
  load_graph data = Ok G <-> build_networkx_graph data = Ok G.
Proof.
  unfold load_graph, build_networkx_graph.
  destruct (get_method data "nodes") as [node_list|]; cbn [rbind]; [|split; discriminate].
  destruct (iterate (default (JArr []) node_list)) as [node_items|]; cbn [rbind];
    [|split; discriminate].
  pose proof (for_each_agree load_node add_graph_node
                (fun s x s' => load_node_agrees s s' x) node_items nx.empty) as Hnodes.
  destruct (for_each load_node node_items nx.empty) as [G1|e1] eqn:H1;
    destruct (for_each add_graph_node node_items nx.empty) as [G1'|e1'] eqn:H1';
    cbn [rbind].
  - pose proof (proj1 (Hnodes G1) eq_refl) as Heq. inversion Heq. subst G1'.
    destruct (get_method data "edges") as [edge_list|]; cbn [rbind]; [|split; discriminate].
    destruct (iterate (default (JArr []) edge_list)) as [edge_items|]; cbn [rbind];
      [|split; discriminate].
    apply for_each_agree. intros s x s'. apply load_edge_agrees.
  - pose proof (proj1 (Hnodes G1) eq_refl). discriminate.
  - pose proof (proj2 (Hnodes G1') eq_refl). discriminate.
  - split; discriminate.
Qed.

(** X6. The loader of the builder and the reader of the generator agree
    on persisted graph data: whenever one of them builds a graph from a
    subgraph, the other builds the same graph. *)
Theorem loader_and_reader_agree (data : json) (G : nx.DiGraph) :
  load_graph data = Ok G <-> build_networkx_graph data = Ok G.
Proof. apply load_graph_agrees. Qed.

(** ** Path Enumerator: the core entity must be in the subgraph *)

Lemma add_graph_nodes_has (items : list json) (G G' : nx.DiGraph) :
  for_each add_graph_node items G = Ok G' ->
  forall n, nx.has_node G' n
            = existsb (fun node => names node "id" n) items || nx.has_node G n.
Proof.
  revert G. induction items as [|node items IH]; intros G H n.
  - inversion H. reflexivity.
  - cbn [for_each] in H.
    destruct (add_graph_node G node) as [G1|] eqn:H1; [|discriminate]. cbn [rbind] in H.
    rewrite (IH _ H). cbn [existsb]. unfold add_graph_node in H1. unfold names.
    destruct (getitem node "id") as [node_id|]; [|discriminate]. cbn [rbind] in H1.
    destruct node; try discriminate.
    destruct (Dict.contains _ _); [discriminate|].
    destruct node_id; try discriminate. cbn [as_str rbind] in H1. inversion H1.
    rewrite has_node_add_node.
    destruct (String.eqb s n), (existsb _ items); reflexivity.
Qed.

Lemma add_graph_edges_has (items : list json) (G G' : nx.DiGraph) :
  for_each add_graph_edge items G = Ok G' ->
  forall n, nx.has_node G' n
            = existsb (fun edge => names edge "source" n || names edge "target" n) items
              || nx.has_node G n.
Proof.
  revert G. induction items as [|edge items IH]; intros G H n.
  - inversion H. reflexivity.
  - cbn [for_each] in H.
    destruct (add_graph_edge G edge) as [G1|] eqn:H1; [|discriminate]. cbn [rbind] in H.
    rewrite (IH _ H). cbn [existsb]. unfold add_graph_edge in H1. unfold names.
    destruct (getitem edge "source") as [source|]; [|discriminate]. cbn [rbind] in H1.
    destruct (getitem edge "target") as [target|]; [|discriminate]. cbn [rbind] in H1.
    destruct edge; try discriminate.
    destruct (_ || _); [discriminate|].
    destruct source; try discriminate. cbn [as_str rbind] in H1.
    destruct target; try discriminate. cbn [as_str rbind] in H1. inversion H1.
    rewrite has_node_add_edge.
    destruct (String.eqb s n), (String.eqb s0 n), (existsb _ items); reflexivity.
Qed.

Lemma build_networkx_graph_nodes (subgraph_data : json) (G : nx.DiGraph) :
  build_networkx_graph subgraph_data = Ok G ->
  forall n, nx.has_node G n = mentioned subgraph_data n.
Proof.
  unfold build_networkx_graph, mentioned, items_under. intros H n.
  destruct (get_method subgraph_data "nodes") as [node_list|]; [|discriminate].
  cbn [rbind] in H.
  destruct (iterate (default (JArr []) node_list)) as [node_items|]; [|discriminate].
  cbn [rbind] in H.
  destruct (for_each add_graph_node node_items nx.empty) as [G1|] eqn:H1; [|discriminate].
  cbn [rbind] in H.
  destruct (get_method subgraph_data "edges") as [edge_list|]; [|discriminate].
  cbn [rbind] in H.
  destruct (iterate (default (JArr []) edge_list)) as [edge_items|]; [|discriminate].
  cbn [rbind] in H.
  rewrite (add_graph_edges_has _ _ _ H), (add_graph_nodes_has _ _ _ H1).
  change (nx.has_node nx.empty n) with false. rewrite orb_false_r. apply orb_comm.
Qed.

(** X7. For a persisted subgraph that [build_networkx_graph] accepts,
    path enumeration from a core entity returns exactly when the core
    entity is the id of one of the subgraph's nodes or an end point of
    one of its edges; from any other core entity it raises the library's
    [NetworkXError]. *)
Theorem path_enumeration_needs_the_root (subgraph_data : json) (G : nx.DiGraph)
    (core_entity : string) :
  build_networkx_graph subgraph_data = Ok G ->
  (mentioned subgraph_data core_entity = true ->
   exists paths, extract_all_paths G core_entity = Ok paths)
  /\ (mentioned subgraph_data core_entity = false ->
      extract_all_paths G core_entity = Raise NetworkXError).
Proof.
  intros Hbuild. rewrite <- (build_networkx_graph_nodes _ _ Hbuild). split.
  - intros Hn.
    pose proof (dfs_behaves core_entity G _ core_entity _
                  (initial_dfs_inv G core_entity)) as H.
    unfold extract_all_paths, extract_all_paths_fuel.
    destruct (dfs _ G core_entity _) as [st'|e]; [eexists; reflexivity|].
    destruct H as [_ [Hc|Hc]].
    + rewrite (build_networkx_graph_closed _ _ Hbuild) in Hc. discriminate.
    + congruence.
  - intros Hn. unfold extract_all_paths, extract_all_paths_fuel.
    rewrite dfs_unfold. unfold nx.out_degree, nx.adjacency.
    unfold nx.has_node, Dict.contains in Hn.
    destruct (Dict.get core_entity G); [discriminate|]. reflexivity.
Qed.

Lemma path_enumeration_needs_the_root_witness :
  build_networkx_graph
    (JObj [("nodes", JArr [JObj [("id", JStr "FAIR")]]); ("edges", JArr [])])
  = Ok (nx.add_node nx.empty "FAIR" [])
  /\ mentioned (JObj [("nodes", JArr [JObj [("id", JStr "FAIR")]]); ("edges", JArr [])])
       "Meta" = false
  /\ extract_all_paths (nx.add_node nx.empty "FAIR" []) "Meta" = Raise NetworkXError.
Proof.
  split; [reflexivity|]. split; [reflexivity|].
  apply (path_enumeration_needs_the_root
           (JObj [("nodes", JArr [JObj [("id", JStr "FAIR")]]); ("edges", JArr [])]));
    reflexivity.
Defined.

(** ** Text Service Gateway: the request loop *)

Lemma attempts_unfold (m d k : nat) (n : http.net) :
  http.attempts m d (S k) n
  = let attempt := m - S k in
    let wait_time := d * (attempt + 1) in
    let '(o, n1) := http.post n in
    let failed :=
      if (attempt <? m - 1)%nat
      then http.attempts m d k (http.sleep wait_time n1)
      else (JNull, n1) in
    match o with
    | http.Response status_code body =>
        if (status_code =? 200)%Z then
          match http.message_content body with
          | Some content => (content, n1)
          | None => failed
          end
        else if (status_code =? 429)%Z then
          http.attempts m d k (http.sleep wait_time n1)
        else failed
    | http.Exception => failed
    end.
Proof. reflexivity. Qed.

Lemma attempts_post_failed (m d k : nat) (n n1 : http.net) (o : http.outcome)
    (wait_time : nat) :
  S k <= m ->
  http.post n = (o, n1) ->
  http.success o = None ->
  attempts_post k (http.sleep wait_time n1)
    (http.attempts m d k (http.sleep wait_time n1)) ->
  attempts_post (S k) n
    (if (m - S k <? m - 1)%nat
     then http.attempts m d k (http.sleep wait_time n1)
     else (JNull, n1))
  /\ attempts_post (S k) n (http.attempts m d k (http.sleep wait_time n1)).
Proof.
  intros Hk Hpost Hfail IH. unfold http.post in Hpost.
  assert (Hshape : http.posts n1 = S (http.posts n)
                   /\ take (S k) (http.outcomes n)
                      = match http.outcomes n with
                        | [] => []
                        | o' :: _ => o' :: take k (http.outcomes n1)
                        end
                   /\ match http.outcomes n with
                      | [] => True
                      | o' :: _ => o' = o
                      end).
  { destruct (http.outcomes n) as [|o' rest]; inversion Hpost; subst; simpl; auto. }
  destruct Hshape as (Hposts & Htake & Ho).
  assert (Hfirst : http.first_success (take (S k) (http.outcomes n))
                   = http.first_success (take k (http.outcomes n1))).
  { rewrite Htake. destruct (http.outcomes n) as [|o' rest].
    - inversion Hpost. subst. simpl. destruct k; reflexivity.
    - subst o'. simpl. rewrite Hfail. reflexivity. }
  assert (Hneeded : forall c,
            http.first_success (take k (http.outcomes n1)) = Some c ->
            http.posts_needed (take (S k) (http.outcomes n))
            = S (http.posts_needed (take k (http.outcomes n1)))).
  { intros c Hc. rewrite Htake. destruct (http.outcomes n) as [|o' rest].
    - inversion Hpost. subst. simpl in Hc. destruct k; discriminate.
    - subst o'. simpl. rewrite Hfail. reflexivity. }
  assert (Hgeneral : attempts_post (S k) n (http.attempts m d k (http.sleep wait_time n1))).
  { destruct IH as (Hr & Hp & Hs). simpl in Hr, Hp, Hs. split; [|split].
    - rewrite Hfirst. exact Hr.
    - lia.
    - intros c Hc. rewrite Hfirst in Hc. rewrite (Hs c Hc), (Hneeded c Hc). lia. }
  split; [|exact Hgeneral].
  destruct (Nat.ltb_spec (m - S k) (m - 1)); [exact Hgeneral|].
  assert (k = 0) by lia. subst k. split; [|split]; simpl.
  - rewrite Htake. destruct (http.outcomes n) as [|o' rest]; [reflexivity|].
    subst o'. simpl. rewrite Hfail. reflexivity.
  - lia.
  - intros c Hc. rewrite Hfirst in Hc. simpl in Hc. discriminate.
Qed.

Lemma attempts_spec (m d : nat) :
  forall k n, k <= m -> attempts_post k n (http.attempts m d k n).
Proof.
  induction k as [|k IH]; intros n Hk.
  - unfold attempts_post. simpl. split; [reflexivity|]. split; [lia|].
    intros c Hc. discriminate.
  - rewrite attempts_unfold. cbv zeta.
    destruct (http.post n) as [o n1] eqn:Hpost.
    assert (Hk' : k <= m) by lia.
    pose proof (fun wait Hfail =>
                  attempts_post_failed m d k n n1 o wait Hk Hpost Hfail
                    (IH (http.sleep wait n1) Hk')) as Hfailed.
    destruct o as [status_code body|]; [|apply Hfailed; reflexivity].
    destruct (status_code =? 200)%Z eqn:E200.
    + destruct (http.message_content body) as [content|] eqn:Hcontent.
      * unfold http.post in Hpost.
        destruct (http.outcomes n) as [|o' rest] eqn:Hout; inversion Hpost; subst.
        unfold attempts_post. rewrite Hout. simpl. rewrite E200, Hcontent. simpl.
        split; [reflexivity|]. split; [lia|]. intros c _. lia.
      * apply Hfailed. simpl. rewrite E200. exact Hcontent.
    + destruct (status_code =? 429)%Z; apply Hfailed; simpl; rewrite E200; reflexivity.
Qed.

(** X8. [call_llm] posts at most [max_retries] times and returns what
    the first successful post yields, a status 200 whose body has the
    expected shape, among the first [max_retries] posts; it stops
    there.  When none of them succeeds it returns [None]. *)
Theorem call_llm_returns_first_success (max_retries retry_delay : nat) (n : http.net) :
  let attempted := take max_retries (http.outcomes n) in
  let '(response, n') := http.call_llm max_retries retry_delay n in
  response = default JNull (http.first_success attempted)
  /\ http.posts n <= http.posts n' <= http.posts n + max_retries
  /\ (forall content, http.first_success attempted = Some content ->
                      http.posts n' = http.posts n + http.posts_needed attempted).
Proof.
  cbv zeta. unfold http.call_llm.
  pose proof (attempts_spec max_retries retry_delay max_retries n (le_n _)) as H.
  destruct (http.attempts max_retries retry_delay max_retries n) as [response n'].
  exact H.
Qed.

Lemma call_llm_returns_first_success_witness :
  http.first_success (take 3 (http.outcomes failing_once)) = Some (JStr "text")
  /\ fst (http.call_llm 3 2 failing_once) = JStr "text"
  /\ http.posts (snd (http.call_llm 3 2 failing_once)) = 2.
Proof.
  pose proof (call_llm_returns_first_success 3 2 failing_once) as H. cbv zeta in H.
  destruct (http.call_llm 3 2 failing_once) as [response n'].
  destruct H as (H1 & _ & H3).
  split; [reflexivity|]. split; [exact H1|]. exact (H3 _ eq_refl).
Defined.

Lemma sum_to_step (j : nat) : 0 < j -> http.sum_to j = j + http.sum_to (j - 1).
Proof. destruct j; [lia|]. intros _. simpl. rewrite Nat.sub_0_r. reflexivity. Qed.

Lemma sum_to_mono (a b : nat) : a <= b -> http.sum_to a <= http.sum_to b.
Proof.
  induction 1 as [|b Hle IH]; [lia|]. simpl. lia.
Qed.

Lemma attempts_sleep (m d : nat) :
  forall k n, k <= m ->
    http.slept n <= http.slept (snd (http.attempts m d k n))
    /\ http.slept (snd (http.attempts m d k n)) + d * http.sum_to (m - k)
       <= http.slept n + d * http.sum_to m.
Proof.
  induction k as [|k IH]; intros n Hk.
  - simpl. rewrite Nat.sub_0_r. lia.
  - rewrite attempts_unfold. cbv zeta.
    destruct (http.post n) as [o n1] eqn:Hpost.
    assert (Hslept : http.slept n1 = http.slept n).
    { unfold http.post in Hpost. destruct (http.outcomes n); inversion Hpost; reflexivity. }
    assert (Hstep : http.sum_to (m - k) = (m - k) + http.sum_to (m - S k)).
    { rewrite sum_to_step by lia. f_equal. f_equal. lia. }
    assert (Hmono : http.sum_to (m - S k) <= http.sum_to m) by (apply sum_to_mono; lia).
    assert (Hgo : let r := http.attempts m d k (http.sleep (d * (m - S k + 1)) n1) in
                  http.slept n <= http.slept (snd r)
                  /\ http.slept (snd r) + d * http.sum_to (m - S k)
                     <= http.slept n + d * http.sum_to m).
    { cbv zeta. destruct (IH (http.sleep (d * (m - S k + 1)) n1)) as [H1 H2]; [lia|].
      simpl http.slept in H1, H2. rewrite Hslept in H1, H2.
      rewrite Hstep in H2. replace (m - S k + 1) with (m - k) in * by lia. nia. }
    assert (Hstop : http.slept n <= http.slept n1
                    /\ http.slept n1 + d * http.sum_to (m - S k)
                       <= http.slept n + d * http.sum_to m).
    { rewrite Hslept. nia. }
    assert (Hfailed : let r := if (m - S k <? m - 1)%nat
                               then http.attempts m d k (http.sleep (d * (m - S k + 1)) n1)
                               else (JNull, n1) in
                      http.slept n <= http.slept (snd r)
                      /\ http.slept (snd r) + d * http.sum_to (m - S k)
                         <= http.slept n + d * http.sum_to m).
    { cbv zeta. destruct (m - S k <? m - 1)%nat; [exact Hgo | exact Hstop]. }
    destruct o as [status_code body|]; [|exact Hfailed].
    destruct (status_code =? 200)%Z.
    + destruct (http.message_content body); [exact Hstop | exact Hfailed].
    + destruct (status_code =? 429)%Z; [exact Hgo | exact Hfailed].
Qed.

Lemma attempts_rate_limited (m d : nat) :
  forall k n, k <= m -> k <= length (http.outcomes n) ->
    forallb http.rate_limited (take k (http.outcomes n)) = true ->
    http.slept (snd (http.attempts m d k n)) + d * http.sum_to (m - k)
    = http.slept n + d * http.sum_to m.
Proof.
  induction k as [|k IH]; intros n Hk Hlen Hall.
  - simpl. rewrite Nat.sub_0_r. reflexivity.
  - rewrite attempts_unfold. cbv zeta. unfold http.post.
    destruct (http.outcomes n) as [|o rest] eqn:Hout; [simpl in Hlen; lia|].
    simpl in Hall. apply andb_true_iff in Hall as [Ho Hall].
    destruct o as [status_code body|]; [|discriminate]. simpl in Ho.
    apply Z.eqb_eq in Ho. subst status_code. cbn [Z.eqb Pos.eqb].
    assert (Hstep : http.sum_to (m - k) = (m - k) + http.sum_to (m - S k)).
    { rewrite sum_to_step by lia. f_equal. f_equal. lia. }
    match goal with
    | |- context [http.attempts m d k ?n1] =>
        pose proof (IH n1) as Hrec
    end.
    simpl in Hrec, Hlen. specialize (Hrec ltac:(lia) ltac:(lia) Hall).
    replace (m - S k + 1) with (m - k) in Hrec by lia. 
    replace (m - S k + 1) with (m - k) by lia. nia.
Qed.

(** X9. The time [call_llm] spends waiting is bounded: it never sleeps
    more than [retry_delay * (1 + 2 + ... + max_retries)] seconds in
    all, and not at all when the first post succeeds.  The bound is
    reached when every post is answered with status 429, the last one
    included, after which the loop still sleeps before it gives up. *)
Theorem call_llm_sleep_is_bounded (max_retries retry_delay : nat) (n : http.net) :
  let n' := snd (http.call_llm max_retries retry_delay n) in
  http.slept n <= http.slept n'
  /\ http.slept n' <= http.slept n + retry_delay * http.sum_to max_retries
  /\ (forall o rest content,
        0 < max_retries -> http.outcomes n = o :: rest -> http.success o = Some content ->
        http.slept n' = http.slept n)
  /\ (max_retries <= length (http.outcomes n) ->
      forallb http.rate_limited (take max_retries (http.outcomes n)) = true ->
      http.slept n' = http.slept n + retry_delay * http.sum_to max_retries).
Proof.
  cbv zeta. unfold http.call_llm.
  destruct (attempts_sleep max_retries retry_delay max_retries n (le_n _)) as [H1 H2].
  rewrite Nat.sub_diag in H2. simpl http.sum_to in H2.
  split; [exact H1|]. split; [lia|]. split.
  - intros o rest content Hpos Hout Hsuccess.
    destruct max_retries as [|k]; [lia|]. rewrite attempts_unfold. cbv zeta.
    unfold http.post. rewrite Hout.
    destruct o as [status_code body|]; [|discriminate]. simpl in Hsuccess.
    destruct (status_code =? 200)%Z; [|discriminate]. rewrite Hsuccess. reflexivity.
  - intros Hlen Hall.
    pose proof (attempts_rate_limited max_retries retry_delay max_retries n (le_n _)
                  Hlen Hall) as H.
    rewrite Nat.sub_diag in H. simpl http.sum_to in H. lia.
Qed.

Lemma call_llm_sleep_is_bounded_witness :
  let n := {| http.outcomes := repeat (http.Response 429 None) 3;
              http.posts := 0; http.slept := 0 |} in
  3 <= length (http.outcomes n)
  /\ forallb http.rate_limited (take 3 (http.outcomes n)) = true
  /\ http.slept (snd (http.call_llm 3 2 n)) = 12.
Proof.
  cbv zeta. split; [simpl; lia|]. split; [reflexivity|].
  destruct (call_llm_sleep_is_bounded 3 2
              {| http.outcomes := repeat (http.Response 429 None) 3;
                 http.posts := 0; http.slept := 0 |}) as (_ & _ & _ & H).
  apply H; [simpl; lia | reflexivity].
Defined.

(** ** Pair Composer: reading the persisted edges *)





(** ** Pair Composer: the synthetic entities *)

Lemma mark_synthetic_marks (v : json) (marked : list json) :
  mark_synthetic v = Ok marked ->
  Forall (fun e => getitem e "is_synthetic" = Ok (JBool true)) marked.
Proof.
  unfold mark_synthetic. destruct (iterate v) as [items|]; cbn [rbind]; [|discriminate].
  revert marked. induction items as [|x items IH]; intros marked H; simpl in H.
  - inversion H. constructor.
  - destruct (setitem x "is_synthetic" (JBool true)) as [y|] eqn:Hy; [|discriminate].
    cbn [rbind] in H.
    destruct (map_result _ items) as [ys|]; [|discriminate]. cbn [rbind] in H.
    inversion H. constructor; [|apply IH; reflexivity].
    destruct x; try discriminate. simpl in Hy. inversion Hy. simpl.
    rewrite dict_get_set_eq. reflexivity.
Qed.

(** X11. Asked to pad a pool of poison entities, the generator of
    synthetic entities never raises: it returns a list, every member of
    which carries [is_synthetic = True], after exactly one request built
    on a template drawn from the pool.  With an empty pool it returns no
    entity and sends nothing, and when the request fails or its reply
    does not parse it returns no entity either. *)
Theorem synthetic_entities_are_marked (existing : list json) (core_entity : string)
    (count_needed : Z) (w : world) :
  forallb is_poison_entity existing = true ->
  exists synthetic w',
    generate_synthetic_poison_entities existing core_entity count_needed w
    = (Ok synthetic, w')
    /\ Forall (fun e => getitem e "is_synthetic" = Ok (JBool true)) synthetic
    /\ (existing = [] -> synthetic = [] /\ w' = w)
    /\ (existing <> [] ->
        exists template,
          In template existing
          /\ sent w' = sent w ++ [SyntheticEntitiesPrompt template core_entity count_needed]
          /\ (next_parsed_reply w = None -> synthetic = [])).
Proof.
  intros Hpool. destruct existing as [|x xs].
  { exists [], w. split; [reflexivity|]. split; [constructor|]. split; [auto|]. congruence. }
  destruct (random_choice_picks (x :: xs) w) as (t & Hin & Hpick); [discriminate|].
  unfold generate_synthetic_poison_entities. rewrite Hpick. cbn [default].
  change (id t) with t. rewrite forallb_forall in Hpool.
  rewrite (synthetic_prompt_ok t core_entity count_needed (Hpool t Hin)).
  set (w1 := {| pending := pending w; sent := sent w; rng := tail (rng w) |}).
  pose proof (call_llm_sent (SyntheticEntitiesPrompt t core_entity count_needed) w1) as Hs.
  assert (Hnext : forall response w2,
            call_llm (SyntheticEntitiesPrompt t core_entity count_needed) w1
            = (response, w2) ->
            next_parsed_reply w = None ->
            match response_text response with
            | Some r => loads r = None
            | None => True
            end).
  { unfold call_llm, next_parsed_reply. simpl. intros response w2 Hcall Hnone.
    destruct (pending w) as [|[r|] rest]; inversion Hcall; subst; simpl; try exact I.
    destruct (String.eqb (content r) EmptyString); [exact I | exact Hnone]. }
  destruct (call_llm (SyntheticEntitiesPrompt t core_entity count_needed) w1)
    as [response w2] eqn:Hcall.
  simpl in Hs. specialize (Hnext response w2 eq_refl).
  assert (Hdone : forall synthetic,
            Forall (fun e => getitem e "is_synthetic" = Ok (JBool true)) synthetic ->
            (next_parsed_reply w = None -> synthetic = []) ->
            exists synthetic' w',
              (Ok synthetic, w2) = (Ok synthetic', w')
              /\ Forall (fun e => getitem e "is_synthetic" = Ok (JBool true)) synthetic'
              /\ (x :: xs = [] -> synthetic' = [] /\ w' = w)
              /\ (x :: xs <> [] ->
                  exists template,
                    In template (x :: xs)
                    /\ sent w' = sent w ++ [SyntheticEntitiesPrompt template core_entity
                                              count_needed]
                    /\ (next_parsed_reply w = None -> synthetic' = []))).
  { intros synthetic Hmarked Hempty. exists synthetic, w2. split; [reflexivity|].
    split; [exact Hmarked|]. split; [discriminate|]. intros _. exists t.
    split; [exact Hin|]. split; [exact Hs | exact Hempty]. }
  destruct (response_text response) as [r|]; [|apply Hdone; [constructor | reflexivity]].
  destruct (loads r) as [v|] eqn:Hloads; [|apply Hdone; [constructor | reflexivity]].
  destruct (mark_synthetic v) as [marked|] eqn:Hmark;
    [|apply Hdone; [constructor | reflexivity]].
  apply Hdone; [eapply mark_synthetic_marks, Hmark|].
  intros Hnone. specialize (Hnext Hnone). congruence.
Qed.

Lemma synthetic_entities_are_marked_witness :
  forallb is_poison_entity [poison_entity "leader" "YANN LECUN"] = true
  /\ exists synthetic w',
       generate_synthetic_poison_entities [poison_entity "leader" "YANN LECUN"] "FAIR" 5
         (world_of [synthetic_reply ["s1"; "s2"]])
       = (Ok synthetic, w')
       /\ Forall (fun e => getitem e "is_synthetic" = Ok (JBool true)) synthetic.
Proof.
  split; [reflexivity|].
  destruct (synthetic_entities_are_marked [poison_entity "leader" "YANN LECUN"] "FAIR" 5
              (world_of [synthetic_reply ["s1"; "s2"]]) eq_refl)
    as (synthetic & w' & Hrun & Hmarked & _).
  exists synthetic, w'. split; [exact Hrun | exact Hmarked].
Defined.

(** ** Pair Composer: one result per core entity *)





(** ** Dictionaries with unique keys *)

Lemma dict_get_not_in {V : Type} (k : string) (d : Dict.t V) :
  ~ In k (Dict.keys d) -> Dict.get k d = None.
Proof.
  intros H. destruct (Dict.get k d) eqn:Hget; [|reflexivity].
  exfalso. apply H. apply dict_contains_in_keys. unfold Dict.contains. rewrite Hget.
  reflexivity.
Qed.

Lemma dict_get_update {V : Type} (k : string) (other base : Dict.t V) :
  NoDup (Dict.keys other) ->
  Dict.get k (Dict.update base other)
  = match Dict.get k other with
    | Some v => Some v
    | None => Dict.get k base
    end.
Proof.
  unfold Dict.update. revert base.
  induction other as [|[k1 v1] other IH]; intros base Hnd; [reflexivity|].
  unfold Dict.keys in Hnd. simpl in Hnd. apply NoDup_cons in Hnd as [Hk1 Hnd].
  simpl. rewrite (IH _ Hnd), dict_get_set.
  destruct (String.eqb k1 k) eqn:E; [|reflexivity].
  apply String.eqb_eq in E. subst k1.
  rewrite dict_get_not_in; [reflexivity|].
  intros Hin. apply Hk1. apply list_elem_of_In. exact Hin.
Qed.

Lemma dict_update_nodup {V : Type} (other base : Dict.t V) :
  NoDup (Dict.keys base) -> NoDup (Dict.keys (Dict.update base other)).
Proof.
  unfold Dict.update. revert base.
  induction other as [|[k1 v1] other IH]; intros base Hnd; [exact Hnd|].
  simpl. apply IH, dict_set_nodup, Hnd.
Qed.

Lemma add_node_proper (G : nx.DiGraph) (n : string) (attr : dict) :
  proper_edges G -> proper_edges (nx.add_node G n attr).
Proof.
  intros HG m e v d Hin Hsucc. unfold nx.add_node in Hin.
  destruct (Dict.get n G) as [e0|] eqn:Hget;
    apply in_dict_set in Hin as [[-> ->]|Hin]; try (eapply HG; eassumption).
  - simpl in Hsucc. eapply HG; [apply dict_get_in, Hget | exact Hsucc].
  - destruct Hsucc.
Qed.

Lemma ensure_node_proper (G : nx.DiGraph) (n : string) :
  proper_edges G -> proper_edges (nx.ensure_node G n).
Proof.
  intros HG. unfold nx.ensure_node. destruct (nx.has_node G n); [exact HG|].
  intros m e v d Hin Hsucc. apply in_dict_set in Hin as [[-> ->]|Hin].
  - destruct Hsucc.
  - eapply HG; eassumption.
Qed.

Lemma add_edge_proper (G : nx.DiGraph) (u v : string) (attr : dict) :
  proper_edges G -> proper_edges (nx.add_edge G u v attr).
Proof.
  intros HG. unfold nx.add_edge.
  set (G' := nx.ensure_node (nx.ensure_node G u) v).
  assert (HG' : proper_edges G') by (apply ensure_node_proper, ensure_node_proper, HG).
  destruct (Dict.get u G') as [e|] eqn:Hget; [|exact HG'].
  intros m e' v' d Hin Hsucc. apply in_dict_set in Hin as [[-> ->]|Hin].
  - simpl in Hsucc. apply in_dict_set in Hsucc as [[-> ->]|Hsucc].
    + apply dict_update_nodup.
      destruct (Dict.get v (nx.succ e)) as [old|] eqn:Hold; simpl; [|constructor].
      eapply HG'; [apply dict_get_in, Hget | apply dict_get_in, Hold].
    + eapply HG'; [apply dict_get_in, Hget | exact Hsucc].
  - eapply HG'; eassumption.
Qed.

Lemma build_networkx_graph_invariant (P : nx.DiGraph -> Prop) :
  P nx.empty ->
  (forall G n members, P G -> P (nx.add_node G n (without_keys ["id"] members))) ->
  (forall G u v members,
     P G -> P (nx.add_edge G u v (without_keys ["source"; "target"] members))) ->
  forall subgraph_data G, build_networkx_graph subgraph_data = Ok G -> P G.
Proof.
  intros Hempty Hnode Hedge subgraph_data G. unfold build_networkx_graph.
  destruct (get_method subgraph_data "nodes") as [node_list|]; cbn [rbind]; [|discriminate].
  destruct (iterate (default (JArr []) node_list)) as [node_items|]; cbn [rbind];
    [|discriminate].
  destruct (for_each add_graph_node node_items nx.empty) as [G1|] eqn:H1; cbn [rbind];
    [|discriminate].
  destruct (get_method subgraph_data "edges") as [edge_list|]; cbn [rbind]; [|discriminate].
  destruct (iterate (default (JArr []) edge_list)) as [edge_items|]; cbn [rbind];
    [|discriminate].
  apply (for_each_invariant P).
  - intros G0 edge G0' HP. unfold add_graph_edge.
    destruct (getitem edge "source") as [source|]; cbn [rbind]; [|discriminate].
    destruct (getitem edge "target") as [target|]; cbn [rbind]; [|discriminate].
    destruct edge; try discriminate.
    destruct (_ || _); [discriminate|].
    destruct (as_str source) as [u|]; cbn [rbind]; [|discriminate].
    destruct (as_str target) as [v|]; cbn [rbind]; [|discriminate].
    intros H. inversion H. apply Hedge, HP.
  - revert H1. apply (for_each_invariant P); [|exact Hempty].
    intros G0 node G0' HP. unfold add_graph_node.
    destruct (getitem node "id") as [node_id|]; cbn [rbind]; [|discriminate].
    destruct node; try discriminate.
    destruct (Dict.contains _ _); [discriminate|].
    destruct (as_str node_id) as [n|]; cbn [rbind]; [|discriminate].
    intros H. inversion H. apply Hnode, HP.
Qed.

Lemma build_networkx_graph_proper (subgraph_data : json) (G : nx.DiGraph) :
  build_networkx_graph subgraph_data = Ok G -> proper_edges G.
Proof.
  apply (build_networkx_graph_invariant proper_edges).
  - intros n e v d [].
  - intros; apply add_node_proper; assumption.
  - intros; apply add_edge_proper; assumption.
Qed.

Lemma walk_edge_data (G : nx.DiGraph) (start : string) (p : list path_edge) :
  proper_edges G -> walk G start p -> Forall (fun e => NoDup (Dict.keys (snd e))) p.
Proof.
  intros HG. revert start. induction p as [|[[u v] d] p IH]; intros start Hw; [constructor|].
  destruct Hw as (_ & (e & Hget & Hin) & Hw). constructor; [|eapply IH, Hw].
  simpl. eapply HG; [apply dict_get_in, Hget | exact Hin].
Qed.

(** ** Poison Text Generator: the path structure *)

Lemma format_edges_edges (G : nx.DiGraph) (path : list path_edge) :
  forall i ps,
    Generator.edges (Generator.format_edges G i path ps)
    = Generator.edges ps ++ edge_infos i path.
Proof.
  induction path as [|[[s t] d] path IH]; intros i ps; simpl.
  - rewrite app_nil_r. reflexivity.
  - rewrite IH. simpl. rewrite <- app_assoc. reflexivity.
Qed.

Lemma edge_info_get (i : nat) (s t k : string) (d : dict) :
  NoDup (Dict.keys d) ->
  existsb (String.eqb k) ["index"; "source"; "target"] = false ->
  Dict.get k (Generator.edge_info i s t d) = Dict.get k d.
Proof.
  intros Hnd Hk. unfold Generator.edge_info. rewrite dict_get_update by exact Hnd.
  destruct (Dict.get k d); [reflexivity|].
  cbn [existsb] in Hk. apply orb_false_iff in Hk as [H1 Hk].
  apply orb_false_iff in Hk as [H2 Hk]. apply orb_false_iff in Hk as [H3 _].
  cbn [Dict.get]. rewrite (String.eqb_sym "index"), H1, (String.eqb_sym "source"), H2,
    (String.eqb_sym "target"), H3. reflexivity.
Qed.

Lemma edge_infos_core (path : list path_edge) :
  Forall (fun e => NoDup (Dict.keys (snd e))) path ->
  forall i, existsb core_wrong_answer (edge_infos i path) = has_core_wrong_answer path.
Proof.
  unfold has_core_wrong_answer.
  induction 1 as [|[[s t] d] path Hd Hpath IH]; intros i; [reflexivity|].
  simpl. rewrite IH. f_equal. unfold core_wrong_answer, Dict.contains.
  simpl in Hd. rewrite !edge_info_get by (auto; reflexivity). reflexivity.
Qed.

(** ** Poison Text Generator: the template needs a core wrong answer *)

Lemma template_wrong_answers_core (edge_list : list dict) :
  forall acc answers,
    for_each (fun answers edge =>
                match Dict.get "poison_text" edge with
                | Some text =>
                    _ <- getitem (JObj edge) "source" ;;
                    _ <- getitem (JObj edge) "target" ;;
                    Ok (answers
                        ++ [(text, default (JBool false) (Dict.get "is_core_answer" edge))])
                | None => Ok answers
                end) edge_list acc = Ok answers ->
    existsb (fun wa : json * json => truthy (snd wa)) answers = true ->
    existsb (fun wa : json * json => truthy (snd wa)) acc = true
    \/ existsb core_wrong_answer edge_list = true.
Proof.
  induction edge_list as [|edge edge_list IH]; intros acc answers Hrun Hcore.
  - inversion Hrun. subst. left. exact Hcore.
  - cbn [for_each] in Hrun. cbn [existsb]. unfold core_wrong_answer at 1, Dict.contains.
    destruct (Dict.get "poison_text" edge) as [text|] eqn:Htext.
    + destruct (getitem (JObj edge) "source"); cbn [rbind] in Hrun; [|discriminate].
      destruct (getitem (JObj edge) "target"); cbn [rbind] in Hrun; [|discriminate].
      destruct (IH _ _ Hrun Hcore) as [Hacc|Hrest].
      * rewrite existsb_app in Hacc. apply orb_true_iff in Hacc as [Hacc|Hnew];
          [left; exact Hacc|]. right. simpl in Hnew. rewrite orb_false_r in Hnew.
        destruct (Dict.get "is_core_answer" edge); simpl in *; [rewrite Hnew|discriminate];
          reflexivity.
      * right. rewrite Hrest. apply orb_true_r.
    + cbn [rbind] in Hrun. destruct (IH _ _ Hrun Hcore) as [Hacc|Hrest];
        [left; exact Hacc | right; exact Hrest].
Qed.

Lemma get_poison_text_prompt_core (ps : Generator.path_structure) (description : string)
    (max_words : Z) (p : Generator.prompt) :
  Generator.get_poison_text_prompt ps description max_words = Generator.Return p ->
  existsb core_wrong_answer (Generator.edges ps) = true.
Proof.
  unfold Generator.get_poison_text_prompt, Generator.template_wrong_answers.
  destruct (for_each _ (Generator.edges ps) []) as [answers|] eqn:Hanswers;
    cbn [rbind]; [|discriminate].
  destruct (Generator.all_entities (Generator.edges ps)) as [entities|]; cbn [rbind];
    [|discriminate].
  destruct (List.filter _ answers) as [|wa rest] eqn:Hfilter; [discriminate|].
  intros _.
  assert (Hcore : existsb (fun wa : json * json => truthy (snd wa)) answers = true).
  { apply existsb_exists. exists wa.
    assert (Hin : In wa (List.filter (fun wa : json * json => truthy (snd wa)) answers)).
    { rewrite Hfilter. left. reflexivity. }
    apply filter_In in Hin. exact Hin. }
  destruct (template_wrong_answers_core _ _ _ Hanswers Hcore) as [Hacc|H];
    [discriminate | exact H].
Qed.

Section GeneratorProperties.

Variable format_value : json -> string.
Variable self : Generator.PoisonTextGenerator.

Lemma generate_with_template_core (path : list path_edge) (core_entity : string)
    (G : nx.DiGraph) (s s1 : Generator.service) (text : string) :
  Generator.has_template self = true ->
  Forall (fun e => NoDup (Dict.keys (snd e))) path ->
  Generator.generate_poison_text_for_path format_value self path core_entity G s
  = (Generator.Return text, s1) ->
  has_core_wrong_answer path = true.
Proof.
  intros Htemplate Hproper. unfold Generator.generate_poison_text_for_path.
  destruct (Generator.format_path_description _ _) as [description|]; [|discriminate].
  rewrite Htemplate.
  destruct (Generator.get_poison_text_prompt _ _ _) as [p|] eqn:Hprompt; [|discriminate].
  intros _. apply get_poison_text_prompt_core in Hprompt.
  unfold Generator.format_path_for_output in Hprompt.
  rewrite format_edges_edges in Hprompt. simpl in Hprompt.
  rewrite edge_infos_core in Hprompt by exact Hproper. exact Hprompt.
Qed.

Lemma generate_texts_all (P : list path_edge -> Prop) (core_entity : string)
    (G : nx.DiGraph) (all_paths : list (list path_edge)) :
  (forall path s text s1,
     In path all_paths ->
     Generator.generate_poison_text_for_path format_value self path core_entity G s
     = (Generator.Return text, s1) -> P path) ->
  forall acc s texts s',
    Generator.generate_texts format_value self all_paths core_entity G acc s
    = (Generator.Return texts, s') ->
    Forall P all_paths.
Proof.
  induction all_paths as [|path rest IH]; intros HP acc s texts s' Hrun; [constructor|].
  cbn [Generator.generate_texts] in Hrun.
  destruct (Generator.generate_poison_text_for_path _ _ path _ _ s) as [[text|e] s1] eqn:Hgen;
    [|discriminate].
  constructor.
  - eapply HP; [left; reflexivity | exact Hgen].
  - eapply IH; [|exact Hrun]. intros p s0 t s2 Hin. apply HP. right. exact Hin.
Qed.

Lemma process_one_template (core_entity : string) (subgraph_data : json)
    (s s1 : Generator.service) (entry : Generator.subgraph_result) :
  Generator.has_template self = true ->
  Generator.process_one format_value self core_entity subgraph_data s
  = (Generator.Return entry, s1) ->
  exists G all_paths,
    build_networkx_graph subgraph_data = Ok G
    /\ extract_all_paths G core_entity = Ok all_paths
    /\ Forall (fun path => has_core_wrong_answer path = true) all_paths.
Proof.
  intros Htemplate. unfold Generator.process_one.
  destruct (build_networkx_graph subgraph_data) as [G|] eqn:HG; cbn [rbind]; [|discriminate].
  destruct (extract_all_paths G core_entity) as [all_paths|] eqn:Hpaths; cbn [rbind];
    [|discriminate].
  destruct (map_result _ all_paths) as [descriptions|]; cbn [rbind]; [|discriminate].
  destruct (Generator.generate_texts _ _ all_paths _ _ _ _) as [[texts|e] s2] eqn:Htexts;
    [|discriminate].
  intros _. exists G, all_paths. split; [reflexivity|]. split; [exact Hpaths|].
  eapply generate_texts_all; [|exact Htexts].
  intros path s0 text s3 Hin Hgen.
  eapply generate_with_template_core; [exact Htemplate | | exact Hgen].
  apply (walk_edge_data G core_entity).
  - eapply build_networkx_graph_proper, HG.
  - apply (paths_are_walks G core_entity all_paths Hpaths path Hin).
Qed.

Lemma process_items_each (P : string -> json -> Prop) (items : list (string * json)) :
  (forall c sd s entry s1,
     In (c, sd) items ->
     Generator.process_one format_value self c sd s = (Generator.Return entry, s1) ->
     P c sd) ->
  forall acc s results s',
    Generator.process_items format_value self items acc s = (Generator.Return results, s') ->
    forall c sd, In (c, sd) items -> P c sd.
Proof.
  induction items as [|[c0 sd0] items IH]; intros HP acc s results s' Hrun c sd Hin;
    [destruct Hin|].
  cbn [Generator.process_items] in Hrun.
  destruct (Generator.process_one _ _ c0 sd0 s) as [[entry|e] s1] eqn:Hone; [|discriminate].
  destruct Hin as [Heq|Hin].
  - inversion Heq. subst. eapply HP; [left; reflexivity | exact Hone].
  - eapply IH; [|exact Hrun|exact Hin]. intros c' sd' s0 e0 s2 Hin'. apply HP. right.
    exact Hin'.
Qed.

End GeneratorProperties.

(** X13. With the template module of the repository loaded, the
    generator's [process_all_subgraphs] returns only on graph data all
    of whose enumerated paths carry a core wrong answer, an edge with a
    [poison_text] and a truthy [is_core_answer]: for every core entity
    the subgraph is read, its paths are enumerated, and each of them has
    such an edge.  On a path without one the template raises
    [IndexError], which nothing catches. *)
Theorem template_needs_a_core_wrong_answer (format_value : json -> string)
    (self : Generator.PoisonTextGenerator) (graph_data : list (string * json))
    (s s' : Generator.service) (results : Dict.t Generator.subgraph_result) :
  Generator.has_template self = true ->
  Generator.process_all_subgraphs format_value self (JObj graph_data) s
  = (Generator.Return results, s') ->
  forall core_entity subgraph_data,
    In (core_entity, subgraph_data) graph_data ->
    exists G all_paths,
      build_networkx_graph subgraph_data = Ok G
      /\ extract_all_paths G core_entity = Ok all_paths
      /\ Forall (fun path => has_core_wrong_answer path = true) all_paths.
Proof.
  intros Htemplate Hrun. unfold Generator.process_all_subgraphs in Hrun.
  eapply (process_items_each format_value self
            (fun c sd => exists G all_paths,
                 build_networkx_graph sd = Ok G
                 /\ extract_all_paths G c = Ok all_paths
                 /\ Forall (fun path => has_core_wrong_answer path = true) all_paths));
    [|exact Hrun].
  intros c sd s0 entry s1 _ Hone. eapply process_one_template; eassumption.
Qed.

Lemma template_needs_a_core_wrong_answer_witness :
  Generator.has_template generator_with_template = true
  /\ (exists results s',
        Generator.process_all_subgraphs str_of_scalar generator_with_template
          (JObj one_poisoned_edge) (answering ["A passage."])
        = (Generator.Return results, s'))
  /\ exists G all_paths,
       build_networkx_graph (fair_subgraph [poisoned_edge_json]) = Ok G
       /\ extract_all_paths G "FAIR" = Ok all_paths
       /\ Forall (fun path => has_core_wrong_answer path = true) all_paths.
Proof.
  split; [reflexivity|]. split; [eexists _, _; vm_compute; reflexivity|].
  eapply (template_needs_a_core_wrong_answer str_of_scalar generator_with_template
            one_poisoned_edge (answering ["A passage."]));
    [reflexivity | vm_compute; reflexivity | left; reflexivity].
Defined.

(** A second path, without a poisoned edge, ends the run of the
    generator after the request for the first path. *)
Example plain_path_ends_the_run :
  let run := Generator.process_all_subgraphs str_of_scalar generator_with_template
               (JObj one_plain_edge_more) (answering ["A passage."; "Another."]) in
  fst run = Generator.Raised Generator.IndexError
  /\ length (Generator.requests (snd run)) = 1.
Proof. vm_compute. split; reflexivity. Qed.

(** ** Poison Text Generator: one request per path *)

Lemma map_result_length {A B : Type} (f : A -> result B) (xs : list A) (ys : list B) :
  map_result f xs = Ok ys -> length ys = length xs.
Proof.
  revert ys. induction xs as [|x xs IH]; intros ys H; simpl in H.
  - inversion H. reflexivity.
  - destruct (f x); cbn [rbind] in H; [|discriminate].
    destruct (map_result f xs) as [ys'|]; cbn [rbind] in H; [|discriminate].
    inversion H. simpl. rewrite (IH ys' eq_refl). reflexivity.
Qed.

Lemma append_empty (a b : string) : (a ++ b)%string = EmptyString -> a = EmptyString.
Proof. destruct a; [reflexivity | discriminate]. Qed.

Lemma merge_poison_texts_empty (texts : list string) :
  Forall (fun t => t <> EmptyString) texts ->
  Generator.merge_poison_texts texts = EmptyString <-> texts = [].
Proof.
  intros Hne. split; [|intros ->; reflexivity].
  destruct texts as [|t [|t2 rest]]; [reflexivity | |]; intros H; exfalso;
    apply Forall_cons in Hne as [Ht _]; apply Ht.
  - exact H.
  - simpl in H. apply append_empty in H. exact H.
Qed.

Section GeneratorRequests.

Variable format_value : json -> string.
Variable self : Generator.PoisonTextGenerator.

Lemma generate_one_request (path : list path_edge) (core_entity : string)
    (G : nx.DiGraph) (s s1 : Generator.service) (text : string) :
  Generator.generate_poison_text_for_path format_value self path core_entity G s
  = (Generator.Return text, s1) ->
  length (Generator.requests s1) = S (length (Generator.requests s)).
Proof.
  unfold Generator.generate_poison_text_for_path.
  destruct (Generator.format_path_description _ _) as [description|]; [|discriminate].
  destruct (if Generator.has_template self then _ else _) as [p|]; [|discriminate].
  unfold Generator.call_llm.
  destruct (Generator.replies s) as [|[reply|] rest];
    try destruct (String.eqb reply EmptyString);
    intros H; inversion H; simpl; rewrite length_app; simpl; lia.
Qed.

Lemma generate_texts_counts (core_entity : string) (G : nx.DiGraph)
    (all_paths : list (list path_edge)) :
  forall acc s texts s',
    Generator.generate_texts format_value self all_paths core_entity G acc s
    = (Generator.Return texts, s') ->
    Forall (fun t => t <> EmptyString) acc ->
    Forall (fun t => t <> EmptyString) texts
    /\ length acc <= length texts <= length acc + length all_paths
    /\ length (Generator.requests s')
       = length (Generator.requests s) + length all_paths.
Proof.
  induction all_paths as [|path rest IH]; intros acc s texts s' Hrun Hacc.
  - simpl in Hrun. inversion Hrun. subst. simpl. split; [exact Hacc|]. lia.
  - cbn [Generator.generate_texts] in Hrun.
    destruct (Generator.generate_poison_text_for_path _ _ path _ _ s) as [[text|e] s1] eqn:Hgen;
      [|discriminate].
    pose proof (generate_one_request _ _ _ _ _ _ Hgen) as Hreq.
    destruct (String.eqb text EmptyString) eqn:E.
    + destruct (IH _ _ _ _ Hrun Hacc) as (H1 & H2 & H3). simpl. split; [exact H1|]. lia.
    + apply String.eqb_neq in E.
      destruct (IH _ _ _ _ Hrun) as (H1 & H2 & H3).
      { apply Forall_app. split; [exact Hacc|]. constructor; [exact E | constructor]. }
      rewrite length_app in H2. simpl in *. split; [exact H1|]. lia.
Qed.

End GeneratorRequests.

(** X14. When the generator returns the entry of a core entity, it has
    sent exactly one request per enumerated path, whichever prompt it
    uses.  The entry lists one description per path, its count of poison
    texts is at most the count of paths, and its merged text is empty
    exactly when no path produced a text. *)
Theorem generator_sends_one_request_per_path (format_value : json -> string)
    (self : Generator.PoisonTextGenerator) (core_entity : string) (subgraph_data : json)
    (s s' : Generator.service) (entry : Generator.subgraph_result) :
  Generator.process_one format_value self core_entity subgraph_data s
  = (Generator.Return entry, s') ->
  length (Generator.requests s')
  = length (Generator.requests s) + Generator.path_count entry
  /\ length (Generator.paths entry) = Generator.path_count entry
  /\ Generator.poison_text_count entry <= Generator.path_count entry
  /\ (Generator.poison_text entry = EmptyString
      <-> Generator.poison_text_count entry = 0).
Proof.
  unfold Generator.process_one.
  destruct (build_networkx_graph subgraph_data) as [G|]; cbn [rbind]; [|discriminate].
  destruct (extract_all_paths G core_entity) as [all_paths|]; cbn [rbind]; [|discriminate].
  destruct (map_result _ all_paths) as [descriptions|] eqn:Hdescriptions; cbn [rbind];
    [|discriminate].
  destruct (Generator.generate_texts _ _ all_paths _ _ _ _) as [[texts|e] s2] eqn:Htexts;
    [|discriminate].
  intros H. inversion H. subst. clear H. simpl.
  destruct (generate_texts_counts _ _ _ _ _ _ _ _ _ Htexts (List.Forall_nil _))
    as (Hne & Hlen & Hreq).
  split; [exact Hreq|]. split; [eapply map_result_length, Hdescriptions|].
  split; [simpl in Hlen; lia|].
  rewrite (merge_poison_texts_empty texts Hne). split.
  - intros ->. reflexivity.
  - intros H0. destruct texts; [reflexivity | discriminate].
Qed.

Lemma generator_sends_one_request_per_path_witness :
  exists entry s',
    Generator.process_one str_of_scalar default_generator "FAIR"
      (fair_subgraph [poisoned_edge_json; plain_edge_json])
      (answering ["A passage."]) = (Generator.Return entry, s')
    /\ length (Generator.requests s')
       = length (Generator.requests (answering ["A passage."]))
         + Generator.path_count entry
    /\ Generator.path_count entry = 2
    /\ Generator.poison_text_count entry = 1.
Proof.
  eexists _, _. split; [vm_compute; reflexivity|].
  destruct (generator_sends_one_request_per_path str_of_scalar default_generator "FAIR"
              (fair_subgraph [poisoned_edge_json; plain_edge_json])
              (answering ["A passage."]) _ _ eq_refl) as (H & _).
  split; [exact H|]. split; reflexivity.
Defined.

(** ** Poison Text Generator: the default prompt on persisted data *)

Lemma dict_contains_update {V : Type} (k : string) (other base : Dict.t V) :
  Dict.contains k (Dict.update base other)
  = Dict.contains k other || Dict.contains k base.
Proof.
  unfold Dict.update. revert base.
  induction other as [|[k1 v1] other IH]; intros base; [reflexivity|].
  simpl. rewrite IH, dict_contains_set. unfold Dict.contains at 3. simpl.
  destruct (String.eqb k1 k); [apply orb_true_r|]. reflexivity.
Qed.

Lemma without_keys_contains (k : string) (ks : list string) (d : dict) :
  existsb (String.eqb k) ks = true -> Dict.contains k (without_keys ks d) = false.
Proof.
  intros Hk. unfold without_keys, Dict.contains.
  induction d as [|[k' v] d IH]; [reflexivity|]. simpl.
  destruct (existsb (String.eqb k') ks) eqn:E; simpl; [exact IH|].
  destruct (String.eqb k' k) eqn:E'; [|exact IH].
  apply String.eqb_eq in E'. subst k'. congruence.
Qed.

Lemma add_node_plain (G : nx.DiGraph) (n : string) (attr : dict) :
  plain_edges G -> plain_edges (nx.add_node G n attr).
Proof.
  intros HG m e v d Hin Hsucc. unfold nx.add_node in Hin.
  destruct (Dict.get n G) as [e0|] eqn:Hget;
    apply in_dict_set in Hin as [[-> ->]|Hin]; try (eapply HG; eassumption).
  - simpl in Hsucc. eapply HG; [apply dict_get_in, Hget | exact Hsucc].
  - destruct Hsucc.
Qed.

Lemma ensure_node_plain (G : nx.DiGraph) (n : string) :
  plain_edges G -> plain_edges (nx.ensure_node G n).
Proof.
  intros HG. unfold nx.ensure_node. destruct (nx.has_node G n); [exact HG|].
  intros m e v d Hin Hsucc. apply in_dict_set in Hin as [[-> ->]|Hin].
  - destruct Hsucc.
  - eapply HG; eassumption.
Qed.

Lemma add_edge_plain (G : nx.DiGraph) (u v : string) (members : dict) :
  plain_edges G ->
  plain_edges (nx.add_edge G u v (without_keys ["source"; "target"] members)).
Proof.
  intros HG. unfold nx.add_edge.
  set (G' := nx.ensure_node (nx.ensure_node G u) v).
  assert (HG' : plain_edges G') by (apply ensure_node_plain, ensure_node_plain, HG).
  destruct (Dict.get u G') as [e|] eqn:Hget; [|exact HG'].
  intros m e' v' d Hin Hsucc. apply in_dict_set in Hin as [[-> ->]|Hin].
  - simpl in Hsucc. apply in_dict_set in Hsucc as [[-> ->]|Hsucc].
    + assert (Hold : plain_data (default [] (Dict.get v (nx.succ e)))).
      { destruct (Dict.get v (nx.succ e)) as [old|] eqn:Hold; simpl.
        - eapply HG'; [apply dict_get_in, Hget | apply dict_get_in, Hold].
        - split; [constructor|]. split; reflexivity. }
      destruct Hold as (Hnd & Hs & Ht). split; [apply dict_update_nodup, Hnd|].
      rewrite !dict_contains_update, Hs, Ht, !without_keys_contains by reflexivity.
      split; reflexivity.
    + eapply HG'; [apply dict_get_in, Hget | exact Hsucc].
  - eapply HG'; eassumption.
Qed.

Lemma build_networkx_graph_plain (subgraph_data : json) (G : nx.DiGraph) :
  build_networkx_graph subgraph_data = Ok G -> plain_edges G.
Proof.
  apply (build_networkx_graph_invariant plain_edges).
  - intros n e v d [].
  - intros; apply add_node_plain; assumption.
  - intros; apply add_edge_plain; assumption.
Qed.

Lemma walk_plain (G : nx.DiGraph) (start : string) (p : list path_edge) :
  plain_edges G -> walk G start p -> Forall (fun e => plain_data (snd e)) p.
Proof.
  intros HG. revert start. induction p as [|[[u v] d] p IH]; intros start Hw; [constructor|].
  destruct Hw as (_ & (e & Hget & Hin) & Hw). constructor; [|eapply IH, Hw].
  simpl. eapply HG; [apply dict_get_in, Hget | exact Hin].
Qed.

Lemma note_node_contains (G : nx.DiGraph) (nodes_info : Dict.t dict) (n m : string) :
  Dict.contains m (Generator.note_node G nodes_info n)
  = String.eqb n m || Dict.contains m nodes_info.
Proof.
  unfold Generator.note_node. destruct (Dict.contains n nodes_info) eqn:Hn.
  - destruct (String.eqb n m) eqn:E; [|reflexivity].
    apply String.eqb_eq in E. subst m. exact Hn.
  - apply dict_contains_set.
Qed.

Lemma edge_info_plain (i : nat) (s t : string) (d : dict) :
  plain_data d ->
  Dict.get "source" (Generator.edge_info i s t d) = Some (JStr s)
  /\ Dict.get "target" (Generator.edge_info i s t d) = Some (JStr t)
  /\ Dict.contains "index" (Generator.edge_info i s t d) = true.
Proof.
  intros (Hnd & Hs & Ht). unfold Generator.edge_info.
  unfold Dict.contains in Hs, Ht.
  rewrite !dict_get_update by exact Hnd.
  destruct (Dict.get "source" d); [discriminate|].
  destruct (Dict.get "target" d); [discriminate|].
  split; [reflexivity|]. split; [reflexivity|].
  rewrite dict_contains_update. apply orb_true_r.
Qed.

Lemma format_edges_readable (G : nx.DiGraph) (path : list path_edge) :
  Forall (fun e => plain_data (snd e)) path ->
  forall i ps, readable ps -> readable (Generator.format_edges G i path ps).
Proof.
  induction 1 as [|[[s t] d] path Hd Hpath IH]; intros i ps Hps; [exact Hps|].
  cbn [Generator.format_edges]. apply IH. destruct Hps as (Hcore & Hedges & Hanswers).
  simpl in Hd. destruct (edge_info_plain i s t d Hd) as (Hs & Ht & Hi).
  split; [|split]; simpl.
  - rewrite !note_node_contains, Hcore, !orb_true_r. reflexivity.
  - apply Forall_app. split.
    + eapply Forall_impl; [exact Hedges|]. simpl.
      intros edge (s' & t' & H1 & H2 & H3 & H4 & H5). exists s', t'.
      rewrite !note_node_contains, H4, H5, !orb_true_r. auto.
    + constructor; [|constructor]. exists s, t. rewrite !note_node_contains.
      rewrite !String.eqb_refl, !orb_true_r. auto.
  - apply Forall_app. split; [exact Hanswers|]. unfold Generator.wrong_answer.
    destruct (Dict.get "poison_text" d) as [text|]; [|constructor].
    destruct (truthy text); [|constructor].
    constructor; [|constructor]. eexists _, _, _, _, _. reflexivity.
Qed.

Lemma format_path_for_output_readable (G : nx.DiGraph) (path : list path_edge)
    (core_entity : string) :
  Forall (fun e => plain_data (snd e)) path ->
  readable (Generator.format_path_for_output path core_entity G).
Proof.
  intros Hpath. unfold Generator.format_path_for_output.
  apply format_edges_readable; [exact Hpath|].
  split; [|split]; simpl; [|constructor|constructor].
  unfold Dict.contains. simpl. rewrite String.eqb_refl. reflexivity.
Qed.

Section GeneratorDefault.

Variable format_value : json -> string.
Variable self : Generator.PoisonTextGenerator.
Hypothesis no_template : Generator.has_template self = false.

Lemma answers_from_ok (answers : list dict) :
  Forall (fun answer =>
            exists text relation intent source target,
              answer = [("text", text); ("relation", relation);
                        ("context_intent", intent); ("source", source);
                        ("target", target)]) answers ->
  forall i, exists lines, Generator.answers_from format_value i answers = Ok lines.
Proof.
  induction 1 as [|answer answers (text & relation & intent & source & target & ->) _ IH];
    intros i; simpl.
  - eexists. reflexivity.
  - destruct (IH (S i)) as [more ->]. cbn. eexists. reflexivity.
Qed.

Lemma format_path_description_ok (ps : Generator.path_structure) :
  readable ps -> exists text, Generator.format_path_description format_value ps = Ok text.
Proof.
  intros (Hcore & Hedges & Hanswers). unfold Generator.format_path_description.
  apply dict_contains_get in Hcore as [info Hinfo]. cbn [Generator.node_info].
  rewrite Hinfo. cbn [rbind].
  destruct (map_result_ok (Generator.edge_lines format_value (Generator.nodes ps))
              (Generator.edges ps)) as (chain & -> & _).
  { intros edge Hin. rewrite List.Forall_forall in Hedges.
    destruct (Hedges edge Hin) as (s & t & Hs & Ht & Hi & Hns & Hnt).
    apply dict_contains_get in Hi as [index Hi].
    apply dict_contains_get in Hns as [sinfo Hns].
    apply dict_contains_get in Hnt as [tinfo Hnt].
    unfold Generator.edge_lines, getitem. rewrite Hs, Ht, Hi. cbn [rbind Generator.node_info].
    rewrite Hns, Hnt. cbn [rbind]. eexists. reflexivity. }
  cbn [rbind].
  destruct (Generator.target_wrong_answers ps) as [|answer answers] eqn:Htwa.
  - cbn [rbind]. eexists. reflexivity.
  - destruct (answers_from_ok _ Hanswers 0) as [lines ->]. cbn [rbind].
    eexists. reflexivity.
Qed.

Lemma all_entities_texts (edge_list : list dict) (nodes_info : Dict.t dict) :
  Forall (fun edge =>
            exists s t,
              Dict.get "source" edge = Some (JStr s)
              /\ Dict.get "target" edge = Some (JStr t)
              /\ Dict.contains "index" edge = true
              /\ Dict.contains s nodes_info = true
              /\ Dict.contains t nodes_info = true) edge_list ->
  forall acc,
    forallb Generator.is_str acc = true ->
    exists entities,
      for_each (fun entities edge =>
                  source <- getitem (JObj edge) "source" ;;
                  if Generator.hashable source then
                    target <- getitem (JObj edge) "target" ;;
                    if Generator.hashable target then Ok (entities ++ [source; target])
                    else Raise TypeError
                  else Raise TypeError) edge_list acc = Ok entities
      /\ forallb Generator.is_str entities = true.
Proof.
  induction 1 as [|edge edge_list (s & t & Hs & Ht & _) _ IH]; intros acc Hacc.
  - exists acc. split; [reflexivity | exact Hacc].
  - cbn [for_each]. unfold getitem. rewrite Hs. cbn [rbind Generator.hashable].
    rewrite Ht. cbn [rbind Generator.hashable]. apply IH.
    rewrite forallb_app, Hacc. reflexivity.
Qed.

Lemma default_prompt_ok (ps : Generator.path_structure) (description : string) :
  readable ps ->
  Generator._get_default_prompt (Generator.max_poison_words self) ps description
  = Ok (Generator.DefaultPrompt ps description (Generator.max_poison_words self)).
Proof.
  intros (Hcore & Hedges & Hanswers). unfold Generator._get_default_prompt.
  destruct (map_result_ok (fun answer => getitem (JObj answer) "text")
              (Generator.target_wrong_answers ps)) as (texts & -> & _).
  { intros answer Hin. rewrite List.Forall_forall in Hanswers.
    destruct (Hanswers answer Hin) as (text & relation & intent & source & target & ->).
    eexists. reflexivity. }
  cbn [rbind]. unfold Generator.all_entities.
  destruct (all_entities_texts _ _ Hedges [] eq_refl) as (entities & Hentities & Hstr).
  rewrite Hentities. cbn [rbind]. rewrite Hstr. reflexivity.
Qed.

Lemma generate_default_returns (path : list path_edge) (core_entity : string)
    (G : nx.DiGraph) (s : Generator.service) :
  Forall (fun e => plain_data (snd e)) path ->
  exists text s1,
    Generator.generate_poison_text_for_path format_value self path core_entity G s
    = (Generator.Return text, s1).
Proof.
  intros Hpath. unfold Generator.generate_poison_text_for_path.
  pose proof (format_path_for_output_readable G path core_entity Hpath) as Hps.
  destruct (format_path_description_ok _ Hps) as [description ->].
  rewrite no_template, (default_prompt_ok _ _ Hps). cbn [Generator.lift].
  destruct (Generator.call_llm _ s) as [[text|] s1].
  - destruct (String.eqb text EmptyString); eexists _, _; reflexivity.
  - eexists _, _. reflexivity.
Qed.

Lemma generate_texts_default_returns (core_entity : string) (G : nx.DiGraph)
    (all_paths : list (list path_edge)) :
  Forall (fun path => Forall (fun e => plain_data (snd e)) path) all_paths ->
  forall acc s,
  exists texts s',
    Generator.generate_texts format_value self all_paths core_entity G acc s
    = (Generator.Return texts, s').
Proof.
  induction 1 as [|path rest Hpath _ IH]; intros acc s.
  - eexists _, _. reflexivity.
  - cbn [Generator.generate_texts].
    destruct (generate_default_returns path core_entity G s Hpath) as (text & s1 & ->).
    apply IH.
Qed.

Lemma process_one_default_returns (core_entity : string) (subgraph_data : json)
    (G : nx.DiGraph) (s : Generator.service) :
  build_networkx_graph subgraph_data = Ok G ->
  mentioned subgraph_data core_entity = true ->
  exists entry s1,
    Generator.process_one format_value self core_entity subgraph_data s
    = (Generator.Return entry, s1).
Proof.
  intros HG Hmentioned. unfold Generator.process_one. rewrite HG. cbn [rbind].
  assert (Hpaths : exists all_paths, extract_all_paths G core_entity = Ok all_paths).
  { pose proof (dfs_behaves core_entity G _ core_entity _
                  (initial_dfs_inv G core_entity)) as H.
    unfold extract_all_paths, extract_all_paths_fuel.
    destruct (dfs _ G core_entity _) as [st'|e]; [eexists; reflexivity|].
    destruct H as [_ [Hc|Hc]].
    - rewrite (build_networkx_graph_closed _ _ HG) in Hc. discriminate.
    - rewrite (build_networkx_graph_nodes _ _ HG) in Hc. congruence. }
  destruct Hpaths as [all_paths Hpaths]. rewrite Hpaths. cbn [rbind].
  assert (Hplain : Forall (fun path => Forall (fun e => plain_data (snd e)) path) all_paths).
  { apply List.Forall_forall. intros path Hin.
    apply (walk_plain G core_entity); [eapply build_networkx_graph_plain, HG|].
    apply (paths_are_walks G core_entity all_paths Hpaths path Hin). }
  destruct (map_result_ok
              (fun path => Generator.format_path_description format_value
                             (Generator.format_path_for_output path core_entity G))
              all_paths) as (descriptions & -> & _).
  { intros path Hin. rewrite List.Forall_forall in Hplain.
    apply format_path_description_ok, format_path_for_output_readable, Hplain, Hin. }
  cbn [rbind].
  destruct (generate_texts_default_returns core_entity G all_paths Hplain [] s)
    as (texts & s1 & ->).
  eexists _, _. reflexivity.
Qed.

End GeneratorDefault.

Lemma process_items_default_returns (format_value : json -> string)
    (self : Generator.PoisonTextGenerator) (items : list (string * json)) :
  Generator.has_template self = false ->
  (forall c sd, In (c, sd) items ->
                (exists G, build_networkx_graph sd = Ok G) /\ mentioned sd c = true) ->
  forall acc s,
  exists results s',
    Generator.process_items format_value self items acc s = (Generator.Return results, s')
    /\ forall c, Dict.contains c results
                 = Dict.contains c acc || existsb (fun kv => String.eqb (fst kv) c) items.
Proof.
  intros Hdefault. induction items as [|[c0 sd0] items IH]; intros Hitems acc s.
  - exists acc, s. split; [reflexivity|]. intros c. simpl. rewrite orb_false_r. reflexivity.
  - cbn [Generator.process_items].
    destruct (Hitems c0 sd0 (or_introl eq_refl)) as [[G HG] Hm].
    destruct (process_one_default_returns format_value self Hdefault c0 sd0 G s HG Hm)
      as (entry & s1 & ->).
    destruct (IH (fun c sd H => Hitems c sd (or_intror H)) (Dict.set c0 entry acc) s1)
      as (results & s' & Hrun & Hkeys).
    exists results, s'. split; [exact Hrun|]. intros c.
    rewrite Hkeys, dict_contains_set. simpl.
    destruct (String.eqb c0 c), (Dict.contains c acc); reflexivity.
Qed.

Lemma build_networkx_graph_saved (sub : subgraph) :
  exists G, build_networkx_graph (subgraph_to_json sub) = Ok G.
Proof.
  destruct (load_graph_saved sub) as (G & HG & _). exists G.
  apply load_graph_agrees, HG.
Qed.

(** X15. Without the template module, the generator's
    [process_all_subgraphs] returns on all persisted graph data in which
    every core entity is a node or an edge end point of its subgraph:
    reading the subgraphs, enumerating the paths, describing them and
    building the default prompt raise nothing, whatever the service
    replies, and the result has an entry for exactly the core entities of
    the graph data. *)
Theorem default_generator_returns_on_persisted_data (format_value : json -> string)
    (self : Generator.PoisonTextGenerator) (graph_data : Dict.t subgraph)
    (s : Generator.service) :
  Generator.has_template self = false ->
  (forall c sub, In (c, sub) graph_data -> mentioned (subgraph_to_json sub) c = true) ->
  exists results s',
    Generator.process_all_subgraphs format_value self (graph_data_to_json graph_data) s
    = (Generator.Return results, s')
    /\ forall c, Dict.contains c results = Dict.contains c graph_data.
Proof.
  intros Hdefault Hmentioned. unfold Generator.process_all_subgraphs, graph_data_to_json.
  destruct (process_items_default_returns format_value self
              (map (fun kv => (fst kv, subgraph_to_json (snd kv))) graph_data) Hdefault)
    with (acc := @nil (string * Generator.subgraph_result)) (s := s)
    as (results & s' & Hrun & Hkeys).
  { intros c sd Hin. apply in_map_iff in Hin as ([c' sub] & Heq & Hin).
    simpl in Heq. inversion Heq. subst. split.
    - apply build_networkx_graph_saved.
    - eapply Hmentioned, Hin. }
  exists results, s'. split; [exact Hrun|]. intros c. rewrite Hkeys. simpl.
  rewrite existsb_key_contains. apply dict_contains_keys, dict_keys_map.
Qed.

Lemma default_generator_returns_on_persisted_data_witness :
  Generator.has_template default_generator = false
  /\ (forall c sub, In (c, sub) [("FAIR", {| nodes := []; edges := [plain_edge] |})] ->
                    mentioned (subgraph_to_json sub) c = true)
  /\ exists results s',
       Generator.process_all_subgraphs str_of_scalar default_generator
         (graph_data_to_json [("FAIR", {| nodes := []; edges := [plain_edge] |})])
         (answering [])
       = (Generator.Return results, s')
       /\ forall c, Dict.contains c results
                    = Dict.contains c [("FAIR", {| nodes := []; edges := [plain_edge] |})].
Proof.
  assert (H : forall c sub,
             In (c, sub) [("FAIR", {| nodes := []; edges := [plain_edge] |})] ->
             mentioned (subgraph_to_json sub) c = true).
  { intros c sub [Heq|[]]. inversion Heq. reflexivity. }
  split; [reflexivity|]. split; [exact H|].
  apply (default_generator_returns_on_persisted_data str_of_scalar default_generator
           [("FAIR", {| nodes := []; edges := [plain_edge] |})] (answering []) eq_refl H).
Defined.

(** ** Poison Text Merger *)

Lemma merge_entities_get (format_value : json -> string) (poison enhanced : dict)
    (order : list string) :
  NoDup order ->
  forall merged txt merged' txt',
    (forall k, In k order -> Dict.get k merged = None) ->
    for_each (Merger.merge_entity format_value poison enhanced) order (merged, txt)
    = Ok (merged', txt') ->
    forall entity,
      Dict.get entity merged'
      = if existsb (String.eqb entity) order
        then Merger.entry_of format_value poison enhanced entity
        else Dict.get entity merged.
Proof.
  induction 1 as [|k order Hk Hnd IH]; intros merged txt merged' txt' Hfresh Hrun entity.
  - inversion Hrun. reflexivity.
  - cbn [for_each] in Hrun.
    destruct (Merger.merge_entity format_value poison enhanced (merged, txt) k)
      as [[merged1 txt1]|] eqn:Hstep; [|discriminate]. cbn [rbind] in Hrun.
    assert (Hmerged1 : forall k', k' <> k -> Dict.get k' merged1 = Dict.get k' merged).
    { intros k' Hne. unfold Merger.merge_entity in Hstep.
      destruct (Merger.text_under poison k "poison_text"); [|discriminate].
      cbn [rbind] in Hstep.
      destruct (Merger.text_under enhanced k "aggregated_text"); [|discriminate].
      cbn [rbind] in Hstep. cbv zeta in Hstep.
      destruct (truthy _); inversion Hstep; subst; [|reflexivity].
      simpl. apply dict_get_set_ne. congruence. }
    assert (Hfresh1 : forall k', In k' order -> Dict.get k' merged1 = None).
    { intros k' Hin. rewrite Hmerged1.
      - apply Hfresh. right. exact Hin.
      - intros ->. apply Hk. apply list_elem_of_In. exact Hin. }
    rewrite (IH _ _ _ _ Hfresh1 Hrun entity). cbn [existsb].
    destruct (existsb (String.eqb entity) order) eqn:Hin.
    + rewrite orb_true_r. reflexivity.
    + rewrite orb_false_r. destruct (String.eqb entity k) eqn:E.
      * apply String.eqb_eq in E. subst k.
        unfold Merger.merge_entity in Hstep. unfold Merger.entry_of.
        destruct (Merger.text_under poison entity "poison_text") as [original|];
          [|discriminate]. cbn [rbind] in Hstep.
        destruct (Merger.text_under enhanced entity "aggregated_text") as [enhanced_text|];
          [|discriminate]. cbn [rbind] in Hstep. cbv zeta in Hstep. cbv zeta.
        destruct (truthy (Merger.final_text format_value original enhanced_text));
          inversion Hstep; subst.
        -- apply dict_get_set_eq.
        -- apply Hfresh. left. reflexivity.
      * apply Hmerged1. apply String.eqb_neq, E.
Qed.

(** X16. The merged JSON does not depend on the order in which Python
    iterates over the set of themes.  Whenever the merge returns, a
    theme has an entry exactly when its original text or its enhanced
    text is not empty; the entry names the theme, and its text is the
    original text, a blank line and the enhanced text when both are
    there, and otherwise the one that is.  A theme of neither input has
    no entry. *)
Theorem merged_json_ignores_set_order (format_value : json -> string)
    (all_entities : list string) (poison_texts enhanced_texts : dict)
    (merged_json : Dict.t Merger.merged_entry) (merged_txt : string) :
  Merger.enumerates all_entities poison_texts enhanced_texts ->
  Merger.merge_poison_texts format_value all_entities
    (JObj poison_texts) (JObj enhanced_texts) = Ok (merged_json, merged_txt) ->
  forall entity,
    Dict.get entity merged_json
    = Merger.entry_of format_value poison_texts enhanced_texts entity.
Proof.
  intros [Hnd Hall] Hrun entity. unfold Merger.merge_poison_texts in Hrun.
  rewrite (merge_entities_get format_value poison_texts enhanced_texts all_entities
             Hnd [] EmptyString merged_json merged_txt (fun _ _ => eq_refl) Hrun entity).
  destruct (existsb (String.eqb entity) all_entities) eqn:Hin; [reflexivity|].
  assert (Hout : ~ In entity all_entities).
  { intros H. assert (existsb (String.eqb entity) all_entities = true); [|congruence].
    apply existsb_exists. exists entity. split; [exact H | apply String.eqb_refl]. }
  rewrite Hall in Hout. apply not_true_is_false in Hout.
  apply orb_false_iff in Hout as [Hp He]. unfold Dict.contains in Hp, He.
  unfold Merger.entry_of, Merger.text_under.
  destruct (Dict.get entity poison_texts); [discriminate|].
  destruct (Dict.get entity enhanced_texts); [discriminate|]. reflexivity.
Qed.

Lemma merged_json_ignores_set_order_witness :
  Merger.enumerates ["FAIR"] poison_texts_of_fair enhanced_texts_of_fair
  /\ (exists merged_json merged_txt,
        Merger.merge_poison_texts str_of_scalar ["FAIR"]
          (JObj poison_texts_of_fair) (JObj enhanced_texts_of_fair)
        = Ok (merged_json, merged_txt)
        /\ Dict.get "FAIR" merged_json
           = Merger.entry_of str_of_scalar poison_texts_of_fair enhanced_texts_of_fair
               "FAIR").
Proof.
  assert (He : Merger.enumerates ["FAIR"] poison_texts_of_fair enhanced_texts_of_fair).
  { split; [apply NoDup_singleton|]. intros k. split.
    - intros [<-|[]]. reflexivity.
    - intros H. apply orb_true_iff in H as [H|H];
        apply dict_contains_in_keys in H; exact H. }
  split; [exact He|]. eexists _, _. split; [vm_compute; reflexivity|].
  eapply (merged_json_ignores_set_order str_of_scalar ["FAIR"]); [exact He|].
  vm_compute. reflexivity.
Defined.

(** ** Poison Text Generator: quotation marks around a reply *)


Lemma lstrip_nonspace (c : ascii) (l : list ascii) :
  is_space c = false -> lstrip (c :: l) = c :: l.
Proof. intros H. simpl. rewrite H. reflexivity. Qed.

Lemma string_of_list_ascii_app (a b : list ascii) :
  string_of_list_ascii (a ++ b)
  = (string_of_list_ascii a ++ string_of_list_ascii b)%string.
Proof. induction a as [|c a IH]; simpl; [reflexivity|]. rewrite IH. reflexivity. Qed.

(** A text that neither starts nor ends with white space is its own
    [strip]. *)
Lemma strip_between (l : list ascii) (h t : ascii) (r r' : list ascii) :
  l = h :: r -> rev l = t :: r' ->
  is_space h = false -> is_space t = false ->
  strip (string_of_list_ascii l) = string_of_list_ascii l.
Proof.
  intros Hl Hrev Hh Ht. unfold strip. rewrite list_ascii_of_string_of_list_ascii.
  rewrite Hl, (lstrip_nonspace h _ Hh), <- Hl.
  rewrite Hrev, (lstrip_nonspace t _ Ht), <- Hrev, rev_involutive. reflexivity.
Qed.

Lemma slice_inner (a b : list ascii) (middle : list ascii) :
  length a = length b ->
  Generator.slice (length a) (length b) (a ++ middle ++ b) = middle.
Proof.
  intros Hlen. unfold Generator.slice. rewrite drop_app_length.
  rewrite !length_app.
  replace (length a + (length middle + length b) - length b - length a)
    with (length middle) by lia.
  apply take_app_length.
Qed.

(** [clean_response] on a text between two copies of [q], once [strip]
    and the four tests are known. *)
Lemma clean_response_between (q x : list ascii) (n : nat) :
  strip (string_of_list_ascii (q ++ x ++ q)) = string_of_list_ascii (q ++ x ++ q) ->
  n = length q ->
  (let cleaned := q ++ x ++ q in
   let quoted p := Generator.starts_with p cleaned && Generator.ends_with p cleaned in
   (if quoted [double_quote] then Generator.slice 1 1 cleaned
    else if quoted [Generator.backslash; double_quote] then Generator.slice 2 2 cleaned
    else if quoted [Generator.single_quote] then Generator.slice 1 1 cleaned
    else if quoted [Generator.backslash; Generator.single_quote]
         then Generator.slice 2 2 cleaned
    else cleaned) = Generator.slice n n cleaned) ->
  Generator.clean_response (string_of_list_ascii (q ++ x ++ q))
  = string_of_list_ascii x.
Proof.
  intros Hstrip -> Htests. unfold Generator.clean_response.
  rewrite Hstrip, list_ascii_of_string_of_list_ascii.
  cbv zeta in Htests |- *. rewrite Htests. f_equal.
  apply slice_inner. reflexivity.
Qed.

(** X17. A reply that is wrapped in one of the four pairs of quotation
    marks the generator knows, double or single, plain or preceded by a
    backslash, comes back as the text between them, whatever that text
    is. *)
Theorem clean_response_takes_the_quotes_off (q text : string) :
  In q quote_marks ->
  Generator.clean_response (q ++ text ++ q) = text.
Proof.
  intros Hq.
  rewrite <- (string_of_list_ascii_of_string text).
  set (x := list_ascii_of_string text). clearbody x.
  unfold quote_marks in Hq. cbn [map In] in Hq.
  destruct Hq as [<-|[<-|[<-|[<-|[]]]]];
    rewrite <- !string_of_list_ascii_app;
    match goal with
    | |- Generator.clean_response (string_of_list_ascii (?q ++ _ ++ _)) = _ =>
        apply (clean_response_between q x (length q));
        [ eapply strip_between;
          [ reflexivity | rewrite !rev_app_distr; reflexivity
          | reflexivity | reflexivity ]
        | reflexivity
        | cbv zeta; unfold Generator.ends_with; rewrite !rev_app_distr; reflexivity ]
    end.
Qed.

Lemma clean_response_takes_the_quotes_off_witness :
  In (string_of_list_ascii [Generator.single_quote]) quote_marks
  /\ Generator.clean_response
       (string_of_list_ascii [Generator.single_quote] ++ "A passage."
        ++ string_of_list_ascii [Generator.single_quote]) = "A passage.".
Proof.
  assert (H : In (string_of_list_ascii [Generator.single_quote]) quote_marks).
  { right. right. left. reflexivity. }
  split; [exact H|].
  apply (clean_response_takes_the_quotes_off _ "A passage." H).
Defined.

(** ** Replies inside a Markdown fence *)















Lemma split_from_nonempty (sep piece l : list ascii) (skip : nat) :
  Str.split_from sep piece skip l <> [].
Proof.
  revert piece skip. induction l as [|c l IH]; intros piece skip; [discriminate|].
  cbn [Str.split_from]. destruct skip; [|apply IH].
  destruct (Generator.starts_with sep (c :: l)); [discriminate|apply IH].
Qed.

Lemma split_from_two (sep piece l : list ascii) :
  sep <> [] -> Str.contains sep l = true ->
  exists a b rest, Str.split_from sep piece 0 l = a :: b :: rest.
Proof.
  intros Hsep. revert piece. induction l as [|c l IH]; intros piece H.
  - destruct sep; [congruence|discriminate].
  - cbn [Str.split_from]. cbn [Str.contains] in H.
    destruct (Generator.starts_with sep (c :: l)) eqn:Hs.
    + pose proof (split_from_nonempty sep [] l (length sep - 1)) as Hne.
      destruct (Str.split_from sep [] (length sep - 1) l) as [|b rest]; [congruence|].
      eauto.
    + apply IH. exact H.
Qed.





(** X19. Taking the text out of a reply never fails: whenever the code
    indexes the pieces of a split, the test before it has made sure the
    piece exists. *)
Theorem json_str_always_has_a_text (response : string) :
  exists text, json_str response = Some text.
Proof.
  unfold json_str. cbv zeta.
  set (r := list_ascii_of_string response).
  destruct (Str.contains json_fence r) eqn:Hj.
  - destruct (split_from_two json_fence [] r) as (a & b & rest & Hsplit);
      [discriminate|exact Hj|].
    unfold Str.split. rewrite Hsplit. cbn [nth_error].
    pose proof (split_from_nonempty fence [] b 0) as Hne.
    destruct (Str.split_from fence [] 0 b) as [|body rest']; [congruence|].
    cbn [nth_error]. eauto.
  - destruct (Str.contains fence r) eqn:Hf; [|eauto].
    destruct (split_from_two fence [] r) as (a & b & rest & Hsplit);
      [discriminate|exact Hf|].
    unfold Str.split. rewrite Hsplit. cbn [nth_error]. eauto.
Qed.

(** ** Poison Text Enhancer: the text of a pair has no outer white space *)







